(** * The slimproto player provider: sync groups, drift control, fan-out

    A shallow embedding of
    [music_assistant/server/providers/slimproto/__init__.py].

    Conventions.
    - The provider object ([self]) is the record [Provider]; a method is a
      computation in the state-and-exception monad [M].  The state that a
      method leaves behind when it raises is kept, because the source
      mutates before it raises.
    - Python floats ([time.time()], [statistics.fmean]) are exact
      rationals [Q]; Python ints are [Z].
    - [await] points inside one handler are not preemption points here,
      except the sleep of the buffer-ready polling loop, where the provider
      state seen by each pass is supplied by the caller.  The tasks of an
      [asyncio.TaskGroup] run in the order of their creation, a task that
      raises does not keep the later ones from running, and the group then
      raises the collected errors as one [ExceptionGroup]; a coroutine
      given to [asyncio.create_task] is queued in [tasks] and run
      separately.
    - Calls on a [SlimClient] session (aioslimproto, an external library)
      are recorded in [sent]; the frames such a call puts on the wire are
      the library's business.  A transport method of the session also
      changes the session's state and signals the update to the callback
      of the provider, which refreshes the player.  Calls into the player
      manager, the queue controller and the cache are recorded in [calls].
    - [_socket_clients] is a [gmap] and [group_childs] a [gset]: the order
      in which Python iterates a dict or a set is not kept, and no
      statement below depends on it beyond the listed scenarios. *)

From Stdlib Require Import ZArith QArith Qabs String Ascii List Bool Lia.
From stdpp Require Import base option gmap strings list fin_maps.

Local Open Scope string_scope.
Local Open Scope Z_scope.
Local Open Scope list_scope.
Local Open Scope stdpp_scope.

(** ** Enumerations *)

Module SlimPlayerState.
Inductive t := BUFFERING | BUFFER_READY | PAUSED | PLAYING | STOPPED.

#[global] Instance eq_dec : EqDecision t.
Proof. solve_decision. Defined.

Definition eqb (a b : t) : bool := bool_decide (a = b).
End SlimPlayerState.

Module PlayerState.
Inductive t := IDLE | PAUSED | PLAYING.

#[global] Instance eq_dec : EqDecision t.
Proof. solve_decision. Defined.

Definition eqb (a b : t) : bool := bool_decide (a = b).
End PlayerState.

Definition STATE_MAP (s : SlimPlayerState.t) : PlayerState.t :=
  match s with
  | SlimPlayerState.BUFFERING => PlayerState.PLAYING
  | SlimPlayerState.BUFFER_READY => PlayerState.PLAYING
  | SlimPlayerState.PAUSED => PlayerState.PAUSED
  | SlimPlayerState.PLAYING => PlayerState.PLAYING
  | SlimPlayerState.STOPPED => PlayerState.IDLE
  end.

(** ** Constants *)

Definition MIN_DEVIATION_ADJUST : Q := 10.
Definition MIN_REQ_PLAYPOINTS : nat := 4.
Definition ENABLE_EXPERIMENTAL_SYNC_JOIN : bool := false.
Definition DEFAULT_PLAYER_VOLUME : Z := 20.
Definition CACHE_KEY_PREV_STATE : string := "slimproto_prev_state".

(** ** Data *)

Record SyncPlayPoint := {
  timestamp : Q;
  sync_job_id : string;
  diff : Z
}.

Record QueueItem := {
  queue_item_id : string;
  qi_name : string
}.

(** The fields of an aioslimproto client that the provider reads. *)
Module SlimClient.
Record t := {
  player_id : string;
  name : string;
  device_model : string;
  powered : bool;
  muted : bool;
  volume_level : Z;
  state : SlimPlayerState.t;
  jiffies : Z;
  current_url : option string;
  elapsed_milliseconds : Z
}.

Definition set_state (st : SlimPlayerState.t) (c : t) : t :=
  {| player_id := player_id c; name := name c; device_model := device_model c;
     powered := powered c; muted := muted c; volume_level := volume_level c;
     state := st; jiffies := jiffies c; current_url := current_url c;
     elapsed_milliseconds := elapsed_milliseconds c |}.
End SlimClient.

(** Modelled from the spec: the [Player] dataclass lives in
    [music_assistant/common/models/player.py], which is not among the
    sources; the fields are the ones the spec's data model lists and the
    provider reads or writes.  [group_childs] is a Python set, and
    [can_sync_with] a tuple. *)
Module Player.
Record t := {
  player_id : string;
  name : string;
  available : bool;
  powered : bool;
  state : PlayerState.t;
  volume_level : Z;
  volume_muted : bool;
  current_url : option string;
  can_sync_with : list string;
  synced_to : option string;
  group_childs : gset string
}.

Definition set_synced_to (v : option string) (p : t) : t :=
  {| player_id := player_id p; name := name p; available := available p;
     powered := powered p; state := state p; volume_level := volume_level p;
     volume_muted := volume_muted p; current_url := current_url p;
     can_sync_with := can_sync_with p; synced_to := v;
     group_childs := group_childs p |}.

Definition set_group_childs (g : gset string) (p : t) : t :=
  {| player_id := player_id p; name := name p; available := available p;
     powered := powered p; state := state p; volume_level := volume_level p;
     volume_muted := volume_muted p; current_url := current_url p;
     can_sync_with := can_sync_with p; synced_to := synced_to p;
     group_childs := g |}.

Definition set_available (b : bool) (p : t) : t :=
  {| player_id := player_id p; name := name p; available := b;
     powered := powered p; state := state p; volume_level := volume_level p;
     volume_muted := volume_muted p; current_url := current_url p;
     can_sync_with := can_sync_with p; synced_to := synced_to p;
     group_childs := group_childs p |}.

(** [Player(player_id=..., name=..., available=True, powered=...)]: the
    remaining fields take the dataclass defaults. *)
Definition create (pid nm : string) (pw : bool) : t :=
  {| player_id := pid; name := nm; available := true; powered := pw;
     state := PlayerState.IDLE; volume_level := 100; volume_muted := false;
     current_url := None; can_sync_with := []; synced_to := None;
     group_childs := ∅ |}.
End Player.

(** Python truthiness of [str | None]. *)
Definition truthy (o : option string) : bool :=
  match o with
  | Some s => negb (String.eqb s "")
  | None => false
  end.

(** A call on a client session. *)
Inductive SessionOp :=
  | op_stop
  | op_play
  | op_pause
  | op_play_url (url mime_type : string) (metadata : option (string * string))
      (send_flush crossfade : bool) (transition_duration : Z) (autostart : bool)
  | op_send_strm (command : string) (replay_gain : Z)
  | op_power (on : bool)
  | op_volume_set (level : Z)
  | op_mute (on : bool)
  | op_disconnect.

(** A call into an external collaborator. *)
Inductive ExtCall :=
  | players_update (pid : string)
  | players_register_or_update (pid : string)
  | queues_resume (queue_id : string) (fade_in : bool)
  | cache_set (key : string) (pw : bool) (vol : Z).

(** A coroutine handed to [asyncio.create_task]; it runs after the handler
    that created it has returned. *)
Inductive Task :=
  | task_skip_over (client_id : string) (millis : Q)
  | task_pause_for (client_id : string) (millis : Q).

(** A multi-client stream job, as far as the provider inspects it; the
    seconds skipped per client are whole numbers here. *)
Record StreamJob := {
  job_id : string;
  pending : bool;
  running : bool;
  client_seconds_skipped : gmap string Z;
  resolve_stream_url : string → string
}.

(** What the provider reads from its collaborators. *)
Record Env := {
  get_active_queue : string → string;
  multi_client_jobs : gmap string StreamJob;
  sync_adjust : gmap string Z;
  crossfade_duration : string → Z;
  cache : gmap string (bool * Z)
}.

(** A virtual provider's callback mutates the player it is handed. *)
Definition Callback : Type := Player.t → Player.t.

Record Provider := {
  players : gmap string Player.t;
  _socket_clients : gmap string SlimClient.t;
  _sync_playpoints : gmap string (list SyncPlayPoint);
  _do_not_resync_before : gmap string Q;
  _virtual_providers : gmap string (Callback * Callback);
  closing : bool;
  sent : list (string * SessionOp);
  calls : list ExtCall;
  tasks : list Task
}.

Definition with_players (f : gmap string Player.t → gmap string Player.t)
    (s : Provider) : Provider :=
  {| players := f (players s); _socket_clients := _socket_clients s;
     _sync_playpoints := _sync_playpoints s;
     _do_not_resync_before := _do_not_resync_before s;
     _virtual_providers := _virtual_providers s; closing := closing s;
     sent := sent s; calls := calls s; tasks := tasks s |}.

Definition with_clients (f : gmap string SlimClient.t → gmap string SlimClient.t)
    (s : Provider) : Provider :=
  {| players := players s; _socket_clients := f (_socket_clients s);
     _sync_playpoints := _sync_playpoints s;
     _do_not_resync_before := _do_not_resync_before s;
     _virtual_providers := _virtual_providers s; closing := closing s;
     sent := sent s; calls := calls s; tasks := tasks s |}.

Definition with_playpoints
    (f : gmap string (list SyncPlayPoint) → gmap string (list SyncPlayPoint))
    (s : Provider) : Provider :=
  {| players := players s; _socket_clients := _socket_clients s;
     _sync_playpoints := f (_sync_playpoints s);
     _do_not_resync_before := _do_not_resync_before s;
     _virtual_providers := _virtual_providers s; closing := closing s;
     sent := sent s; calls := calls s; tasks := tasks s |}.

Definition with_backoff (f : gmap string Q → gmap string Q)
    (s : Provider) : Provider :=
  {| players := players s; _socket_clients := _socket_clients s;
     _sync_playpoints := _sync_playpoints s;
     _do_not_resync_before := f (_do_not_resync_before s);
     _virtual_providers := _virtual_providers s; closing := closing s;
     sent := sent s; calls := calls s; tasks := tasks s |}.

Definition with_sent (f : list (string * SessionOp) → list (string * SessionOp))
    (s : Provider) : Provider :=
  {| players := players s; _socket_clients := _socket_clients s;
     _sync_playpoints := _sync_playpoints s;
     _do_not_resync_before := _do_not_resync_before s;
     _virtual_providers := _virtual_providers s; closing := closing s;
     sent := f (sent s); calls := calls s; tasks := tasks s |}.

Definition with_calls (f : list ExtCall → list ExtCall)
    (s : Provider) : Provider :=
  {| players := players s; _socket_clients := _socket_clients s;
     _sync_playpoints := _sync_playpoints s;
     _do_not_resync_before := _do_not_resync_before s;
     _virtual_providers := _virtual_providers s; closing := closing s;
     sent := sent s; calls := f (calls s); tasks := tasks s |}.

Definition with_tasks (f : list Task → list Task)
    (s : Provider) : Provider :=
  {| players := players s; _socket_clients := _socket_clients s;
     _sync_playpoints := _sync_playpoints s;
     _do_not_resync_before := _do_not_resync_before s;
     _virtual_providers := _virtual_providers s; closing := closing s;
     sent := sent s; calls := calls s; tasks := f (tasks s) |}.

(** ** The monad of provider methods *)

Inductive Exn :=
  | AssertionError
  | AttributeError
  | KeyError (key : string)
  | RuntimeError (msg : string)
  | InvalidUrl (url : string)
  | StructError
  | ExceptionGroup (errors : list Exn).

Inductive result (A : Type) :=
  | Ok (a : A)
  | Raise (e : Exn).
Arguments Ok {A} a.
Arguments Raise {A} e.

Definition M (A : Type) : Type := Provider → Provider * result A.

#[global] Instance M_ret : MRet M := λ A a s, (s, Ok a).

#[global] Instance M_bind : MBind M := λ A B f m s,
  match m s with
  | (s', Ok a) => f a s'
  | (s', Raise e) => (s', Raise e)
  end.

Definition raise {A} (e : Exn) : M A := λ s, (s, Raise e).
Definition get_self : M Provider := λ s, (s, Ok s).
Definition modify (f : Provider → Provider) : M unit := λ s, (f s, Ok tt).
Definition pass : M unit := mret tt.

(** [for x in xs: body(x)] *)
Fixpoint for_each {A} (xs : list A) (body : A → M unit) : M unit :=
  match xs with
  | [] => pass
  | x :: rest => body x ;; for_each rest body
  end.

(** The tasks of a task group, run in the order of their creation; a task
    that raises does not keep the later ones from running.  The result is
    the provider they leave and what they raised. *)
Fixpoint run_tasks {A} (xs : list A) (body : A → M unit) (s : Provider)
    : Provider * list Exn :=
  match xs with
  | [] => (s, [])
  | x :: rest =>
      let (s1, r) := body x s in
      let (s2, errors) := run_tasks rest body s1 in
      (s2, match r with
           | Ok _ => errors
           | Raise e => e :: errors
           end)
  end.

(** [async with asyncio.TaskGroup() as tg: for x in xs: tg.create_task(body(x))]:
    the group raises an [ExceptionGroup] of what its tasks raised, if any
    did. *)
Definition task_group {A} (xs : list A) (body : A → M unit) : M unit :=
  λ s, let (s', errors) := run_tasks xs body s in
       (s', match errors with
            | [] => Ok tt
            | _ => Raise (ExceptionGroup errors)
            end).

Definition send (c : SlimClient.t) (op : SessionOp) : M unit :=
  modify (with_sent (λ l, l ++ [(SlimClient.player_id c, op)])).

Definition call (e : ExtCall) : M unit :=
  modify (with_calls (λ l, l ++ [e])).

Definition create_task (t : Task) : M unit :=
  modify (with_tasks (λ l, l ++ [t])).

(** The session operations sent to the client registered as [pid]. *)
Definition sent_to (pid : string) (s : Provider) : list SessionOp :=
  (filter (λ e, e.1 = pid) (sent s)).*2.

(** ** Small Python library functions *)

(** [s.split(sep)[0]] *)
Fixpoint split_first (sep : ascii) (s : string) : string :=
  match s with
  | EmptyString => EmptyString
  | String c rest =>
      if Ascii.eqb c sep then EmptyString else String c (split_first sep rest)
  end.

Fixpoint contains (sep : ascii) (s : string) : bool :=
  match s with
  | EmptyString => false
  | String c rest => Ascii.eqb c sep || contains sep rest
  end.

(** [s.split(sep)[-1]] *)
Fixpoint split_last (sep : ascii) (s : string) : string :=
  match s with
  | EmptyString => EmptyString
  | String c rest =>
      if contains sep rest then split_last sep rest
      else if Ascii.eqb c sep then rest
      else String c rest
  end.

(** [int(x)] on a float: truncation toward zero. *)
Definition py_int (x : Q) : Z := Z.quot (Qnum x) (Z.pos (Qden x)).

(** [a < b] on floats. *)
Definition Qltb (a b : Q) : bool := negb (Qle_bool b a).

Definition sum_diffs (l : list SyncPlayPoint) : Z :=
  foldr (λ x acc, diff x + acc) 0 l.

(** [statistics.fmean(x.diff for x in sync_playpoints)], on a ring that is
    not empty. *)
Definition fmean (l : list SyncPlayPoint) : Q :=
  Qmake (sum_diffs l) (Pos.of_nat (length l)).

(** [deque(maxlen=n).append(x)]: the oldest entries fall out on the left. *)
Definition deque_append {A} (maxlen : nat) (x : A) (l : list A) : list A :=
  drop (length (l ++ [x]) - maxlen)%nat (l ++ [x]).

(** ** Collaborators *)

(** Modelled from the spec: [self.mass.players.get], the accessor of the
    player table kept by the player manager (not among the sources); it
    yields the registered player or [None]. *)
Definition players_get (player_id : string) : M (option Player.t) :=
  λ s, (s, Ok (players s !! player_id)).

(** Assignment to a field of a [Player] object that lives in the table. *)
Definition update_player (key : string) (f : Player.t → Player.t) : M unit :=
  modify (with_players (alter f key)).

(** Modelled from the spec: [self.mass.players.register_or_update], which
    enters the player into the table under its id. *)
Definition register_or_update (player : Player.t) : M unit :=
  modify (with_players (<[Player.player_id player := player]>)) ;;
  call (players_register_or_update (Player.player_id player)).

(** ** Player update *)

(** The assignments of [_handle_player_update] to the player's fields. *)
Definition refresh_player (client : SlimClient.t) (others : list string)
    (p : Player.t) : Player.t :=
  {| Player.player_id := Player.player_id p;
     Player.name := SlimClient.name client;
     Player.available := true;
     Player.powered := SlimClient.powered client;
     Player.state := STATE_MAP (SlimClient.state client);
     Player.volume_level := SlimClient.volume_level client;
     Player.volume_muted := SlimClient.powered client && SlimClient.muted client;
     Player.current_url := SlimClient.current_url client;
     Player.can_sync_with := others;
     Player.synced_to := Player.synced_to p;
     Player.group_childs := Player.group_childs p |}.

(** [x.player_id for x in self._socket_clients.values() if x.player_id != player_id] *)
Definition other_player_ids (player_id : string)
    (clients : gmap string SlimClient.t) : list string :=
  filter (λ x, x ≠ player_id)
    (SlimClient.player_id <$> (map_to_list clients).*2).

Definition _handle_player_update (client : SlimClient.t) : M unit :=
  let player_id := SlimClient.player_id client in
  s ← get_self;
  let virtual_provider_info :=
    _virtual_providers s !! SlimClient.device_model client in
  existing ← players_get player_id;
  key ← match existing with
        | Some _ => mret player_id
        | None =>
            let player :=
              Player.create player_id (SlimClient.name client)
                (SlimClient.powered client) in
            let player :=
              match virtual_provider_info with
              | Some cbs => cbs.1 player
              | None => player
              end in
            register_or_update player ;; mret (Player.player_id player)
        end;
  update_player key
    (refresh_player client (other_player_ids player_id (_socket_clients s))) ;;
  match virtual_provider_info with
  | Some cbs => update_player key cbs.2
  | None => pass
  end ;;
  call (players_update player_id).

(** ** The session *)

(** The events of a session other than those that start a handler of their
    own (connected, disconnected, decoder ready, buffer ready, output
    underrun, heartbeat). *)
Inductive SlimEventType :=
  | PLAYER_UPDATED
  | PLAYER_CLI_EVENT
  | PLAYER_DECODER_ERROR.

(** [client_callback], the callback that [_create_client] hands to every
    session, on such an event: the two uninteresting events are ignored and
    any other is forwarded to the player controller. *)
Definition client_callback (event_type : SlimEventType) (client : SlimClient.t)
    : M unit :=
  match event_type with
  | PLAYER_CLI_EVENT | PLAYER_DECODER_ERROR => pass
  | PLAYER_UPDATED => _handle_player_update client
  end.

(** The session class is aioslimproto's [SlimClient], which is not among
    the sources.  Of its transport methods the following is kept: the call
    itself, recorded in [sent]; the [state] in which the method leaves the
    session ([stop]: STOPPED, [play]: PLAYING, [pause]: PAUSED, [play_url]:
    BUFFERING); and the update that the session then signals to its
    callback.  [play_url] refuses a url that does not start with http.  The
    session is the object registered in [_socket_clients] under its own id
    (see [_handle_connected]), so that is where its new state is kept.  The
    other methods ([power], [volume_set], [mute], [disconnect], [send_strm])
    are recorded as calls only.  The statements below use the state left
    by [play] for a paused session and the state left by [pause] for a
    playing session only. *)
Definition signal_state (client : SlimClient.t) (st : SlimPlayerState.t)
    : M unit :=
  modify (with_clients
    (alter (SlimClient.set_state st) (SlimClient.player_id client))) ;;
  client_callback PLAYER_UPDATED (SlimClient.set_state st client).

Definition client_stop (client : SlimClient.t) : M unit :=
  send client op_stop ;; signal_state client SlimPlayerState.STOPPED.

Definition client_play (client : SlimClient.t) : M unit :=
  send client op_play ;; signal_state client SlimPlayerState.PLAYING.

Definition client_pause (client : SlimClient.t) : M unit :=
  send client op_pause ;; signal_state client SlimPlayerState.PAUSED.

Definition client_play_url (client : SlimClient.t) (url mime_type : string)
    (metadata : option (string * string)) (send_flush crossfade : bool)
    (transition_duration : Z) (autostart : bool) : M unit :=
  if String.prefix "http" url then
    send client
      (op_play_url url mime_type metadata send_flush crossfade
         transition_duration autostart) ;;
    signal_state client SlimPlayerState.BUFFERING
  else raise (InvalidUrl url).

(** [client._process_stat_stmu(b"")]: the session's handler of the
    playback-stopped status, which leaves the session in [STOPPED] and
    signals the update. *)
Definition _process_stat_stmu (client : SlimClient.t) : M unit :=
  signal_state client SlimPlayerState.STOPPED.

(** ** Fan-out *)

Definition _get_sync_clients (player_id : string) : M (list SlimClient.t) :=
  player ← players_get player_id;
  match player with
  | None => raise AttributeError
  | Some player =>
      s ← get_self;
      let group_child_ids := {[player_id]} ∪ Player.group_childs player in
      mret (omap (λ child_id, _socket_clients s !! child_id)
              (elements group_child_ids))
  end.

(** ** Transport commands *)

Definition cmd_stop (player_id : string) : M unit :=
  clients ← _get_sync_clients player_id;
  for_each clients (λ client,
    if SlimPlayerState.eqb (SlimClient.state client) SlimPlayerState.STOPPED
    then pass
    else client_stop client ;; _process_stat_stmu client).

Definition cmd_play (player_id : string) : M unit :=
  clients ← _get_sync_clients player_id;
  task_group
    (filter (λ client,
       SlimClient.state client ∈
         [SlimPlayerState.PAUSED; SlimPlayerState.BUFFERING;
          SlimPlayerState.BUFFER_READY]) clients)
    client_play.

Definition cmd_pause (player_id : string) : M unit :=
  clients ← _get_sync_clients player_id;
  task_group
    (filter (λ client,
       SlimClient.state client ∈
         [SlimPlayerState.PLAYING; SlimPlayerState.BUFFERING;
          SlimPlayerState.BUFFER_READY]) clients)
    client_pause.

Definition mime_type_of (url : string) : string :=
  "audio/" +:+ split_first "?" (split_last "." url).

Definition _handle_play_url (env : Env) (client : SlimClient.t) (url : string)
    (queue_item : option QueueItem) (send_flush crossfade auto_play : bool)
    : M unit :=
  let player_id := SlimClient.player_id client in
  let transition_duration :=
    if crossfade then crossfade_duration env player_id else 0 in
  client_play_url client url (mime_type_of url)
    ((λ qi, (queue_item_id qi, qi_name qi)) <$> queue_item)
    send_flush crossfade transition_duration auto_play.

Definition synced_error : Exn :=
  RuntimeError "A synced player cannot receive play commands directly".

Definition cmd_play_url (env : Env) (player_id url : string)
    (queue_item : option QueueItem) : M unit :=
  cmd_stop player_id ;;
  player ← players_get player_id;
  match player with
  | None => raise AttributeError
  | Some player =>
      if truthy (Player.synced_to player) then raise synced_error
      else
        sync_clients ← _get_sync_clients player_id;
        task_group sync_clients (λ client,
          _handle_play_url env client url queue_item true false
            (length sync_clients =? 1)%nat)
  end.

Definition cmd_handle_stream_job (env : Env) (player_id : string)
    (stream_job : StreamJob) : M unit :=
  cmd_stop player_id ;;
  player ← players_get player_id;
  match player with
  | None => raise AttributeError
  | Some player =>
      if truthy (Player.synced_to player) then raise synced_error
      else
        sync_clients ← _get_sync_clients player_id;
        task_group sync_clients (λ client,
          let url := resolve_stream_url stream_job (SlimClient.player_id client) in
          _handle_play_url env client url None true false
            (length sync_clients =? 1)%nat)
  end.

(** ** Sync group manager *)

Definition cmd_sync (env : Env) (player_id target_player : string) : M unit :=
  child_player ← players_get player_id;
  match child_player with
  | None => raise AssertionError
  | Some child_player =>
  parent_player ← players_get target_player;
  match parent_player with
  | None => raise AssertionError
  | Some parent_player =>
      let parent_id := Player.player_id parent_player in
      let child_id := Player.player_id child_player in
      update_player target_player
        (λ p, Player.set_group_childs ({[parent_id]} ∪ Player.group_childs p) p) ;;
      update_player target_player
        (λ p, Player.set_group_childs ({[child_id]} ∪ Player.group_childs p) p) ;;
      update_player player_id (Player.set_synced_to (Some parent_id)) ;;
      let active_queue := get_active_queue env parent_id in
      let join_job :=
        if ENABLE_EXPERIMENTAL_SYNC_JOIN then
          match multi_client_jobs env !! active_queue with
          | Some stream_job =>
              if pending stream_job || running stream_job
              then Some stream_job else None
          | None => None
          end
        else None in
      match join_job with
      | Some stream_job =>
          let url := resolve_stream_url stream_job player_id in
          s ← get_self;
          match _socket_clients s !! player_id with
          | None => raise (KeyError player_id)
          | Some client => _handle_play_url env client url None true false true
          end
      | None =>
          if PlayerState.eqb (Player.state parent_player) PlayerState.PLAYING
          then call (queues_resume active_queue false)
          else call (players_update child_id) ;; call (players_update parent_id)
      end
  end
  end.

Definition cmd_unsync (player_id : string) : M unit :=
  child_player ← players_get player_id;
  match child_player with
  | None => raise AttributeError
  | Some child_player =>
      let parent_key := Player.synced_to child_player in
      s ← get_self;
      let parent_player := parent_key ≫= (λ k, players s !! k) in
      let child_id := Player.player_id child_player in
      cmd_stop child_id ;;
      update_player player_id (Player.set_synced_to None) ;;
      match parent_key, parent_player with
      | Some parent_key, Some parent_player =>
          let parent_id := Player.player_id parent_player in
          update_player parent_key
            (λ p, Player.set_group_childs (Player.group_childs p ∖ {[child_id]}) p) ;;
          update_player parent_key
            (λ p, if bool_decide (Player.group_childs p = {[parent_id]})
                  then Player.set_group_childs (Player.group_childs p ∖ {[parent_id]}) p
                  else p) ;;
          call (players_update child_id) ;;
          call (players_update parent_id)
      | _, _ => raise AttributeError
      end
  end.

(** ** Player registry *)

Definition cache_key (player_id : string) : string :=
  CACHE_KEY_PREV_STATE +:+ "." +:+ player_id.

Definition _handle_connected (env : Env) (client : SlimClient.t) : M unit :=
  let player_id := SlimClient.player_id client in
  s ← get_self;
  match _socket_clients s !! player_id with
  | Some existing =>
      modify (with_clients (delete player_id)) ;; send existing op_disconnect
  | None => pass
  end ;;
  modify (with_clients (<[player_id := client]>)) ;;
  _handle_player_update client ;;
  s ← get_self;
  for_each (map_to_list (_socket_clients s)).*2 (λ item,
    if bool_decide (SlimClient.player_id item = player_id) then pass
    else _handle_player_update item) ;;
  let last_state := cache env !! cache_key player_id in
  let init_power := default false (fst <$> last_state) in
  let init_volume := default DEFAULT_PLAYER_VOLUME (snd <$> last_state) in
  send client (op_power init_power) ;;
  send client (op_volume_set init_volume).

Definition _handle_disconnected (client : SlimClient.t) : M unit :=
  s ← get_self;
  if closing s then pass
  else
    let player_id := SlimClient.player_id client in
    match _socket_clients s !! player_id with
    | Some client =>
        modify (with_clients (delete player_id)) ;;
        call (cache_set (cache_key player_id)
                (SlimClient.powered client) (SlimClient.volume_level client))
    | None => pass
    end ;;
    player ← players_get player_id;
    match player with
    | Some _ =>
        update_player player_id (Player.set_available false) ;;
        call (players_update player_id)
    | None => pass
    end.

(** ** Drift controller *)

Definition _pause_for (client_id : string) (millis : Q) : M unit :=
  s ← get_self;
  match _socket_clients s !! client_id with
  | None => raise (KeyError client_id)
  | Some client => send client (op_send_strm "p" (py_int millis))
  end.

Definition _skip_over (client_id : string) (millis : Q) : M unit :=
  s ← get_self;
  match _socket_clients s !! client_id with
  | None => raise (KeyError client_id)
  | Some client => send client (op_send_strm "a" (py_int millis))
  end.

Definition run_task (t : Task) : M unit :=
  match t with
  | task_skip_over client_id millis => _skip_over client_id millis
  | task_pause_for client_id millis => _pause_for client_id millis
  end.

Definition _get_corrected_elapsed_milliseconds (env : Env)
    (client : SlimClient.t) : Z :=
  let player_id := SlimClient.player_id client in
  let active_queue := get_active_queue env player_id in
  let skipped_millis :=
    match multi_client_jobs env !! active_queue with
    | Some stream_job =>
        default 0 (client_seconds_skipped stream_job !! player_id) * 1000
    | None => 0
    end in
  let sync_delay := default 0 (sync_adjust env !! player_id) in
  let current_millis := skipped_millis + SlimClient.elapsed_milliseconds client in
  if negb (sync_delay =? 0) then current_millis - sync_delay
  else current_millis.

(** The readings of [time.time()] inside [_handle_client_sync], one per
    place of call. *)
Record Times := {
  t_backoff : Q;
  t_age : Q;
  t_append : Q;
  t_set : Q
}.

(** [if backoff_time := ...get(player_id): if time.time() < backoff_time] *)
Definition backing_off (now : Q) (backoff_time : option Q) : bool :=
  match backoff_time with
  | Some b => negb (Qeq_bool b 0) && Qltb now b
  | None => false
  end.

(** The two invalidation tests on the ring: what is left of it. *)
Definition invalidate (now : Q) (current_job : string)
    (ring : list SyncPlayPoint) : list SyncPlayPoint :=
  match last ring with
  | None => ring
  | Some last_playpoint =>
      let ring :=
        if Qltb 10 (now - timestamp last_playpoint) then [] else ring in
      if negb (String.eqb (sync_job_id last_playpoint) current_job)
      then [] else ring
  end.

Definition set_ring (player_id : string) (ring : list SyncPlayPoint) : M unit :=
  modify (with_playpoints (<[player_id := ring]>)).

Definition set_backoff (player_id : string) (t : Q) : M unit :=
  modify (with_backoff (<[player_id := t]>)).

Definition _handle_client_sync (env : Env) (tm : Times)
    (client : SlimClient.t) : M unit :=
  let client_id := SlimClient.player_id client in
  player ← players_get client_id;
  match player with
  | None => raise AttributeError
  | Some player =>
  let sync_master_id := Player.synced_to player in
  if negb (truthy sync_master_id) then pass else
  s ← get_self;
  match sync_master_id ≫= (λ k, _socket_clients s !! k) with
  | None => pass
  | Some sync_master =>
  if negb (SlimPlayerState.eqb (SlimClient.state sync_master) SlimPlayerState.PLAYING)
  then pass else
  if negb (SlimPlayerState.eqb (SlimClient.state client) SlimPlayerState.PLAYING)
  then pass else
  if backing_off (t_backoff tm) (_do_not_resync_before s !! client_id)
  then pass else
  let sync_playpoints := default [] (_sync_playpoints s !! client_id) in
  set_ring client_id sync_playpoints ;;
  let active_queue := get_active_queue env client_id in
  match multi_client_jobs env !! active_queue with
  | None => pass
  | Some stream_job =>
  let sync_playpoints := invalidate (t_age tm) (job_id stream_job) sync_playpoints in
  let diff :=
    _get_corrected_elapsed_milliseconds env sync_master
    - _get_corrected_elapsed_milliseconds env client in
  let sync_playpoints :=
    deque_append MIN_REQ_PLAYPOINTS
      {| timestamp := t_append tm; sync_job_id := job_id stream_job; diff := diff |}
      sync_playpoints in
  set_ring client_id sync_playpoints ;;
  if (length sync_playpoints <? MIN_REQ_PLAYPOINTS)%nat then pass else
  let avg_diff := fmean sync_playpoints in
  let delta := Qabs avg_diff in
  if Qltb delta MIN_DEVIATION_ADJUST then pass else
  set_ring client_id [] ;;
  if Qltb 0 avg_diff then
    set_backoff client_id (t_set tm + 2)%Q ;;
    create_task (task_skip_over client_id delta)
  else
    set_backoff client_id (t_set tm + (delta / 1000) + 2)%Q ;;
    create_task (task_pause_for client_id delta)
  end
  end
  end.

(** ** Buffer-coordinated start *)

(** One pass over the sync clients inside the polling loop:
    [childs_total == childs_ready]. *)
Definition childs_ready (player_id : string) : M bool :=
  clients ← _get_sync_clients player_id;
  let childs_total := length clients in
  let childs_ready :=
    length (filter (λ c, SlimClient.state c = SlimPlayerState.BUFFER_READY) clients) in
  mret (childs_total =? childs_ready)%nat.

(** The [while count < 40] loop.  [world k] is the provider as the [k]-th
    pass finds it (other tasks run during each sleep).  The body never
    assigns to [count].  [None]: still polling after [fuel] passes. *)
Fixpoint wait_for_childs (fuel : nat) (count : Z) (player_id : string)
    (world : nat → Provider) (k : nat) : option (Provider * result unit) :=
  match fuel with
  | O => None
  | S fuel' =>
      if count <? 40 then
        match childs_ready player_id (world k) with
        | (s, Ok true) => Some (s, Ok tt)
        | (s, Ok false) => wait_for_childs fuel' count player_id world (S k)
        | (s, Raise e) => Some (s, Raise e)
        end
      else Some (world k, Ok tt)
  end.

(** [client.send_strm(b"u", replay_gain=int(timestamp))]: the frame holds
    [replay_gain] as an unsigned 32-bit field, and packing a value outside
    that range raises.  [jiffies] is the device's 32-bit clock, so
    [jiffies + 20] leaves the range in the last 20 ms before the clock
    wraps. *)
Definition send_unpause_at (client : SlimClient.t) (timestamp : Z) : M unit :=
  if bool_decide (0 ≤ timestamp < 2 ^ 32)
  then send client (op_send_strm "u" timestamp)
  else raise StructError.

(** The fan-out after the loop; [now c] is the reading of [time.time()]
    in the pass for client [c].  The loop records the backoffs and creates
    the tasks; the tasks send. *)
Definition start_play (now : string → Q) (player_id : string) : M unit :=
  clients ← _get_sync_clients player_id;
  for_each clients (λ client,
    set_backoff (SlimClient.player_id client)
      (now (SlimClient.player_id client) + 1)%Q) ;;
  task_group clients (λ client,
    let timestamp := SlimClient.jiffies client + 20 in
    send_unpause_at client timestamp).

Definition _handle_buffer_ready (fuel : nat) (world : nat → Provider)
    (now : string → Q) (client : SlimClient.t)
    : option (Provider * result unit) :=
  let s0 := world O in
  match players s0 !! SlimClient.player_id client with
  | None => Some (s0, Raise AttributeError)
  | Some player =>
      if truthy (Player.synced_to player) then Some (s0, Ok tt)
      else if bool_decide (Player.group_childs player = ∅)
      then Some (client_play client s0)
      else
        match wait_for_childs fuel 0 (Player.player_id player) world O with
        | None => None
        | Some (s, Ok _) => Some (start_play now (Player.player_id player) s)
        | Some (s, Raise e) => Some (s, Raise e)
        end
  end.

(** ** Predicates used in the statements *)

(** Everything but the sessions and the log of sent operations is the
    same. *)
Definition same_but_sessions (s s' : Provider) : Prop :=
  players s' = players s ∧ _sync_playpoints s' = _sync_playpoints s ∧
  _do_not_resync_before s' = _do_not_resync_before s ∧
  _virtual_providers s' = _virtual_providers s ∧ closing s' = closing s ∧
  calls s' = calls s ∧ tasks s' = tasks s.

(** The player table holds the player [k] under its own id. *)
Definition keyed (s : Provider) (k : string) : Prop :=
  ∀ p, players s !! k = Some p → Player.player_id p = k.

(** The membership part of a player: its leader and its follower set. *)
Definition membership (s : Provider) (k : string)
    : option (option string * gset string) :=
  (λ p, (Player.synced_to p, Player.group_childs p)) <$> players s !! k.

(** The same, with the follower set listed. *)
Definition links (s : Provider) (k : string)
    : option (option string * list string) :=
  (λ p, (Player.synced_to p, elements (Player.group_childs p))) <$> players s !! k.

(** The player of [k] lists the other ids of the session map [m]. *)
Definition lists_others (m : gmap string SlimClient.t) (s : Provider)
    (k : string) : Prop :=
  ∃ p, players s !! k = Some p ∧ Player.can_sync_with p = other_player_ids k m.

(** Every session is stored under its own player id. *)
Definition clients_keyed (s : Provider) : Prop :=
  ∀ k c, _socket_clients s !! k = Some c → SlimClient.player_id c = k.

(** ** Scenarios *)

Definition mk_client (pid : string) (st : SlimPlayerState.t) (j : Z)
    (elapsed : Z) : SlimClient.t :=
  {| SlimClient.player_id := pid; SlimClient.name := pid;
     SlimClient.device_model := "squeezelite";
     SlimClient.powered := true; SlimClient.muted := false;
     SlimClient.volume_level := 20; SlimClient.state := st;
     SlimClient.jiffies := j; SlimClient.current_url := None;
     SlimClient.elapsed_milliseconds := elapsed |}.

Definition mk_player (pid : string) (st : PlayerState.t)
    (leader : option string) (childs : gset string) : Player.t :=
  {| Player.player_id := pid; Player.name := pid; Player.available := true;
     Player.powered := true; Player.state := st; Player.volume_level := 20;
     Player.volume_muted := false; Player.current_url := None;
     Player.can_sync_with := []; Player.synced_to := leader;
     Player.group_childs := childs |}.

Definition empty_provider : Provider :=
  {| players := ∅; _socket_clients := ∅; _sync_playpoints := ∅;
     _do_not_resync_before := ∅; _virtual_providers := ∅; closing := false;
     sent := []; calls := []; tasks := [] |}.

Definition provider_of (ps : list Player.t) (cs : list SlimClient.t) : Provider :=
  with_clients (λ _, list_to_map ((λ c, (SlimClient.player_id c, c)) <$> cs))
    (with_players (λ _, list_to_map ((λ p, (Player.player_id p, p)) <$> ps))
       empty_provider).

Definition job_j1 : StreamJob :=
  {| job_id := "j1"; pending := false; running := true;
     client_seconds_skipped := ∅; resolve_stream_url := λ pid, "http://x/" +:+ pid +:+ ".flac" |}.

(** Every player has its own queue, and all of them play job [j1]. *)
Definition env_j1 : Env :=
  {| get_active_queue := λ pid, pid;
     multi_client_jobs := list_to_map [("aa", job_j1); ("bb", job_j1)];
     sync_adjust := ∅; crossfade_duration := λ _, 0; cache := ∅ |}.

(** Two idle players, in no sync relationship. *)
Definition two_idle : Provider :=
  provider_of
    [mk_player "aa" PlayerState.IDLE None ∅; mk_player "bb" PlayerState.IDLE None ∅]
    [mk_client "aa" SlimPlayerState.STOPPED 7 0; mk_client "bb" SlimPlayerState.STOPPED 5 0].

(** Leader [aa] with follower [bb], both playing; [cc] stands alone. *)
Definition group_playing : Provider :=
  provider_of
    [mk_player "aa" PlayerState.PLAYING None {["aa"; "bb"]};
     mk_player "bb" PlayerState.PLAYING (Some "aa") ∅;
     mk_player "cc" PlayerState.IDLE None ∅]
    [mk_client "aa" SlimPlayerState.PLAYING 7000 1011;
     mk_client "bb" SlimPlayerState.PLAYING 5000 1000;
     mk_client "cc" SlimPlayerState.STOPPED 3000 0].

(** The single player of the first end-to-end scenario. *)
Definition single_player : Provider :=
  provider_of [mk_player "aa:bb:cc:dd:ee:01" PlayerState.IDLE None ∅]
    [mk_client "aa:bb:cc:dd:ee:01" SlimPlayerState.STOPPED 7000 0].

(** Leader [aa] has buffered, follower [bb] is still buffering. *)
Definition group_buffering : Provider :=
  provider_of
    [mk_player "aa" PlayerState.PLAYING None {["aa"; "bb"]};
     mk_player "bb" PlayerState.PLAYING (Some "aa") ∅]
    [mk_client "aa" SlimPlayerState.BUFFER_READY 7000 0;
     mk_client "bb" SlimPlayerState.BUFFERING 5000 0].

(** The same group once the follower has buffered too. *)
Definition group_buffered : Provider :=
  provider_of
    [mk_player "aa" PlayerState.PLAYING None {["aa"; "bb"]};
     mk_player "bb" PlayerState.PLAYING (Some "aa") ∅]
    [mk_client "aa" SlimPlayerState.BUFFER_READY 7000 0;
     mk_client "bb" SlimPlayerState.BUFFER_READY 5000 0].

(** Players [aa] and [bb] connect in turn to an empty provider; then [bb]
    disconnects. *)
Definition both_connected : Provider :=
  (_handle_connected env_j1 (mk_client "bb" SlimPlayerState.STOPPED 5000 0)
     (_handle_connected env_j1 (mk_client "aa" SlimPlayerState.STOPPED 7000 0)
        empty_provider).1).1.

Definition bb_disconnected : Provider :=
  (_handle_disconnected (mk_client "bb" SlimPlayerState.STOPPED 5000 0)
     both_connected).1.

(** The ids of the connected sessions. *)
Definition registered_ids (s : Provider) : gset string := dom (_socket_clients s).

(** [can_sync_with] of every connected player lists exactly the others. *)
Definition can_sync_with_ok (s : Provider) : Prop :=
  ∀ k, k ∈ registered_ids s →
    ∃ p, players s !! k = Some p ∧
         list_to_set (Player.can_sync_with p) = registered_ids s ∖ {[k]}.

(** The playpoint that a heartbeat adds to the follower's ring. *)
Definition new_playpoint (env : Env) (tm : Times) (job : StreamJob)
    (master client : SlimClient.t) : SyncPlayPoint :=
  {| timestamp := t_append tm; sync_job_id := job_id job;
     diff := _get_corrected_elapsed_milliseconds env master
             - _get_corrected_elapsed_milliseconds env client |}.

(** The follower's ring as the heartbeat finds it. *)
Definition ring_before (s : Provider) (client : SlimClient.t) : list SyncPlayPoint :=
  default [] (_sync_playpoints s !! SlimClient.player_id client).

(** The follower's ring once the heartbeat's playpoint is in. *)
Definition ring_after (env : Env) (tm : Times) (s : Provider) (job : StreamJob)
    (master client : SlimClient.t) : list SyncPlayPoint :=
  deque_append MIN_REQ_PLAYPOINTS (new_playpoint env tm job master client)
    (invalidate (t_age tm) (job_id job) (ring_before s client)).

(** A heartbeat leaves everything but the follower's ring as it was. *)
Definition no_correction (s s' : Provider) : Prop :=
  tasks s' = tasks s ∧ _do_not_resync_before s' = _do_not_resync_before s ∧
  sent s' = sent s.

Definition playpoint (t : Q) (job : string) (d : Z) : SyncPlayPoint :=
  {| timestamp := t; sync_job_id := job; diff := d |}.

Definition at_100 : Times :=
  {| t_backoff := 100; t_age := 100; t_append := 100; t_set := 100 |}.

Definition with_ring (ring : list SyncPlayPoint) (s : Provider) : Provider :=
  with_playpoints (λ _, {["bb" := ring]}) s.

(** The leader is at 1011 ms and the follower at 1000 ms, so the heartbeat
    measures a diff of 11; the ring holds three diffs of 10. *)
Definition group_drifting : Provider :=
  with_ring [playpoint 97 "j1" 10; playpoint 98 "j1" 10; playpoint 99 "j1" 10]
    group_playing.

(** The only playpoint in the ring is 50 seconds old. *)
Definition group_stale : Provider :=
  with_ring [playpoint 50 "j1" 10] group_playing.

(** The only playpoint in the ring belongs to an earlier job. *)
Definition group_restarted : Provider :=
  with_ring [playpoint 99 "j0" 10] group_playing.

Definition client_bb : SlimClient.t := mk_client "bb" SlimPlayerState.PLAYING 5000 1000.
Definition client_aa : SlimClient.t := mk_client "aa" SlimPlayerState.PLAYING 7000 1011.

(** ** Device commands *)

Definition cmd_power (player_id : string) (powered : bool) : M unit :=
  s ← get_self;
  match _socket_clients s !! player_id with
  | Some client =>
      send client (op_power powered) ;;
      call (cache_set (cache_key player_id) powered (SlimClient.volume_level client))
  | None => pass
  end.

Definition cmd_volume_set (player_id : string) (volume_level : Z) : M unit :=
  s ← get_self;
  match _socket_clients s !! player_id with
  | Some client =>
      send client (op_volume_set volume_level) ;;
      call (cache_set (cache_key player_id) (SlimClient.powered client) volume_level)
  | None => pass
  end.

Definition cmd_volume_mute (player_id : string) (muted : bool) : M unit :=
  s ← get_self;
  match _socket_clients s !! player_id with
  | Some client => send client (op_mute muted)
  | None => pass
  end.

(** ** Virtual providers *)

Definition with_virtual_providers
    (f : gmap string (Callback * Callback) → gmap string (Callback * Callback))
    (s : Provider) : Provider :=
  {| players := players s; _socket_clients := _socket_clients s;
     _sync_playpoints := _sync_playpoints s;
     _do_not_resync_before := _do_not_resync_before s;
     _virtual_providers := f (_virtual_providers s); closing := closing s;
     sent := sent s; calls := calls s; tasks := tasks s |}.

Definition register_virtual_provider (player_model : string)
    (register_callback update_callback : Callback) : M unit :=
  modify (with_virtual_providers
            (<[player_model := (register_callback, update_callback)]>)).

Definition unregister_virtual_provider (player_model : string) : M unit :=
  modify (with_virtual_providers (delete player_model)).

(** ** Shutdown *)

(** [unload], as far as the sessions go; the socket servers and the CLI
    are not part of the state. *)
Definition unload : M unit :=
  s ← get_self;
  for_each (map_to_list (_socket_clients s)).*2
    (λ client, send client op_disconnect) ;;
  modify (with_clients (λ _, ∅)).

(** ** Further event handlers *)

Definition _handle_output_underrun (env : Env) (client : SlimClient.t) : M unit :=
  player ← players_get (SlimClient.player_id client);
  match player with
  | None => raise AttributeError
  | Some player =>
      match Player.synced_to player with
      | Some leader =>
          if truthy (Some leader)
          then cmd_sync env (Player.player_id player) leader
          else cmd_stop (SlimClient.player_id client)
      | None => cmd_stop (SlimClient.player_id client)
      end
  end.

(** [_handle_decoder_ready].  [current_metadata] is the truth value of the
    client's [current_metadata], [active_source] the player's field of that
    name, and [next] what [queues.preload_next_url] returns for the client's
    player, [None] standing for [QueueEmpty]. *)
Definition _handle_decoder_ready (env : Env) (current_metadata : bool)
    (active_source : string) (next : option (string * QueueItem * bool))
    (client : SlimClient.t) : M unit :=
  if negb current_metadata then pass else
  player ← players_get (SlimClient.player_id client);
  match player with
  | None => raise AttributeError
  | Some player =>
      if truthy (Player.synced_to player) then pass
      else if SlimPlayerState.eqb (SlimClient.state client) SlimPlayerState.STOPPED
      then pass
      else if negb (String.eqb active_source (Player.player_id player)) then pass
      else
        match next with
        | None => pass
        | Some (next_url, next_item, crossfade) =>
            clients ← _get_sync_clients (SlimClient.player_id client);
            task_group clients (λ client,
              _handle_play_url env client next_url (Some next_item)
                false crossfade true)
        end
  end.

(** The fields [elapsed_time] and [elapsed_time_last_updated] of the
    players, kept beside the player table under the same keys. *)
Definition ElapsedTimes : Type := gmap string (Q * Q).

(** [_handle_player_heartbeat]; [elapsed_seconds] is the client's reading
    of that name and [now] the reading of [time.time()]. *)
Definition _handle_player_heartbeat (env : Env) (tm : Times) (now : Q)
    (elapsed_seconds : Q) (client : SlimClient.t)
    (st : Provider * ElapsedTimes) : (Provider * ElapsedTimes) * result unit :=
  if SlimPlayerState.eqb (SlimClient.state client) SlimPlayerState.STOPPED
  then (st, Ok tt)
  else
    match players st.1 !! SlimClient.player_id client with
    | None => (st, Raise AttributeError)
    | Some player =>
        let elapsed :=
          <[SlimClient.player_id client := (elapsed_seconds, now)]> st.2 in
        if truthy (Player.synced_to player) then
          let (s', r) := _handle_client_sync env tm client st.1 in
          ((s', elapsed), r)
        else ((st.1, elapsed), Ok tt)
    end.

(** ** Player configuration *)

Inductive ContentType := FLAC | PCM | MP3.

(** The loop of [get_player_config_entries] over the codec table, with its
    [break]. *)
Fixpoint first_supported (table : list (string * ContentType))
    (supported_codecs : list string) (default_codec : ContentType)
    : ContentType :=
  match table with
  | [] => default_codec
  | (fmt, fmt_type) :: rest =>
      if bool_decide (fmt ∈ supported_codecs) then fmt_type
      else first_supported rest supported_codecs default_codec
  end.

(** The default output codec; the argument is the [supported_codecs] of
    the player's session, [None] when the player has no session. *)
Definition default_codec (client_codecs : option (list string)) : ContentType :=
  match client_codecs with
  | Some supported_codecs =>
      first_supported [("flc", FLAC); ("pcm", PCM); ("mp3", MP3)]
        supported_codecs PCM
  | None => PCM
  end.

(** ** More predicates *)

(** The sessions a command for [player_id] is fanned out to. *)
Definition sync_clients (s : Provider) (player_id : string) (p : Player.t)
    : list SlimClient.t :=
  omap (λ k, _socket_clients s !! k)
    (elements ({[player_id]} ∪ Player.group_childs p)).

(** Everything but the log of sent operations is the same. *)
Definition same_but_sent (s s' : Provider) : Prop :=
  players s' = players s ∧ _socket_clients s' = _socket_clients s ∧
  _sync_playpoints s' = _sync_playpoints s ∧
  _do_not_resync_before s' = _do_not_resync_before s ∧
  _virtual_providers s' = _virtual_providers s ∧ closing s' = closing s ∧
  calls s' = calls s ∧ tasks s' = tasks s.

(** One pass of a fan-out that sends a session at most one operation. *)
Definition send_opt (c : SlimClient.t) (o : option SessionOp) : M unit :=
  match o with
  | Some op => send c op
  | None => pass
  end.

(** What [cmd_stop], [cmd_play] and [cmd_pause] send a session. *)
Definition stop_op (c : SlimClient.t) : option SessionOp :=
  if SlimPlayerState.eqb (SlimClient.state c) SlimPlayerState.STOPPED
  then None else Some op_stop.

Definition play_op (c : SlimClient.t) : option SessionOp :=
  match SlimClient.state c with
  | SlimPlayerState.PAUSED
  | SlimPlayerState.BUFFERING
  | SlimPlayerState.BUFFER_READY => Some op_play
  | _ => None
  end.

Definition pause_op (c : SlimClient.t) : option SessionOp :=
  match SlimClient.state c with
  | SlimPlayerState.PLAYING
  | SlimPlayerState.BUFFERING
  | SlimPlayerState.BUFFER_READY => Some op_pause
  | _ => None
  end.

(** The sync graph is well formed: a follower's leader is registered, has
    no leader itself and lists both itself and the follower; whoever is
    listed by a player, other than that player, follows it. *)
Definition sync_graph_ok (s : Provider) : Prop :=
  ∀ k p, players s !! k = Some p →
    Player.player_id p = k ∧
    (∀ l, Player.synced_to p = Some l →
       l ≠ k ∧ Player.group_childs p = ∅ ∧
       ∃ pl, players s !! l = Some pl ∧ Player.synced_to pl = None ∧
             k ∈ Player.group_childs pl ∧ l ∈ Player.group_childs pl) ∧
    (∀ c, c ∈ Player.group_childs p → c ≠ k →
       ∃ pc, players s !! c = Some pc ∧ Player.synced_to pc = Some k).

(** The rings at rest: at most 4 playpoints, and a full ring has a mean
    inside the band. *)
Definition ring_at_rest (ring : list SyncPlayPoint) : Prop :=
  (length ring ≤ 4)%nat ∧
  (length ring = 4%nat → (Qabs (fmean ring) < 10)%Q).

Definition rings_at_rest (s : Provider) : Prop :=
  ∀ k ring, _sync_playpoints s !! k = Some ring → ring_at_rest ring.

(** The session that a command for [player_id] reaches under the id [k]. *)
Definition member_session (s : Provider) (player_id : string) (p : Player.t)
    (k : string) : option SlimClient.t :=
  if bool_decide (k ∈ ({[player_id]} ∪ Player.group_childs p : gset string))
  then _socket_clients s !! k else None.

(** The operations of a fan-out that go to the session [o], if any. *)
Definition ops_for (f : SlimClient.t → option SessionOp)
    (o : option SlimClient.t) : list SessionOp :=
  from_option (λ c, option_list (f c)) [] o.

(** The [play_url] that the play commands send a session. *)
Definition play_url_op (url : string) (queue_item : option QueueItem)
    (autostart : bool) : SessionOp :=
  op_play_url url (mime_type_of url)
    ((λ qi, (queue_item_id qi, qi_name qi)) <$> queue_item)
    true false 0 autostart.

(** The cache as the recorded writes leave it. *)
Definition write_cache (cache : gmap string (bool * Z)) (e : ExtCall)
    : gmap string (bool * Z) :=
  match e with
  | cache_set key pw vol => <[key := (pw, vol)]> cache
  | _ => cache
  end.

Definition cache_after (writes : list ExtCall) (cache : gmap string (bool * Z))
    : gmap string (bool * Z) :=
  foldl write_cache cache writes.

Definition with_cache (cache : gmap string (bool * Z)) (env : Env) : Env :=
  {| get_active_queue := get_active_queue env;
     multi_client_jobs := multi_client_jobs env;
     sync_adjust := sync_adjust env;
     crossfade_duration := crossfade_duration env;
     cache := cache |}.

(** The player table of [s'] has the links of [s]: a player of [s] keeps
    its id, leader and followers, and a player that is new in [s'] has
    neither leader nor followers. *)
Definition same_links (s s' : Provider) : Prop :=
  ∀ k,
    match players s !! k with
    | Some p =>
        ∃ p', players s' !! k = Some p' ∧
              Player.player_id p' = Player.player_id p ∧
              Player.synced_to p' = Player.synced_to p ∧
              Player.group_childs p' = Player.group_childs p
    | None =>
        ∀ p', players s' !! k = Some p' →
              Player.player_id p' = k ∧ Player.synced_to p' = None ∧
              Player.group_childs p' = ∅
    end.

(** A callback of a virtual provider that leaves the player's id, leader
    and follower set alone. *)
Definition keeps_links (f : Callback) : Prop :=
  ∀ p, Player.player_id (f p) = Player.player_id p ∧
       Player.synced_to (f p) = Player.synced_to p ∧
       Player.group_childs (f p) = Player.group_childs p.

(** Every registered virtual provider has such callbacks; so it is when
    none is registered. *)
Definition callbacks_keep_links (s : Provider) : Prop :=
  ∀ model cbs, _virtual_providers s !! model = Some cbs →
    keeps_links cbs.1 ∧ keeps_links cbs.2.

(** A call that tells the player manager of a player. *)
Definition notification (e : ExtCall) : Prop :=
  match e with
  | players_update _ | players_register_or_update _ => True
  | _ => False
  end.

(** What the updates signalled by the sessions may change besides the
    sessions and the log of sent operations: players are refreshed, with
    their links kept, and the player manager is told. *)
Definition refreshed (s s' : Provider) : Prop :=
  same_links s s' ∧
  _sync_playpoints s' = _sync_playpoints s ∧
  _do_not_resync_before s' = _do_not_resync_before s ∧
  _virtual_providers s' = _virtual_providers s ∧ closing s' = closing s ∧
  tasks s' = tasks s ∧
  ∃ told, calls s' = calls s ++ told ∧ Forall notification told.

(** One transport method on the session [c]: [ops] are recorded for it, the
    session is left in [st], and its player is refreshed. *)
Definition session_step (c : SlimClient.t) (ops : list SessionOp)
    (st : SlimPlayerState.t) (s s' : Provider) : Prop :=
  refreshed s s' ∧
  sent s' = sent s ++ ((λ op, (SlimClient.player_id c, op)) <$> ops) ∧
  _socket_clients s'
    = alter (SlimClient.set_state st) (SlimClient.player_id c) (_socket_clients s) ∧
  (∀ k, k ≠ SlimClient.player_id c → players s' !! k = players s !! k) ∧
  (_virtual_providers s !! SlimClient.device_model c = None →
     Player.state <$> players s' !! SlimClient.player_id c = Some (STATE_MAP st)).

(** What a fan-out has done under the id [k]: to the session [c] found
    there, the operations [ops] that leave it in [st]; or nothing. *)
Definition outcome (s s' : Provider) (k : string)
    (o : option (SlimClient.t * list SessionOp * SlimPlayerState.t)) : Prop :=
  match o with
  | Some (c, ops, st) =>
      sent_to k s' = sent_to k s ++ ops ∧
      _socket_clients s' !! k = Some (SlimClient.set_state st c) ∧
      (_virtual_providers s !! SlimClient.device_model c = None →
         Player.state <$> players s' !! k = Some (STATE_MAP st))
  | None =>
      sent_to k s' = sent_to k s ∧
      _socket_clients s' !! k = _socket_clients s !! k ∧
      players s' !! k = players s !! k
  end.

(** What a transport command does with a session: the operations and the
    state it is left in, or nothing. *)
Definition Act : Type := SlimClient.t → option (list SessionOp * SlimPlayerState.t).

(** A command that hands a session the operation [f] chooses for it, if
    any, which leaves the session in [st]. *)
Definition act_of (f : SlimClient.t → option SessionOp)
    (st : SlimPlayerState.t) : Act :=
  λ c, (λ op, ([op], st)) <$> f c.

Definition stop_act : Act := act_of stop_op SlimPlayerState.STOPPED.
Definition play_act : Act := act_of play_op SlimPlayerState.PLAYING.
Definition pause_act : Act := act_of pause_op SlimPlayerState.PAUSED.

(** The session reached under [k] by a fan-out over the group of
    [player_id], with what the command does with it. *)
Definition reached (act : Act) (s : Provider) (player_id : string) (p : Player.t)
    (k : string) : option (SlimClient.t * list SessionOp * SlimPlayerState.t) :=
  c ← member_session s player_id p k;
  a ← act c;
  Some (c, a.1, a.2).

(** ** More scenarios *)

(** The follower [bb] needs two sleeps of the polling loop to buffer. *)
Definition ready_at_pass_2 (pass : nat) : Provider :=
  if (pass <? 2)%nat then group_buffering else group_buffered.

Definition client_bb_paused : SlimClient.t :=
  mk_client "bb" SlimPlayerState.PAUSED 5000 1000.

Definition item_z : QueueItem := {| queue_item_id := "q2"; qi_name := "z" |}.

Definition leader_aa : Player.t :=
  mk_player "aa" PlayerState.PLAYING None {["aa"; "bb"]}.

Definition follower_bb : Player.t :=
  mk_player "bb" PlayerState.PLAYING (Some "aa") ∅.

Definition idle_aa : Player.t := mk_player "aa" PlayerState.IDLE None ∅.
Definition idle_bb : Player.t := mk_player "bb" PlayerState.IDLE None ∅.

(** * Properties *)

(** ** Running computations *)

Ltac munfold :=
  unfold mbind, M_bind, mret, M_ret, raise, get_self, modify, pass, send,
    call, create_task, players_get, update_player, set_ring, set_backoff,
    register_or_update, _process_stat_stmu in *.

Lemma bind_ok {A B} (m : M A) (f : A → M B) s s' a :
  m s = (s', Ok a) → (m ≫= f) s = f a s'.
Proof. intros H. unfold mbind, M_bind. by rewrite H. Qed.

Lemma bind_raise {A B} (m : M A) (f : A → M B) s s' e :
  m s = (s', Raise e) → (m ≫= f) s = (s', Raise e).
Proof. intros H. unfold mbind, M_bind. by rewrite H. Qed.

(** A loop whose body keeps an invariant and never raises. *)
Lemma for_each_inv {A} (P : Provider → Prop) (xs : list A) (body : A → M unit) :
  (∀ x s, P s → P (body x s).1 ∧ (body x s).2 = Ok tt) →
  ∀ s, P s → P (for_each xs body s).1 ∧ (for_each xs body s).2 = Ok tt.
Proof.
  intros Hbody. induction xs as [|x xs IH]; intros s Hs; [done|].
  cbn [for_each]. destruct (Hbody x s Hs) as [HP Hok].
  destruct (body x s) as [s1 r] eqn:Hb; cbn in *; subst r.
  rewrite (bind_ok _ _ _ _ _ Hb). by apply IH.
Qed.

(** ** Helpers *)

Lemma sent_to_snoc (k k' : string) (op : SessionOp) (s : Provider) :
  sent_to k (with_sent (λ l, l ++ [(k', op)]) s)
    = if decide (k' = k) then sent_to k s ++ [op] else sent_to k s.
Proof.
  unfold sent_to. cbn. rewrite filter_app, fmap_app.
  destruct (decide (k' = k)) as [->|Hne].
  - by rewrite filter_cons_True.
  - rewrite filter_cons_False by done. by rewrite app_nil_r.
Qed.

(** The ids of the sync clients are pairwise distinct. *)
Lemma sync_clients_nodup (m : gmap string SlimClient.t) (ids : list string) :
  (∀ k c, m !! k = Some c → SlimClient.player_id c = k) →
  NoDup ids →
  NoDup (SlimClient.player_id <$> omap (λ k, m !! k) ids).
Proof.
  intros Hkeyed. induction 1 as [|k ids Hk Hnd IH]; [constructor|].
  cbn. destruct (m !! k) as [c|] eqn:Hc; [|done].
  cbn. constructor; [|done].
  intros (c' & Hid & (k' & Hk' & Hc')%list_elem_of_omap)%list_elem_of_fmap.
  rewrite (Hkeyed _ _ Hc), (Hkeyed _ _ Hc') in Hid. by subst.
Qed.

Lemma for_each_ext {A} (xs : list A) (f g : A → M unit) s :
  (∀ x s, f x s = g x s) → for_each xs f s = for_each xs g s.
Proof.
  intros Hfg. revert s. induction xs as [|x xs IH]; intros s; [done|].
  cbn. unfold mbind, M_bind. rewrite Hfg.
  destruct (g x s) as [s1 [[]|e]]; [apply IH | done].
Qed.

Lemma sync_clients_elem (s : Provider) (player_id : string) (p : Player.t)
    (c : SlimClient.t) :
  c ∈ sync_clients s player_id p ↔
  ∃ k, member_session s player_id p k = Some c.
Proof.
  unfold sync_clients, member_session. rewrite list_elem_of_omap. split.
  - intros (k & Hk%elem_of_elements & Hc). exists k. by rewrite bool_decide_true.
  - intros (k & Hc). case_bool_decide; [|done]. exists k.
    by rewrite elem_of_elements.
Qed.

Lemma member_session_keyed (s : Provider) (player_id : string) (p : Player.t)
    (k : string) (c : SlimClient.t) :
  clients_keyed s → member_session s player_id p k = Some c →
  SlimClient.player_id c = k.
Proof. unfold member_session. intros Hkeyed. case_bool_decide; [apply Hkeyed|done]. Qed.

Lemma get_sync_clients_run (s : Provider) (player_id : string) (p : Player.t) :
  players s !! player_id = Some p →
  _get_sync_clients player_id s = (s, Ok (sync_clients s player_id p)).
Proof. intros Hp. unfold _get_sync_clients. munfold. by rewrite Hp. Qed.

Lemma set_state_same (c : SlimClient.t) (st : SlimPlayerState.t) :
  SlimClient.state c = st → SlimClient.set_state st c = c.
Proof. destruct c. cbn. by intros ->. Qed.

Lemma for_each_pass {A} (xs : list A) (body : A → M unit) s :
  (∀ x, x ∈ xs → ∀ s, body x s = (s, Ok tt)) → for_each xs body s = (s, Ok tt).
Proof.
  induction xs as [|x xs IH]; intros Hbody; [done|].
  cbn. rewrite (bind_ok _ _ _ _ _ (Hbody x (list_elem_of_here _ _) s)).
  apply IH. intros y Hy. apply Hbody. by apply list_elem_of_further.
Qed.

Lemma same_links_refl s : same_links s s.
Proof.
  intros k. destruct (players s !! k) as [p|] eqn:Hp; [by exists p|done].
Qed.

Lemma same_links_trans s1 s2 s3 :
  same_links s1 s2 → same_links s2 s3 → same_links s1 s3.
Proof.
  intros H12 H23 k. specialize (H12 k). specialize (H23 k).
  destruct (players s1 !! k) as [p1|].
  - destruct H12 as (p2 & Hp2 & ? & ? & ?). rewrite Hp2 in H23.
    destruct H23 as (p3 & Hp3 & ? & ? & ?). exists p3. repeat split; congruence.
  - destruct (players s2 !! k) as [p2|] eqn:Hp2.
    + destruct (H12 p2 eq_refl) as (? & ? & ?).
      destruct H23 as (p3 & Hp3 & ? & ? & ?). intros p' Hp'.
      rewrite Hp3 in Hp'. injection Hp' as <-. repeat split; congruence.
    + done.
Qed.

(** A well-formed sync graph stays well formed when the links stay. *)
Lemma same_links_graph s s' :
  same_links s s' → sync_graph_ok s → sync_graph_ok s'.
Proof.
  intros Hlinks Hinv k p' Hk.
  assert (Hold : ∀ c pc, players s !! c = Some pc →
            ∃ pc', players s' !! c = Some pc' ∧
                   Player.synced_to pc' = Player.synced_to pc ∧
                   Player.group_childs pc' = Player.group_childs pc).
  { intros c pc Hc. specialize (Hlinks c). rewrite Hc in Hlinks.
    destruct Hlinks as (pc' & ? & ? & ? & ?). eauto. }
  pose proof (Hlinks k) as Hl. destruct (players s !! k) as [p|] eqn:Hp.
  - destruct Hl as (p0 & Hp0 & Hid & Hsy & Hgc). rewrite Hp0 in Hk.
    injection Hk as <-. destruct (Hinv k p Hp) as (Hidp & Hfol & Hlead).
    split; [congruence|]. split.
    + intros l Hl. rewrite Hsy in Hl.
      destruct (Hfol l Hl) as (? & ? & pl & Hpl & Hspl & Hkin & Hlin).
      split; [done|]. split; [congruence|].
      destruct (Hold l pl Hpl) as (pl' & ? & Hs' & Hg').
      exists pl'. rewrite Hs', Hg'. done.
    + intros c Hc Hck. rewrite Hgc in Hc.
      destruct (Hlead c Hc Hck) as (pc & Hpc & Hspc).
      destruct (Hold c pc Hpc) as (pc' & ? & Hs' & _).
      exists pc'. by rewrite Hs'.
  - destruct (Hl p' Hk) as (Hid & Hsy & Hgc). split; [done|]. split.
    + intros l Hl'. congruence.
    + intros c Hc. rewrite Hgc in Hc. set_solver.
Qed.

(** The scenarios store every session under its own id. *)
Lemma provider_of_keyed (ps : list Player.t) (cs : list SlimClient.t) :
  clients_keyed (provider_of ps cs).
Proof.
  intros k c Hc. cbn in Hc. apply elem_of_list_to_map_2 in Hc.
  apply list_elem_of_fmap in Hc as (c' & [= -> ->] & _). done.
Qed.

(** Without a virtual provider there is no callback to speak of. *)
Lemma no_callbacks (s : Provider) :
  _virtual_providers s = ∅ → callbacks_keep_links s.
Proof. intros Hv model cbs Hm. by rewrite Hv, lookup_empty in Hm. Qed.

(** ** Task groups *)

(** A task group none of whose tasks raises is the loop over its tasks. *)
Lemma task_group_ok {A} (xs : list A) (body : A → M unit) s s' :
  for_each xs body s = (s', Ok tt) → task_group xs body s = (s', Ok tt).
Proof.
  unfold task_group.
  enough (H : for_each xs body s = (s', Ok tt) → run_tasks xs body s = (s', []))
    by (intros Hrun; by rewrite (H Hrun)).
  revert s. induction xs as [|x xs IH]; intros s; cbn.
  - by intros [= <-].
  - unfold mbind, M_bind. destruct (body x s) as [s1 [[]|e]]; [|done].
    intros Hrest. by rewrite (IH _ Hrest).
Qed.

(** A task group raises as soon as one of its tasks does. *)
Lemma task_group_raises {A} (xs : list A) (body : A → M unit) s :
  (∃ x, x ∈ xs ∧ ∀ s1, (body x s1).2 ≠ Ok tt) →
  ∃ errors, (task_group xs body s).2 = Raise (ExceptionGroup errors).
Proof.
  intros (x & Hx & Hraise). unfold task_group.
  enough (H : (run_tasks xs body s).2 ≠ []).
  { destruct (run_tasks xs body s) as [s' [|e errors]]; [done|]. by eexists. }
  revert s. induction xs as [|y xs IH]; intros s; [by apply elem_of_nil in Hx|].
  cbn. destruct (body y s) as [s1 r] eqn:Hy.
  destruct (run_tasks xs body s1) as [s2 errors] eqn:Hrest. cbn.
  apply elem_of_cons in Hx as [->|Hx].
  - specialize (Hraise s). rewrite Hy in Hraise. cbn in Hraise.
    by destruct r as [[]|e].
  - specialize (IH Hx s1). rewrite Hrest in IH. cbn in IH. by destruct r.
Qed.

Lemma for_each_ext_in {A} (xs : list A) (f g : A → M unit) s :
  (∀ x s, x ∈ xs → f x s = g x s) → for_each xs f s = for_each xs g s.
Proof.
  revert s. induction xs as [|x xs IH]; intros s Hfg; [done|].
  cbn. unfold mbind, M_bind. rewrite Hfg by apply list_elem_of_here.
  destruct (g x s) as [s1 [[]|e]]; [|done].
  apply IH. intros y s2 Hy. apply Hfg. by apply list_elem_of_further.
Qed.

(** ** Loops that only send *)

Lemma same_but_sent_refl s : same_but_sent s s.
Proof. by repeat split. Qed.

Lemma same_but_sent_trans s1 s2 s3 :
  same_but_sent s1 s2 → same_but_sent s2 s3 → same_but_sent s1 s3.
Proof.
  intros (?&?&?&?&?&?&?&?) (?&?&?&?&?&?&?&?). repeat split; congruence.
Qed.

(** A loop that sends each of a list of sessions with distinct ids at most
    one operation. *)
Lemma send_loop (f : SlimClient.t → option SessionOp) (cs : list SlimClient.t) :
  NoDup (SlimClient.player_id <$> cs) →
  ∀ s, ∃ s',
    for_each cs (λ c, send_opt c (f c)) s = (s', Ok tt) ∧
    same_but_sent s s' ∧
    (∀ c, c ∈ cs →
       sent_to (SlimClient.player_id c) s'
         = sent_to (SlimClient.player_id c) s ++ option_list (f c)) ∧
    (∀ k, k ∉ SlimClient.player_id <$> cs → sent_to k s' = sent_to k s).
Proof.
  induction cs as [|c0 cs IH]; intros Hnd s.
  { exists s. split; [done|]. split; [apply same_but_sent_refl|].
    split; [|done]. intros c Hc. by apply elem_of_nil in Hc. }
  apply NoDup_cons in Hnd as [Hc0 Hnd]. cbn [for_each fmap list_fmap].
  assert (Hstep : ∃ s1, send_opt c0 (f c0) s = (s1, Ok tt) ∧
            same_but_sent s s1 ∧
            (∀ k, sent_to k s1 = sent_to k s ++
               if decide (SlimClient.player_id c0 = k) then option_list (f c0) else [])).
  { destruct (f c0) as [op|]; cbn.
    - eexists. split; [reflexivity|]. split; [by repeat split|].
      intros k. rewrite sent_to_snoc. case_decide; [done|by rewrite app_nil_r].
    - exists s. split; [done|]. split; [apply same_but_sent_refl|].
      intros k. case_decide; by rewrite app_nil_r. }
  destruct Hstep as (s1 & Hstep & Hsame1 & Hsent1).
  destruct (IH Hnd s1) as (s' & Hrun & Hsame & Hin & Hout).
  exists s'. rewrite (bind_ok _ _ _ _ _ Hstep). split; [done|].
  split; [by eapply same_but_sent_trans|]. split.
  - intros c [->|Hc]%elem_of_cons.
    + rewrite (Hout _ Hc0), Hsent1. by rewrite decide_True.
    + rewrite (Hin _ Hc), Hsent1. rewrite decide_False; [by rewrite app_nil_r|].
      intros Heq. apply Hc0. rewrite Heq. by apply list_elem_of_fmap_2.
  - intros k [Hne Hk]%not_elem_of_cons.
    rewrite (Hout _ Hk), Hsent1. rewrite decide_False by done. by rewrite app_nil_r.
Qed.

(** ** The update signalled by a session *)

Lemma refreshed_refl s : refreshed s s.
Proof.
  split; [apply same_links_refl|]. repeat split.
  exists []. by rewrite app_nil_r.
Qed.

Lemma refreshed_trans s1 s2 s3 :
  refreshed s1 s2 → refreshed s2 s3 → refreshed s1 s3.
Proof.
  intros (Hl1 & ? & ? & ? & ? & ? & t1 & Hc1 & Ht1)
         (Hl2 & ? & ? & ? & ? & ? & t2 & Hc2 & Ht2).
  split; [by eapply same_links_trans|]. repeat split; try congruence.
  exists (t1 ++ t2). rewrite Hc2, Hc1, app_assoc. split; [done|].
  by apply Forall_app.
Qed.

Lemma refreshed_callbacks s s' :
  refreshed s s' → callbacks_keep_links s → callbacks_keep_links s'.
Proof. intros (_ & _ & _ & Hv & _) Hcb model cbs. rewrite Hv. apply Hcb. Qed.

(** [_handle_player_update] refreshes the player of the session and tells
    the player manager; it touches no other player, no session and not the
    log of sent operations. *)
Lemma handle_player_update_refresh (client : SlimClient.t) (s : Provider) :
  callbacks_keep_links s →
  ∃ s',
    _handle_player_update client s = (s', Ok tt) ∧
    refreshed s s' ∧ sent s' = sent s ∧
    _socket_clients s' = _socket_clients s ∧
    (∀ k, k ≠ SlimClient.player_id client → players s' !! k = players s !! k) ∧
    (_virtual_providers s !! SlimClient.device_model client = None →
       Player.state <$> players s' !! SlimClient.player_id client
         = Some (STATE_MAP (SlimClient.state client))).
Proof.
  intros Hcb. unfold _handle_player_update. munfold.
  set (pid := SlimClient.player_id client).
  destruct (_virtual_providers s !! SlimClient.device_model client)
    as [cbs|] eqn:Hv.
  - destruct (Hcb _ _ Hv) as [Hreg Hupd].
    destruct (players s !! pid) as [p|] eqn:Hp; cbn.
    + eexists. split; [reflexivity|]. cbn.
      split; [|split; [done|split; [done|split; [|done]]]].
      * split; [|repeat split; exists [players_update pid]; by repeat constructor].
        intros k. cbn. destruct (decide (k = pid)) as [->|Hne].
        -- rewrite Hp, !lookup_alter_eq, Hp. cbn. eexists. split; [done|].
           exact (Hupd (refresh_player client
                          (other_player_ids pid (_socket_clients s)) p)).
        -- rewrite !lookup_alter_ne by done. apply same_links_refl.
      * intros k Hk. by rewrite !lookup_alter_ne.
    + set (p0 := Player.create pid (SlimClient.name client)
                   (SlimClient.powered client)).
      destruct (Hreg p0) as (Hid & Hsy & Hgc).
      change (Player.player_id p0) with pid in Hid.
      change (Player.synced_to p0) with (@None string) in Hsy.
      change (Player.group_childs p0) with (∅ : gset string) in Hgc.
      unfold Callback in *. rewrite Hid. munfold.
      eexists. split; [reflexivity|]. cbn.
      split; [|split; [done|split; [done|split; [|done]]]].
      * split; [|repeat split;
                 exists [players_register_or_update pid; players_update pid];
                 cbn; rewrite <- app_assoc; by repeat constructor].
        intros k. cbn. destruct (decide (k = pid)) as [->|Hne].
        -- rewrite Hp, !lookup_alter_eq, lookup_insert_eq. cbn.
           intros p' [= <-].
           match goal with
           | |- context [cbs.2 ?q] => destruct (Hupd q) as (Hid2 & Hsy2 & Hgc2)
           end.
           cbn in Hid2, Hsy2, Hgc2. by rewrite Hid2, Hsy2, Hgc2, Hid, Hsy, Hgc.
        -- rewrite !lookup_alter_ne, lookup_insert_ne by done.
           apply same_links_refl.
      * intros k Hk. by rewrite !lookup_alter_ne, lookup_insert_ne.
  - destruct (players s !! pid) as [p|] eqn:Hp; cbn.
    + eexists. split; [reflexivity|]. cbn.
      split; [|split; [done|split; [done|split]]].
      * split; [|repeat split; exists [players_update pid]; by repeat constructor].
        intros k. cbn. destruct (decide (k = pid)) as [->|Hne].
        -- rewrite Hp, lookup_alter_eq, Hp. cbn. by eexists.
        -- rewrite lookup_alter_ne by done. apply same_links_refl.
      * intros k Hk. by rewrite lookup_alter_ne.
      * intros _. by rewrite lookup_alter_eq, Hp.
    + eexists. split; [reflexivity|]. cbn.
      split; [|split; [done|split; [done|split]]].
      * split; [|repeat split;
                 exists [players_register_or_update pid; players_update pid];
                 cbn; rewrite <- app_assoc; by repeat constructor].
        intros k. cbn. destruct (decide (k = pid)) as [->|Hne].
        -- rewrite Hp, lookup_alter_eq, lookup_insert_eq. cbn. by intros p' [= <-].
        -- rewrite lookup_alter_ne, lookup_insert_ne by done.
           apply same_links_refl.
      * intros k Hk. by rewrite lookup_alter_ne, lookup_insert_ne.
      * intros _. by rewrite lookup_alter_eq, lookup_insert_eq.
Qed.

Lemma handle_player_update_log (client : SlimClient.t) (s : Provider) :
  ∃ s',
    _handle_player_update client s = (s', Ok tt) ∧
    sent s' = sent s ∧ _socket_clients s' = _socket_clients s ∧
    calls s' = calls s
      ++ (if players s !! SlimClient.player_id client then []
          else [players_register_or_update
                  (Player.player_id
                     (from_option (λ cbs : Callback * Callback, cbs.1) id
                        (_virtual_providers s !! SlimClient.device_model client)
                        (Player.create (SlimClient.player_id client)
                           (SlimClient.name client) (SlimClient.powered client))))])
      ++ [players_update (SlimClient.player_id client)].
Proof.
  unfold _handle_player_update. munfold.
  destruct (players s !! SlimClient.player_id client) as [p|];
    destruct (_virtual_providers s !! SlimClient.device_model client) as [cbs|];
    cbn; eexists; (split; [reflexivity|]); cbn; by rewrite <- ?app_assoc.
Qed.

(** ** The transport methods of a session *)

Lemma bind_modify {B} (f : Provider → Provider) (k : unit → M B) s :
  (modify f ≫= k) s = k tt (f s).
Proof. reflexivity. Qed.

Lemma signal_state_step (c : SlimClient.t) (st : SlimPlayerState.t) (s : Provider) :
  callbacks_keep_links s →
  ∃ s', signal_state c st s = (s', Ok tt) ∧ session_step c [] st s s'.
Proof.
  intros Hcb. unfold signal_state, client_callback.
  rewrite bind_modify.
  set (s0 := with_clients
               (alter (SlimClient.set_state st) (SlimClient.player_id c)) s).
  destruct (handle_player_update_refresh (SlimClient.set_state st c) s0 Hcb)
    as (s' & Hrun & Href & Hsent & Hcl & Hrest & Hstate).
  exists s'. split; [done|]. split; [exact Href|].
  split; [by rewrite Hsent, app_nil_r|]. by repeat split.
Qed.

Lemma session_step_send (c : SlimClient.t) (op : SessionOp) (ops : list SessionOp)
    (st : SlimPlayerState.t) (s s' : Provider) :
  session_step c ops st
    (with_sent (λ l, l ++ [(SlimClient.player_id c, op)]) s) s' →
  session_step c (op :: ops) st s s'.
Proof.
  intros (Href & Hsent & Hrest). split; [exact Href|].
  split; [|exact Hrest]. rewrite Hsent. cbn. by rewrite <- app_assoc.
Qed.

Lemma set_state_twice (st1 st2 : SlimPlayerState.t) (k : string)
    (m : gmap string SlimClient.t) :
  alter (SlimClient.set_state st2) k (alter (SlimClient.set_state st1) k m)
    = alter (SlimClient.set_state st2) k m.
Proof.
  apply map_eq. intros j. destruct (decide (j = k)) as [->|Hne].
  - rewrite !lookup_alter_eq. by destruct (m !! k).
  - by rewrite !lookup_alter_ne.
Qed.

Lemma session_step_then (c : SlimClient.t) (ops1 ops2 : list SessionOp)
    (st1 st2 : SlimPlayerState.t) (s s1 s2 : Provider) :
  session_step c ops1 st1 s s1 → session_step c ops2 st2 s1 s2 →
  session_step c (ops1 ++ ops2) st2 s s2.
Proof.
  intros (Href1 & Hsent1 & Hcl1 & Hrest1 & _) (Href2 & Hsent2 & Hcl2 & Hrest2 & Hst2).
  split; [by eapply refreshed_trans|].
  split; [by rewrite Hsent2, Hsent1, fmap_app, app_assoc|].
  split; [by rewrite Hcl2, Hcl1, set_state_twice|].
  split; [intros k Hk; by rewrite Hrest2, Hrest1|].
  intros Hv. apply Hst2. destruct Href1 as (_ & _ & _ & -> & _). exact Hv.
Qed.

Lemma stop_step (c : SlimClient.t) (s : Provider) :
  callbacks_keep_links s →
  ∃ s', (client_stop c ;; _process_stat_stmu c) s = (s', Ok tt) ∧
        session_step c [op_stop] SlimPlayerState.STOPPED s s'.
Proof.
  intros Hcb. unfold client_stop, _process_stat_stmu.
  set (s0 := with_sent (λ l, l ++ [(SlimClient.player_id c, op_stop)]) s).
  destruct (signal_state_step c SlimPlayerState.STOPPED s0 Hcb) as (s1 & Hrun1 & Hstep1).
  destruct (signal_state_step c SlimPlayerState.STOPPED s1) as (s2 & Hrun2 & Hstep2).
  { eapply refreshed_callbacks; [apply Hstep1|exact Hcb]. }
  exists s2. split.
  - unfold send.
    rewrite (bind_ok (modify _ ;; signal_state c SlimPlayerState.STOPPED) _ s s1 tt);
      [done|].
    by rewrite bind_modify.
  - apply session_step_send.
    apply (session_step_then c [] [] _ _ _ _ _ Hstep1 Hstep2).
Qed.

Lemma method_step (c : SlimClient.t) (op : SessionOp) (st : SlimPlayerState.t)
    (s : Provider) :
  callbacks_keep_links s →
  ∃ s', (send c op ;; signal_state c st) s = (s', Ok tt) ∧
        session_step c [op] st s s'.
Proof.
  intros Hcb.
  set (s0 := with_sent (λ l, l ++ [(SlimClient.player_id c, op)]) s).
  destruct (signal_state_step c st s0 Hcb) as (s1 & Hrun1 & Hstep1).
  exists s1. split; [|by apply session_step_send].
  unfold send. by rewrite bind_modify.
Qed.

Lemma play_url_step (env : Env) (c : SlimClient.t) (url : string)
    (queue_item : option QueueItem) (send_flush crossfade auto_play : bool)
    (s : Provider) :
  String.prefix "http" url = true →
  callbacks_keep_links s →
  ∃ s', _handle_play_url env c url queue_item send_flush crossfade auto_play s
          = (s', Ok tt) ∧
        session_step c
          [op_play_url url (mime_type_of url)
             ((λ qi, (queue_item_id qi, qi_name qi)) <$> queue_item)
             send_flush crossfade
             (if crossfade then crossfade_duration env (SlimClient.player_id c) else 0)
             auto_play]
          SlimPlayerState.BUFFERING s s'.
Proof.
  intros Hurl Hcb. unfold _handle_play_url, client_play_url. rewrite Hurl.
  apply method_step, Hcb.
Qed.

Lemma play_url_refused (env : Env) (c : SlimClient.t) (url : string)
    (queue_item : option QueueItem) (send_flush crossfade auto_play : bool)
    (s : Provider) :
  String.prefix "http" url = false →
  _handle_play_url env c url queue_item send_flush crossfade auto_play s
    = (s, Raise (InvalidUrl url)).
Proof. intros Hurl. unfold _handle_play_url, client_play_url. by rewrite Hurl. Qed.

(** ** Fan-out over sessions *)

Lemma sent_to_app (k : string) (s s' : Provider) (l : list (string * SessionOp)) :
  sent s' = sent s ++ l → sent_to k s' = sent_to k s ++ (filter (λ e, e.1 = k) l).*2.
Proof. intros Hs. unfold sent_to. by rewrite Hs, filter_app, fmap_app. Qed.

Lemma sent_ops_same (k : string) (ops : list SessionOp) :
  (filter (λ e : string * SessionOp, e.1 = k) ((λ op, (k, op)) <$> ops)).*2 = ops.
Proof.
  induction ops as [|op ops IH]; [done|].
  rewrite fmap_cons, filter_cons_True by done. rewrite fmap_cons. cbn. by rewrite IH.
Qed.

Lemma sent_ops_other (k k' : string) (ops : list SessionOp) :
  k ≠ k' →
  filter (λ e : string * SessionOp, e.1 = k) ((λ op, (k', op)) <$> ops) = [].
Proof.
  intros Hne. induction ops as [|op ops IH]; [done|].
  rewrite fmap_cons, filter_cons_False; [done|]. cbn. congruence.
Qed.

Lemma outcome_refl (s : Provider) (k : string) : outcome s s k None.
Proof. by repeat split. Qed.

Lemma outcome_after_none (s s1 s' : Provider) (k : string)
    (o : option (SlimClient.t * list SessionOp * SlimPlayerState.t)) :
  outcome s s1 k None → _virtual_providers s1 = _virtual_providers s →
  outcome s1 s' k o → outcome s s' k o.
Proof.
  intros (Hs & Hc & Hp) Hv. destruct o as [[[c ops] st]|]; cbn.
  - intros (-> & -> & Hst). rewrite Hs, <- Hv. done.
  - intros (-> & -> & ->). done.
Qed.

Lemma outcome_then_none (s s1 s' : Provider) (k : string)
    (o : option (SlimClient.t * list SessionOp * SlimPlayerState.t)) :
  outcome s s1 k o → outcome s1 s' k None → outcome s s' k o.
Proof.
  intros Ho (Hs & Hc & Hp). destruct o as [[[c ops] st]|]; cbn in *.
  - destruct Ho as (Hs1 & Hc1 & Hp1). rewrite Hs, Hc, Hp. done.
  - destruct Ho as (Hs1 & Hc1 & Hp1). rewrite Hs, Hc, Hp. done.
Qed.

Lemma session_step_self (c : SlimClient.t) (ops : list SessionOp)
    (st : SlimPlayerState.t) (s s' : Provider) :
  _socket_clients s !! SlimClient.player_id c = Some c →
  session_step c ops st s s' →
  outcome s s' (SlimClient.player_id c) (Some (c, ops, st)).
Proof.
  intros Hc (_ & Hsent & Hcl & _ & Hst). cbn. split; [|split; [|done]].
  - by rewrite (sent_to_app _ _ _ _ Hsent), sent_ops_same.
  - by rewrite Hcl, lookup_alter_eq, Hc.
Qed.

Lemma session_step_other (c : SlimClient.t) (ops : list SessionOp)
    (st : SlimPlayerState.t) (s s' : Provider) (k : string) :
  k ≠ SlimClient.player_id c →
  session_step c ops st s s' → outcome s s' k None.
Proof.
  intros Hk (_ & Hsent & Hcl & Hrest & _). cbn. split; [|split].
  - by rewrite (sent_to_app _ _ _ _ Hsent), sent_ops_other, app_nil_r.
  - by rewrite Hcl, lookup_alter_ne.
  - by apply Hrest.
Qed.

(** A loop over sessions with distinct ids, each registered under its id,
    whose body hands the session [c] what [act c] says. *)
Lemma session_loop (act : Act) (body : SlimClient.t → M unit)
    (cs : list SlimClient.t) :
  (∀ c s, c ∈ cs → callbacks_keep_links s →
     ∃ s', body c s = (s', Ok tt) ∧
       match act c with
       | Some (ops, st) => session_step c ops st s s'
       | None => s' = s
       end) →
  NoDup (SlimClient.player_id <$> cs) →
  ∀ s, callbacks_keep_links s →
    (∀ c, c ∈ cs → _socket_clients s !! SlimClient.player_id c = Some c) →
    ∃ s', for_each cs body s = (s', Ok tt) ∧ refreshed s s' ∧
      (∀ c, c ∈ cs →
         outcome s s' (SlimClient.player_id c) ((λ a, (c, a.1, a.2)) <$> act c)) ∧
      (∀ k, k ∉ SlimClient.player_id <$> cs → outcome s s' k None).
Proof.
  induction cs as [|c0 cs IH]; intros Hbody Hnd s Hcb Hstored.
  { exists s. split; [done|]. split; [apply refreshed_refl|].
    split; [intros c Hc; by apply elem_of_nil in Hc|]. intros k _. apply outcome_refl. }
  apply NoDup_cons in Hnd as [Hc0 Hnd]. cbn [for_each].
  destruct (Hbody c0 s (list_elem_of_here _ _) Hcb) as (s1 & Hstep & Hact).
  assert (H1 : refreshed s s1 ∧
            outcome s s1 (SlimClient.player_id c0) ((λ a, (c0, a.1, a.2)) <$> act c0) ∧
            ∀ k, k ≠ SlimClient.player_id c0 → outcome s s1 k None).
  { destruct (act c0) as [[ops st]|]; cbn.
    - split; [apply Hact|]. split.
      + apply session_step_self; [|done]. apply Hstored, list_elem_of_here.
      + intros k Hk. by eapply session_step_other.
    - subst s1. split; [apply refreshed_refl|].
      split; [apply outcome_refl|]. intros k _. apply outcome_refl. }
  destruct H1 as (Href1 & Hself1 & Hother1).
  assert (Hv1 : _virtual_providers s1 = _virtual_providers s).
  { by destruct Href1 as (_ & _ & _ & ? & _). }
  assert (Hne : ∀ c, c ∈ cs → SlimClient.player_id c ≠ SlimClient.player_id c0).
  { intros c Hc Heq. apply Hc0. rewrite <- Heq. by apply list_elem_of_fmap_2. }
  destruct (IH (λ c s Hc, Hbody c s (list_elem_of_further _ _ _ Hc)) Hnd s1)
    as (s' & Hrun & Href & Hin & Hout).
  { by eapply refreshed_callbacks. }
  { intros c Hc. destruct (Hother1 _ (Hne c Hc)) as (_ & -> & _).
    by apply Hstored, list_elem_of_further. }
  exists s'. rewrite (bind_ok _ _ _ _ _ Hstep). split; [done|].
  split; [by eapply refreshed_trans|]. split.
  - intros c [->|Hc]%elem_of_cons.
    + eapply outcome_then_none; [exact Hself1|]. by apply Hout.
    + eapply outcome_after_none; [apply Hother1, Hne, Hc|done|]. by apply Hin.
  - intros k [Hk0 Hk]%not_elem_of_cons.
    eapply outcome_after_none; [by apply Hother1|done|]. by apply Hout.
Qed.

Lemma for_each_filter {A} (P : A → Prop) `{∀ x, Decision (P x)} (xs : list A)
    (body : A → M unit) s :
  for_each (filter P xs) body s
    = for_each xs (λ x, if decide (P x) then body x else pass) s.
Proof.
  revert s. induction xs as [|x xs IH]; intros s; [done|].
  rewrite filter_cons. cbn [for_each]. destruct (decide (P x)).
  - cbn [for_each]. unfold mbind, M_bind.
    destruct (body x s) as [s1 [[]|e]]; [apply IH|done].
  - rewrite IH. by rewrite (bind_ok pass _ s s tt eq_refl).
Qed.

(** A fan-out over the sessions of a player's group. *)
Lemma group_fan_out (act : Act) (body : SlimClient.t → M unit) (s : Provider)
    (player_id : string) (p : Player.t) :
  clients_keyed s → callbacks_keep_links s →
  (∀ c s1, c ∈ sync_clients s player_id p → callbacks_keep_links s1 →
     ∃ s', body c s1 = (s', Ok tt) ∧
       match act c with
       | Some (ops, st) => session_step c ops st s1 s'
       | None => s' = s1
       end) →
  ∃ s',
    for_each (sync_clients s player_id p) body s = (s', Ok tt) ∧
    refreshed s s' ∧ clients_keyed s' ∧
    ∀ k, outcome s s' k (reached act s player_id p k).
Proof.
  intros Hkeyed Hcb Hbody.
  destruct (session_loop act body (sync_clients s player_id p) Hbody) with (s := s)
    as (s' & Hrun & Href & Hin & Hout).
  { apply sync_clients_nodup; [exact Hkeyed | apply NoDup_elements]. }
  { exact Hcb. }
  { intros c (k & Hk)%sync_clients_elem.
    rewrite (member_session_keyed _ _ _ _ _ Hkeyed Hk).
    revert Hk. unfold member_session. by case_bool_decide. }
  assert (Hall : ∀ k, outcome s s' k (reached act s player_id p k)).
  { intros k. unfold reached.
    destruct (member_session s player_id p k) as [c|] eqn:Hk; cbn.
    - rewrite <- (member_session_keyed _ _ _ _ _ Hkeyed Hk).
      assert (Hc : c ∈ sync_clients s player_id p) by (apply sync_clients_elem; eauto).
      specialize (Hin c Hc). by destruct (act c) as [[ops st]|].
    - apply Hout.
      intros (c & -> & (k' & Hc)%sync_clients_elem)%list_elem_of_fmap.
      rewrite (member_session_keyed _ _ _ _ _ Hkeyed Hc) in Hk. congruence. }
  exists s'. split; [done|]. split; [done|]. split; [|done].
  intros k c' Hc'. specialize (Hall k). unfold reached in Hall.
  destruct (member_session s player_id p k) as [c|] eqn:Hk; cbn in Hall.
  - pose proof (member_session_keyed _ _ _ _ _ Hkeyed Hk) as Hid.
    assert (Hck : _socket_clients s !! k = Some c).
    { revert Hk. unfold member_session. by case_bool_decide. }
    destruct (act c) as [[ops st]|]; cbn in Hall.
    + destruct Hall as (_ & Hcl & _). rewrite Hcl in Hc'. by injection Hc' as <-.
    + destruct Hall as (_ & Hcl & _). rewrite Hcl, Hck in Hc'. by injection Hc' as <-.
  - destruct Hall as (_ & Hcl & _). rewrite Hcl in Hc'. by apply Hkeyed.
Qed.

(** The group of a player is read off its follower set. *)
Lemma sync_clients_group (s : Provider) (player_id : string) (p p' : Player.t) :
  Player.group_childs p' = Player.group_childs p →
  sync_clients s player_id p' = sync_clients s player_id p.
Proof. unfold sync_clients. by intros ->. Qed.

Lemma member_session_group (s : Provider) (player_id : string) (p p' : Player.t)
    (k : string) :
  Player.group_childs p' = Player.group_childs p →
  member_session s player_id p' k = member_session s player_id p k.
Proof. unfold member_session. by intros ->. Qed.

(** A registered player is still registered, with its links, after the
    sessions have signalled updates. *)
Lemma refreshed_player (s s' : Provider) (k : string) (p : Player.t) :
  refreshed s s' → players s !! k = Some p →
  ∃ p', players s' !! k = Some p' ∧
        Player.player_id p' = Player.player_id p ∧
        Player.synced_to p' = Player.synced_to p ∧
        Player.group_childs p' = Player.group_childs p.
Proof. intros (Hl & _) Hp. specialize (Hl k). by rewrite Hp in Hl. Qed.

(** ** Stop *)

Lemma stop_body_step (c : SlimClient.t) (s : Provider) :
  callbacks_keep_links s →
  ∃ s',
    (if SlimPlayerState.eqb (SlimClient.state c) SlimPlayerState.STOPPED
     then pass else client_stop c ;; _process_stat_stmu c) s = (s', Ok tt) ∧
    match stop_act c with
    | Some (ops, st) => session_step c ops st s s'
    | None => s' = s
    end.
Proof.
  intros Hcb. unfold stop_act, act_of, stop_op.
  destruct (SlimPlayerState.eqb _ _); [by exists s|]. by apply stop_step.
Qed.

(** What [cmd_stop] does: every session of the group that is not stopped
    is handed a stop and left [STOPPED]. *)
Lemma cmd_stop_effect (player_id : string) (s : Provider) (p : Player.t) :
  players s !! player_id = Some p →
  clients_keyed s → callbacks_keep_links s →
  ∃ s',
    cmd_stop player_id s = (s', Ok tt) ∧
    refreshed s s' ∧ clients_keyed s' ∧
    ∀ k, outcome s s' k (reached stop_act s player_id p k).
Proof.
  intros Hp Hkeyed Hcb. unfold cmd_stop.
  rewrite (bind_ok _ _ _ _ _ (get_sync_clients_run _ _ _ Hp)).
  apply group_fan_out; [done..|]. intros c s1 _. apply stop_body_step.
Qed.

(** [cmd_stop] on a registered player never fails, whatever the sessions;
    it leaves the links of every player as they are. *)
Lemma cmd_stop_refreshed (player_id : string) (s : Provider) (p : Player.t) :
  players s !! player_id = Some p →
  callbacks_keep_links s →
  ∃ s', cmd_stop player_id s = (s', Ok tt) ∧ refreshed s s'.
Proof.
  intros Hp Hcb. unfold cmd_stop.
  rewrite (bind_ok _ _ _ _ _ (get_sync_clients_run _ _ _ Hp)).
  destruct (for_each_inv (λ st, refreshed s st) (sync_clients s player_id p)
              (λ client,
                 if SlimPlayerState.eqb (SlimClient.state client) SlimPlayerState.STOPPED
                 then pass else client_stop client ;; _process_stat_stmu client))
    with (s := s) as [Href Hok].
  - intros c st Hst.
    destruct (stop_body_step c st) as (st' & Hrun & Hact).
    { by eapply refreshed_callbacks. }
    rewrite Hrun. split; [|done]. cbn.
    destruct (stop_act c) as [[ops st0]|]; [|by subst].
    eapply refreshed_trans; [exact Hst|apply Hact].
  - apply refreshed_refl.
  - destruct (for_each _ _ s) as [s' r]. cbn in *. subst r. by exists s'.
Qed.

(** The sessions of the group after a stop: all of them are [STOPPED]. *)
Lemma stopped_member (s s' : Provider) (player_id : string) (p : Player.t)
    (k : string) :
  outcome s s' k (reached stop_act s player_id p k) →
  member_session s' player_id p k
    = SlimClient.set_state SlimPlayerState.STOPPED <$> member_session s player_id p k.
Proof.
  unfold reached, member_session, stop_act, act_of, stop_op.
  case_bool_decide; [|done].
  destruct (_socket_clients s !! k) as [c|] eqn:Hc; cbn.
  - unfold SlimPlayerState.eqb. case_bool_decide as Hst; cbn.
    + intros (_ & -> & _). by rewrite Hc, set_state_same.
    + by intros (_ & -> & _).
  - intros (_ & -> & _). by rewrite Hc.
Qed.

(** The outcome of a fan-out that hands a session at most one operation,
    spelled out. *)
Lemma outcome_act_of (f : SlimClient.t → option SessionOp)
    (st : SlimPlayerState.t) (s s' : Provider) (player_id : string)
    (p : Player.t) (k : string) :
  outcome s s' k (reached (act_of f st) s player_id p k) →
  sent_to k s' = sent_to k s ++ ops_for f (member_session s player_id p k) ∧
  _socket_clients s' !! k
    = match member_session s player_id p k with
      | Some c => Some (if f c is Some _ then SlimClient.set_state st c else c)
      | None => _socket_clients s !! k
      end ∧
  (ops_for f (member_session s player_id p k) = [] →
     players s' !! k = players s !! k) ∧
  (∀ c, member_session s player_id p k = Some c → is_Some (f c) →
     _virtual_providers s !! SlimClient.device_model c = None →
     Player.state <$> players s' !! k = Some (STATE_MAP st)).
Proof.
  unfold reached, act_of.
  destruct (member_session s player_id p k) as [c|] eqn:Hk; cbn.
  - assert (Hck : _socket_clients s !! k = Some c).
    { revert Hk. unfold member_session. by case_bool_decide. }
    destruct (f c) as [op|] eqn:Hf; cbn.
    + intros (Hs & Hc & Hst). repeat split; try done.
      intros c' [= <-] _. exact Hst.
    + intros (Hs & Hc & Hp). rewrite app_nil_r, Hc, Hck. repeat split; try done.
      intros c' [= <-] [op Hop]. congruence.
  - intros (Hs & Hc & Hp). rewrite app_nil_r. repeat split; try done.
Qed.

(** ** Play and pause *)

Lemma play_body_step (c : SlimClient.t) (s : Provider) :
  callbacks_keep_links s →
  ∃ s',
    (if decide (SlimClient.state c ∈
          [SlimPlayerState.PAUSED; SlimPlayerState.BUFFERING;
           SlimPlayerState.BUFFER_READY])
     then client_play c else pass) s = (s', Ok tt) ∧
    match play_act c with
    | Some (ops, st) => session_step c ops st s s'
    | None => s' = s
    end.
Proof.
  intros Hcb. unfold play_act, act_of, play_op.
  destruct (decide _) as [Hin|Hout].
  - replace (match SlimClient.state c with
             | SlimPlayerState.PLAYING | SlimPlayerState.STOPPED => None
             | _ => Some op_play
             end) with (Some op_play)
      by (destruct (SlimClient.state c); try done; set_solver).
    exact (method_step c op_play SlimPlayerState.PLAYING s Hcb).
  - replace (match SlimClient.state c with
             | SlimPlayerState.PLAYING | SlimPlayerState.STOPPED => None
             | _ => Some op_play
             end) with (@None SessionOp)
      by (destruct (SlimClient.state c); try done; set_solver).
    by exists s.
Qed.

Lemma pause_body_step (c : SlimClient.t) (s : Provider) :
  callbacks_keep_links s →
  ∃ s',
    (if decide (SlimClient.state c ∈
          [SlimPlayerState.PLAYING; SlimPlayerState.BUFFERING;
           SlimPlayerState.BUFFER_READY])
     then client_pause c else pass) s = (s', Ok tt) ∧
    match pause_act c with
    | Some (ops, st) => session_step c ops st s s'
    | None => s' = s
    end.
Proof.
  intros Hcb. unfold pause_act, act_of, pause_op.
  destruct (decide _) as [Hin|Hout].
  - replace (match SlimClient.state c with
             | SlimPlayerState.PAUSED | SlimPlayerState.STOPPED => None
             | _ => Some op_pause
             end) with (Some op_pause)
      by (destruct (SlimClient.state c); try done; set_solver).
    exact (method_step c op_pause SlimPlayerState.PAUSED s Hcb).
  - replace (match SlimClient.state c with
             | SlimPlayerState.PAUSED | SlimPlayerState.STOPPED => None
             | _ => Some op_pause
             end) with (@None SessionOp)
      by (destruct (SlimClient.state c); try done; set_solver).
    by exists s.
Qed.

Lemma cmd_play_effect (player_id : string) (s : Provider) (p : Player.t) :
  players s !! player_id = Some p →
  clients_keyed s → callbacks_keep_links s →
  ∃ s',
    cmd_play player_id s = (s', Ok tt) ∧
    refreshed s s' ∧ clients_keyed s' ∧
    ∀ k, outcome s s' k (reached play_act s player_id p k).
Proof.
  intros Hp Hkeyed Hcb. unfold cmd_play.
  rewrite (bind_ok _ _ _ _ _ (get_sync_clients_run _ _ _ Hp)).
  destruct (group_fan_out play_act
              (λ c, if decide (SlimClient.state c ∈
                         [SlimPlayerState.PAUSED; SlimPlayerState.BUFFERING;
                          SlimPlayerState.BUFFER_READY])
                    then client_play c else pass) s player_id p Hkeyed Hcb)
    as (s' & Hrun & Hrest).
  { intros c s1 _. apply play_body_step. }
  exists s'. split; [|done]. apply task_group_ok. by rewrite for_each_filter.
Qed.

Lemma cmd_pause_effect (player_id : string) (s : Provider) (p : Player.t) :
  players s !! player_id = Some p →
  clients_keyed s → callbacks_keep_links s →
  ∃ s',
    cmd_pause player_id s = (s', Ok tt) ∧
    refreshed s s' ∧ clients_keyed s' ∧
    ∀ k, outcome s s' k (reached pause_act s player_id p k).
Proof.
  intros Hp Hkeyed Hcb. unfold cmd_pause.
  rewrite (bind_ok _ _ _ _ _ (get_sync_clients_run _ _ _ Hp)).
  destruct (group_fan_out pause_act
              (λ c, if decide (SlimClient.state c ∈
                         [SlimPlayerState.PLAYING; SlimPlayerState.BUFFERING;
                          SlimPlayerState.BUFFER_READY])
                    then client_pause c else pass) s player_id p Hkeyed Hcb)
    as (s' & Hrun & Hrest).
  { intros c s1 _. apply pause_body_step. }
  exists s'. split; [|done]. apply task_group_ok. by rewrite for_each_filter.
Qed.

Lemma handle_player_update_ok (client : SlimClient.t) (s : Provider) :
  (_handle_player_update client s).2 = Ok tt.
Proof.
  unfold _handle_player_update. munfold.
  destruct (players s !! SlimClient.player_id client);
    by destruct (_virtual_providers s !! SlimClient.device_model client).
Qed.

(** A signalled update never fails and sends nothing, whatever the virtual
    providers. *)
Lemma signal_state_log (c : SlimClient.t) (st : SlimPlayerState.t) (s : Provider) :
  ∃ s', signal_state c st s = (s', Ok tt) ∧ sent s' = sent s.
Proof.
  unfold signal_state, client_callback. rewrite bind_modify.
  destruct (handle_player_update_log (SlimClient.set_state st c)
              (with_clients
                 (alter (SlimClient.set_state st) (SlimClient.player_id c)) s))
    as (s' & Hrun & Hsent & _).
  exists s'. by split.
Qed.

(** ** Sync group manager *)

Lemma elements_self_only (k : string) : elements ({[k]} ∪ (∅ : gset string)) = [k].
Proof. by rewrite (right_id_L ∅ (∪)), elements_singleton. Qed.

(** The player table after [cmd_sync] on two registered players. *)
Lemma cmd_sync_table (env : Env) (a b : string) (s : Provider)
    (pa pb : Player.t) :
  players s !! a = Some pa → players s !! b = Some pb →
  Player.player_id pa = a → Player.player_id pb = b →
  ∃ s',
    cmd_sync env a b s = (s', Ok tt) ∧
    players s' =
      alter (Player.set_synced_to (Some b)) a
        (alter (λ p, Player.set_group_childs ({[a]} ∪ Player.group_childs p) p) b
           (alter (λ p, Player.set_group_childs ({[b]} ∪ Player.group_childs p) p) b
              (players s))) ∧
    _socket_clients s' = _socket_clients s ∧
    sent s' = sent s ∧
    calls s' = calls s ++
      (if PlayerState.eqb (Player.state pb) PlayerState.PLAYING
       then [queues_resume (get_active_queue env b) false]
       else [players_update a; players_update b]).
Proof.
  intros Ha Hb Hida Hidb.
  unfold cmd_sync, ENABLE_EXPERIMENTAL_SYNC_JOIN. munfold.
  rewrite Ha, Hb, Hida, Hidb. cbn.
  destruct (PlayerState.eqb _ _); cbn; eexists; (split; [reflexivity|]); cbn;
    repeat split; by rewrite <- ?app_assoc.
Qed.

(** [cmd_unsync] of a follower: the stop goes to the follower's group, then
    the two players are unlinked in the table that the stop has left. *)
Lemma cmd_unsync_table (a b : string) (s : Provider) (pa pb : Player.t) :
  players s !! a = Some pa → Player.synced_to pa = Some b →
  players s !! b = Some pb →
  Player.player_id pa = a → Player.player_id pb = b →
  callbacks_keep_links s →
  ∃ s0 s',
    cmd_stop a s = (s0, Ok tt) ∧ refreshed s s0 ∧
    cmd_unsync a s = (s', Ok tt) ∧
    players s' =
      alter (λ p, if bool_decide (Player.group_childs p = {[b]})
                  then Player.set_group_childs (Player.group_childs p ∖ {[b]}) p
                  else p) b
        (alter (λ p, Player.set_group_childs (Player.group_childs p ∖ {[a]}) p) b
           (alter (Player.set_synced_to None) a (players s0))).
Proof.
  intros Ha Hsa Hb Hida Hidb Hcb.
  destruct (cmd_stop_refreshed a s pa Ha Hcb) as (s0 & Hstop & Href).
  exists s0. eexists. split; [done|]. split; [done|].
  unfold cmd_unsync. munfold. rewrite Ha. cbn. rewrite Hsa. cbn.
  rewrite Hb, Hida, Hstop. cbn. rewrite Hidb. split; reflexivity.
Qed.

(** C8: for two distinct registered players A and B, where A is in no group
    and B follows nobody and either has no followers or leads a group that
    A is not part of, [sync(A, B)] followed by [unsync(A)] both succeed; in
    between A follows B and B's follower set has gained B and A;
    afterwards every player has the leader and the follower set it had
    before the calls: A's [synced_to] is null again, and B's follower set is
    the one it was, which for a B without followers means that the set,
    left as the singleton {B} by A's removal, has been cleared.  The stop
    that [unsync] sends to A's session refreshes A's player but not its
    links; a registered virtual provider is assumed to leave the links
    alone. *)
Theorem sync_unsync_round_trip (env : Env) (a b : string) (s : Provider)
    (pa pb : Player.t) :
  a ≠ b →
  players s !! a = Some pa → players s !! b = Some pb →
  Player.player_id pa = a → Player.player_id pb = b →
  Player.synced_to pa = None → Player.synced_to pb = None →
  Player.group_childs pa = ∅ →
  Player.group_childs pb = ∅
  ∨ ((b ∈ Player.group_childs pb) ∧ (a ∉ Player.group_childs pb)
     ∧ (Player.group_childs pb ≠ {[b]})) →
  callbacks_keep_links s →
  ∃ s1 s2,
    cmd_sync env a b s = (s1, Ok tt) ∧
    membership s1 a = Some (Some b, ∅) ∧
    membership s1 b = Some (None, {[b; a]} ∪ Player.group_childs pb) ∧
    cmd_unsync a s1 = (s2, Ok tt) ∧
    membership s2 a = Some (None, ∅) ∧
    membership s2 b = Some (None, Player.group_childs pb) ∧
    ∀ k p, players s !! k = Some p → membership s2 k = membership s k.
Proof.
  intros Hab Ha Hb Hida Hidb Hsa Hsb Hga Hgb Hcb.
  destruct (cmd_sync_table env a b s pa pb Ha Hb Hida Hidb)
    as (s1 & Hsync & Hp1 & _ & _ & _).
  assert (Ha1 : players s1 !! a = Some (Player.set_synced_to (Some b) pa)).
  { rewrite Hp1, lookup_alter_eq, !lookup_alter_ne, Ha by done. done. }
  assert (Hb1 : players s1 !! b
                = Some (Player.set_group_childs
                          ({[b; a]} ∪ Player.group_childs pb) pb)).
  { rewrite Hp1, lookup_alter_ne, !lookup_alter_eq, Hb by done. cbn.
    f_equal. unfold Player.set_group_childs; cbn. f_equal. set_solver. }
  assert (Ho1 : ∀ k, k ≠ a → k ≠ b → players s1 !! k = players s !! k).
  { intros k ? ?. by rewrite Hp1, !lookup_alter_ne. }
  assert (Hcb1 : callbacks_keep_links s1).
  { intros model cbs Hm. apply (Hcb model cbs).
    revert Hsync Hm. unfold cmd_sync, ENABLE_EXPERIMENTAL_SYNC_JOIN. munfold.
    rewrite Ha, Hb. cbn.
    by destruct (PlayerState.eqb _ _); cbn; intros [= <-]. }
  destruct (cmd_unsync_table a b s1 _ _ Ha1 eq_refl Hb1 Hida Hidb Hcb1)
    as (s0 & s2 & _ & Href & Hunsync & Hp2).
  destruct (refreshed_player _ _ _ _ Href Ha1) as (pa0 & Ha0 & _ & Hsa0 & Hga0).
  destruct (refreshed_player _ _ _ _ Href Hb1) as (pb0 & Hb0 & _ & Hsb0 & Hgb0).
  cbn in Hsa0, Hga0, Hsb0, Hgb0.
  assert (Ha2 : membership s2 a = Some (None, ∅)).
  { unfold membership.
    rewrite Hp2, !lookup_alter_ne, lookup_alter_eq, Ha0 by done. cbn.
    by rewrite Hga0, Hga. }
  assert (Hb2 : membership s2 b = Some (None, Player.group_childs pb)).
  { unfold membership.
    rewrite Hp2, !lookup_alter_eq, lookup_alter_ne, Hb0 by done. cbn.
    rewrite Hgb0. case_bool_decide as Hone; cbn; rewrite Hsb0, Hsb; do 2 f_equal.
    - destruct Hgb as [->|(Hin & Hout & Hmore)]; [set_solver|].
      exfalso. apply Hmore. apply set_eq. intros x. split; [|set_solver].
      intros Hx. assert (x ∈ ({[b]} : gset string)) as Hxb; [|done].
      rewrite <- Hone. set_solver.
    - destruct Hgb as [Hnil|(Hin & Hout & Hmore)]; [|set_solver].
      exfalso. apply Hone. rewrite Hnil. set_solver. }
  exists s1, s2. unfold membership at 1 2. rewrite Ha1, Hb1. cbn.
  rewrite Hga, Hsb. do 6 (split; [done|]).
  intros k p Hk.
  destruct (decide (k = a)) as [->|Hka].
  { rewrite Ha2. unfold membership. rewrite Ha. cbn. by rewrite Hsa, Hga. }
  destruct (decide (k = b)) as [->|Hkb].
  { rewrite Hb2. unfold membership. rewrite Hb. cbn. by rewrite Hsb. }
  assert (Hk1 : players s1 !! k = Some p) by by rewrite Ho1.
  destruct (refreshed_player _ _ _ _ Href Hk1) as (p0 & Hk0 & _ & Hs0 & Hg0).
  unfold membership. rewrite Hp2, !lookup_alter_ne, Hk0, Hk by done. cbn.
  by rewrite Hs0, Hg0.
Qed.

(** C2 as stated fails: [cmd_sync] of a player with itself is not a no-op
    (the player becomes its own leader and its own follower), and a sync to
    a leader that itself follows another player succeeds. *)
Lemma cmd_sync_self_and_transitive :
  (∃ s', cmd_sync env_j1 "cc" "cc" group_playing = (s', Ok tt) ∧
         links group_playing "cc" = Some (None, []) ∧
         links s' "cc" = Some (Some "cc", ["cc"])) ∧
  (∃ s', cmd_sync env_j1 "cc" "bb" group_playing = (s', Ok tt) ∧
         links group_playing "bb" = Some (Some "aa", []) ∧
         links s' "bb" = Some (Some "aa", ["cc"; "bb"]) ∧
         links s' "cc" = Some (Some "bb", [])).
Proof.
  split; eexists; (split; [vm_compute; reflexivity|]);
    repeat split; vm_compute; reflexivity.
Qed.

(** C2, amended: when either player is missing, [cmd_sync] fails on its
    assertion and changes nothing; when both exist it always succeeds: the
    leader's follower set gains the leader and the child, and the child's
    [synced_to] becomes the leader, whether or not the child is the leader
    itself and whatever the leader's own [synced_to] is; no other player
    changes. *)
Theorem cmd_sync_outcome (env : Env) (child leader : string) (s : Provider) :
  keyed s child → keyed s leader →
  match players s !! child, players s !! leader with
  | Some pc, Some pl =>
      ∃ s', cmd_sync env child leader s = (s', Ok tt) ∧
        Player.synced_to <$> players s' !! child = Some (Some leader) ∧
        Player.group_childs <$> players s' !! leader
          = Some ({[leader; child]} ∪ Player.group_childs pl) ∧
        (child ≠ leader →
           Player.synced_to <$> players s' !! leader = Some (Player.synced_to pl)) ∧
        ∀ k, k ≠ child → k ≠ leader → players s' !! k = players s !! k
  | _, _ => cmd_sync env child leader s = (s, Raise AssertionError)
  end.
Proof.
  intros Hkc Hkl. unfold cmd_sync, ENABLE_EXPERIMENTAL_SYNC_JOIN. munfold.
  destruct (players s !! child) as [pc|] eqn:Hc; [|done].
  destruct (players s !! leader) as [pl|] eqn:Hl; [|done].
  rewrite (Hkc _ Hc), (Hkl _ Hl). cbn.
  pose (tbl :=
    alter (Player.set_synced_to (Some leader)) child
      (alter (λ p, Player.set_group_childs ({[child]} ∪ Player.group_childs p) p) leader
         (alter (λ p, Player.set_group_childs ({[leader]} ∪ Player.group_childs p) p) leader
            (players s)))).
  assert (Hchild : Player.synced_to <$> tbl !! child = Some (Some leader)).
  { subst tbl. rewrite lookup_alter_eq.
    destruct (decide (child = leader)) as [->|Hne].
    - by rewrite !lookup_alter_eq, Hl.
    - by rewrite !lookup_alter_ne, Hc. }
  assert (Hleader : Player.group_childs <$> tbl !! leader
                    = Some ({[leader; child]} ∪ Player.group_childs pl)).
  { subst tbl. destruct (decide (child = leader)) as [->|Hne].
    - rewrite !lookup_alter_eq, Hl. cbn. f_equal. set_solver.
    - rewrite lookup_alter_ne, !lookup_alter_eq, Hl by done. cbn.
      f_equal. set_solver. }
  assert (Hsame : child ≠ leader →
            Player.synced_to <$> tbl !! leader = Some (Player.synced_to pl)).
  { intros Hne. subst tbl.
    by rewrite lookup_alter_ne, !lookup_alter_eq, Hl. }
  assert (Hrest : ∀ k, k ≠ child → k ≠ leader → tbl !! k = players s !! k).
  { intros k ? ?. subst tbl. by rewrite !lookup_alter_ne. }
  destruct (PlayerState.eqb _ _); cbn; eexists; (split; [reflexivity|]);
    cbn; repeat split; first [exact Hchild | exact Hleader | exact Hsame | exact Hrest].
Qed.

Lemma cmd_sync_outcome_witness :
  ∃ s', cmd_sync env_j1 "cc" "bb" group_playing = (s', Ok tt) ∧
    Player.synced_to <$> players s' !! "cc" = Some (Some "bb") ∧
    Player.group_childs <$> players s' !! "bb" = Some ({["bb"; "cc"]} ∪ ∅) ∧
    ("cc" ≠ "bb" → Player.synced_to <$> players s' !! "bb" = Some (Some "aa")) ∧
    ∀ k, k ≠ "cc" → k ≠ "bb" → players s' !! k = players group_playing !! k.
Proof.
  apply (cmd_sync_outcome env_j1 "cc" "bb" group_playing).
  - intros p. vm_compute. by intros [= <-].
  - intros p. vm_compute. by intros [= <-].
Defined.

(** ** Transport commands on a follower *)

Lemma member_self (s : Provider) (player_id : string) (p : Player.t) :
  member_session s player_id p player_id = _socket_clients s !! player_id.
Proof. unfold member_session. rewrite bool_decide_true; [done|set_solver]. Qed.

(** The play commands on a player that has a leader: the stop goes out,
    then the error is raised. *)
Lemma cmd_play_url_synced env player_id url queue_item s p :
  players s !! player_id = Some p → truthy (Player.synced_to p) = true →
  callbacks_keep_links s →
  cmd_play_url env player_id url queue_item s
    = ((cmd_stop player_id s).1, Raise synced_error).
Proof.
  intros Hp Hs Hcb.
  destruct (cmd_stop_refreshed _ _ _ Hp Hcb) as (s1 & Hstop & Href).
  destruct (refreshed_player _ _ _ _ Href Hp) as (p1 & Hp1 & _ & Hs1 & _).
  unfold cmd_play_url. rewrite (bind_ok _ _ _ _ _ Hstop), Hstop. cbn [fst].
  munfold. by rewrite Hp1, Hs1, Hs.
Qed.

Lemma cmd_handle_stream_job_synced env player_id stream_job s p :
  players s !! player_id = Some p → truthy (Player.synced_to p) = true →
  callbacks_keep_links s →
  cmd_handle_stream_job env player_id stream_job s
    = ((cmd_stop player_id s).1, Raise synced_error).
Proof.
  intros Hp Hs Hcb.
  destruct (cmd_stop_refreshed _ _ _ Hp Hcb) as (s1 & Hstop & Href).
  destruct (refreshed_player _ _ _ _ Href Hp) as (p1 & Hp1 & _ & Hs1 & _).
  unfold cmd_handle_stream_job. rewrite (bind_ok _ _ _ _ _ Hstop), Hstop. cbn [fst].
  munfold. by rewrite Hp1, Hs1, Hs.
Qed.

(** [cmd_stop] on a player without followers: its own session is the only
    one reached. *)
Lemma cmd_stop_single player_id s p c :
  players s !! player_id = Some p → Player.group_childs p = ∅ →
  _socket_clients s !! player_id = Some c →
  callbacks_keep_links s →
  ∃ s',
    cmd_stop player_id s = (s', Ok tt) ∧
    match stop_act c with
    | Some (ops, st) => session_step c ops st s s'
    | None => s' = s
    end.
Proof.
  intros Hp Hg Hc Hcb. unfold cmd_stop.
  rewrite (bind_ok _ _ _ _ _ (get_sync_clients_run _ _ _ Hp)).
  unfold sync_clients. rewrite Hg, elements_self_only. cbn. rewrite Hc. cbn.
  destruct (stop_body_step c s Hcb) as (s' & Hrun & Hact).
  exists s'. split; [|done]. by rewrite (bind_ok _ _ _ _ _ Hrun).
Qed.

(** C6 as stated fails: stop and pause sent directly to a follower are
    carried out on its session, not rejected. *)
Lemma stop_and_pause_reach_a_follower :
  Player.synced_to <$> players group_playing !! "bb" = Some (Some "aa") ∧
  (cmd_stop "bb" group_playing).2 = Ok tt ∧
  sent (cmd_stop "bb" group_playing).1 = [("bb", op_stop)] ∧
  (cmd_pause "bb" group_playing).2 = Ok tt ∧
  sent (cmd_pause "bb" group_playing).1 = [("bb", op_pause)].
Proof. vm_compute. done. Qed.

(** C6, amended: on a registered player whose [synced_to] is set, the two
    play commands ([cmd_play_url], [cmd_handle_stream_job]) raise the
    "synced player" error.  [cmd_stop], [cmd_play] and [cmd_pause] have no
    such guard: they complete without an error and act on the follower's
    own session, which is handed a stop unless it is stopped (and is
    stopped afterwards), a play when it is paused, buffering or
    buffer-ready (a paused one is playing afterwards), and a pause when it
    is playing, buffering or buffer-ready (a playing one is paused
    afterwards).  Sessions are registered under their own ids, and a
    registered virtual provider is assumed to leave the links of a player
    alone. *)
Theorem play_commands_are_guarded (env : Env) (player_id url : string)
    (queue_item : option QueueItem) (stream_job : StreamJob)
    (s : Provider) (p : Player.t) :
  players s !! player_id = Some p →
  truthy (Player.synced_to p) = true →
  clients_keyed s → callbacks_keep_links s →
  (cmd_play_url env player_id url queue_item s).2 = Raise synced_error ∧
  (cmd_handle_stream_job env player_id stream_job s).2 = Raise synced_error ∧
  ∃ s_stop s_play s_pause,
    cmd_stop player_id s = (s_stop, Ok tt) ∧
    cmd_play player_id s = (s_play, Ok tt) ∧
    cmd_pause player_id s = (s_pause, Ok tt) ∧
    ∀ c, _socket_clients s !! player_id = Some c →
      sent_to player_id s_stop = sent_to player_id s ++ option_list (stop_op c) ∧
      _socket_clients s_stop !! player_id
        = Some (SlimClient.set_state SlimPlayerState.STOPPED c) ∧
      sent_to player_id s_play = sent_to player_id s ++ option_list (play_op c) ∧
      (SlimClient.state c = SlimPlayerState.PAUSED →
       _socket_clients s_play !! player_id
         = Some (SlimClient.set_state SlimPlayerState.PLAYING c)) ∧
      sent_to player_id s_pause = sent_to player_id s ++ option_list (pause_op c) ∧
      (SlimClient.state c = SlimPlayerState.PLAYING →
       _socket_clients s_pause !! player_id
         = Some (SlimClient.set_state SlimPlayerState.PAUSED c)).
Proof.
  intros Hp Hs Hkeyed Hcb.
  rewrite (cmd_play_url_synced _ _ _ _ _ _ Hp Hs Hcb),
    (cmd_handle_stream_job_synced _ _ _ _ _ Hp Hs Hcb).
  split; [done|]. split; [done|].
  destruct (cmd_stop_effect _ _ _ Hp Hkeyed Hcb) as (s1 & Hrun1 & _ & _ & Hall1).
  destruct (cmd_play_effect _ _ _ Hp Hkeyed Hcb) as (s2 & Hrun2 & _ & _ & Hall2).
  destruct (cmd_pause_effect _ _ _ Hp Hkeyed Hcb) as (s3 & Hrun3 & _ & _ & Hall3).
  exists s1, s2, s3. do 3 (split; [done|]). intros c Hc.
  destruct (outcome_act_of _ _ _ _ _ _ _ (Hall1 player_id)) as (Hs1 & Hc1 & _).
  destruct (outcome_act_of _ _ _ _ _ _ _ (Hall2 player_id)) as (Hs2 & Hc2 & _).
  destruct (outcome_act_of _ _ _ _ _ _ _ (Hall3 player_id)) as (Hs3 & Hc3 & _).
  rewrite member_self, Hc in *. cbn in Hs1, Hs2, Hs3.
  split; [done|]. split; [|split; [done|split; [|split; [done|]]]].
  - rewrite Hc1. unfold stop_op, SlimPlayerState.eqb.
    case_bool_decide; [|done]. by rewrite set_state_same.
  - intros Hst. rewrite Hc2. unfold play_op. by rewrite Hst.
  - intros Hst. rewrite Hc3. unfold pause_op. by rewrite Hst.
Qed.

Lemma play_commands_are_guarded_witness :
  (cmd_play_url env_j1 "bb" "http://x/y.flac" None group_playing).2 = Raise synced_error ∧
  (cmd_handle_stream_job env_j1 "bb" job_j1 group_playing).2 = Raise synced_error ∧
  ∃ s_stop s_play s_pause,
    cmd_stop "bb" group_playing = (s_stop, Ok tt) ∧
    cmd_play "bb" group_playing = (s_play, Ok tt) ∧
    cmd_pause "bb" group_playing = (s_pause, Ok tt) ∧
    ∀ c, _socket_clients group_playing !! "bb" = Some c →
      sent_to "bb" s_stop = sent_to "bb" group_playing ++ option_list (stop_op c) ∧
      _socket_clients s_stop !! "bb"
        = Some (SlimClient.set_state SlimPlayerState.STOPPED c) ∧
      sent_to "bb" s_play = sent_to "bb" group_playing ++ option_list (play_op c) ∧
      (SlimClient.state c = SlimPlayerState.PAUSED →
       _socket_clients s_play !! "bb"
         = Some (SlimClient.set_state SlimPlayerState.PLAYING c)) ∧
      sent_to "bb" s_pause = sent_to "bb" group_playing ++ option_list (pause_op c) ∧
      (SlimClient.state c = SlimPlayerState.PLAYING →
       _socket_clients s_pause !! "bb"
         = Some (SlimClient.set_state SlimPlayerState.PAUSED c)).
Proof.
  apply (play_commands_are_guarded env_j1 "bb" "http://x/y.flac" None job_j1
           group_playing follower_bb).
  - reflexivity.
  - reflexivity.
  - apply provider_of_keyed.
  - by apply no_callbacks.
Defined.

(** C9: [cmd_play_url] and [cmd_handle_stream_job] on a player whose
    [synced_to] is set raise the error only after [cmd_stop] has run: the
    state they leave is the one after the stop.  For a follower whose
    session is not stopped, a stop has been sent to that session and it is
    now [STOPPED], although the command failed.  (The stopped session
    signals its update, by which its player is refreshed; a virtual
    provider registered for it is assumed to leave the links of the player
    alone.) *)
Theorem play_on_follower_is_not_atomic (env : Env) (player_id url : string)
    (queue_item : option QueueItem) (stream_job : StreamJob)
    (s : Provider) (p : Player.t) (c : SlimClient.t) :
  players s !! player_id = Some p →
  truthy (Player.synced_to p) = true →
  Player.group_childs p = ∅ →
  _socket_clients s !! player_id = Some c →
  SlimClient.player_id c = player_id →
  SlimClient.state c ≠ SlimPlayerState.STOPPED →
  callbacks_keep_links s →
  ∃ s',
    cmd_play_url env player_id url queue_item s = (s', Raise synced_error) ∧
    cmd_handle_stream_job env player_id stream_job s = (s', Raise synced_error) ∧
    s' = (cmd_stop player_id s).1 ∧
    sent s' = sent s ++ [(player_id, op_stop)] ∧
    SlimClient.state <$> _socket_clients s' !! player_id
      = Some SlimPlayerState.STOPPED ∧
    s' ≠ s.
Proof.
  intros Hp Hs Hg Hc Hid Hst Hcb. exists (cmd_stop player_id s).1.
  rewrite (cmd_play_url_synced _ _ _ _ _ _ Hp Hs Hcb),
    (cmd_handle_stream_job_synced _ _ _ _ _ Hp Hs Hcb).
  destruct (cmd_stop_single _ _ _ _ Hp Hg Hc Hcb) as (s' & -> & Hact).
  unfold stop_act, act_of, stop_op, SlimPlayerState.eqb in Hact.
  rewrite bool_decide_false in Hact by done. cbn in Hact.
  destruct Hact as (_ & Hsent & Hcl & _). rewrite Hid in Hsent, Hcl. cbn.
  repeat split; [done|by rewrite Hcl, lookup_alter_eq, Hc|].
  intros Heq. rewrite Heq in Hsent.
  apply (f_equal length) in Hsent. rewrite length_app in Hsent. cbn in Hsent. lia.
Qed.

Lemma play_on_follower_is_not_atomic_witness :
  ∃ s',
    cmd_play_url env_j1 "bb" "http://x/y.flac" None group_playing
      = (s', Raise synced_error) ∧
    cmd_handle_stream_job env_j1 "bb" job_j1 group_playing
      = (s', Raise synced_error) ∧
    s' = (cmd_stop "bb" group_playing).1 ∧
    sent s' = sent group_playing ++ [("bb", op_stop)] ∧
    SlimClient.state <$> _socket_clients s' !! "bb" = Some SlimPlayerState.STOPPED ∧
    s' ≠ group_playing.
Proof.
  apply (play_on_follower_is_not_atomic env_j1 "bb" "http://x/y.flac" None job_j1
           group_playing (mk_player "bb" PlayerState.PLAYING (Some "aa") ∅)
           (mk_client "bb" SlimPlayerState.PLAYING 5000 1000));
    first [reflexivity | discriminate | by apply no_callbacks].
Defined.

(** ** Player registry *)

(** C10: after [_handle_player_update] the player entered for the client
    has [volume_muted] equal to the conjunction of the client's [powered]
    and [muted] flags, so a client that is powered off is reported as not
    muted; this is the player for which the update is forwarded to the
    player manager.  A virtual provider registered for the client's device
    model is assumed to leave the player's id and [volume_muted] alone. *)
Theorem volume_muted_is_powered_and_muted (client : SlimClient.t) (s : Provider) :
  (∀ cbs p, _virtual_providers s !! SlimClient.device_model client = Some cbs →
     Player.player_id (cbs.1 p) = Player.player_id p ∧
     Player.volume_muted (cbs.2 p) = Player.volume_muted p) →
  ∃ s' p',
    _handle_player_update client s = (s', Ok tt) ∧
    players s' !! SlimClient.player_id client = Some p' ∧
    Player.volume_muted p' = SlimClient.powered client && SlimClient.muted client ∧
    (SlimClient.powered client = false → Player.volume_muted p' = false) ∧
    last (calls s') = Some (players_update (SlimClient.player_id client)).
Proof.
  intros Hcb. unfold _handle_player_update. munfold.
  assert (Hoff : ∀ b, b = SlimClient.powered client && SlimClient.muted client →
            SlimClient.powered client = false → b = false).
  { intros b -> ->. done. }
  destruct (_virtual_providers s !! SlimClient.device_model client)
    as [cbs|] eqn:Hv;
    destruct (players s !! SlimClient.player_id client) as [p|] eqn:Hp; cbn.
  - eexists _, _; (split; [reflexivity|]); cbn.
    rewrite !lookup_alter_eq, Hp, last_snoc; cbn. split; [reflexivity|].
    destruct (Hcb cbs (refresh_player client
      (other_player_ids (SlimClient.player_id client) (_socket_clients s)) p)
      eq_refl) as [_ Hm].
    rewrite Hm. cbn. eauto.
  - destruct (Hcb cbs (Player.create (SlimClient.player_id client)
      (SlimClient.name client) (SlimClient.powered client)) eq_refl) as [Hid _].
    cbn in Hid. rewrite Hid.
    eexists _, _; (split; [reflexivity|]); cbn.
    rewrite !lookup_alter_eq, lookup_insert_eq, last_snoc; cbn.
    split; [reflexivity|].
    match goal with
    | |- context [cbs.2 ?q] => destruct (Hcb cbs q eq_refl) as [_ Hm]
    end.
    rewrite Hm. cbn. eauto.
  - eexists _, _; (split; [reflexivity|]); cbn.
    rewrite lookup_alter_eq, Hp, last_snoc; cbn. eauto.
  - eexists _, _; (split; [reflexivity|]); cbn.
    rewrite lookup_alter_eq, lookup_insert_eq, last_snoc; cbn. eauto.
Qed.

Lemma volume_muted_is_powered_and_muted_witness :
  ∃ s' p',
    _handle_player_update (mk_client "aa" SlimPlayerState.PLAYING 7000 1011) group_playing
      = (s', Ok tt) ∧
    players s' !! "aa" = Some p' ∧
    Player.volume_muted p' = true && false ∧
    (true = false → Player.volume_muted p' = false) ∧
    last (calls s') = Some (players_update "aa").
Proof.
  apply (volume_muted_is_powered_and_muted
           (mk_client "aa" SlimPlayerState.PLAYING 7000 1011) group_playing).
  intros cbs p. vm_compute. discriminate.
Defined.

(** With sessions stored under their own ids, the tuple computed for
    [can_sync_with] lists exactly the other registered ids. *)
Lemma other_player_ids_set (k : string) (m : gmap string SlimClient.t) :
  (∀ k' c, m !! k' = Some c → SlimClient.player_id c = k') →
  list_to_set (other_player_ids k m) =@{gset string} dom m ∖ {[k]}.
Proof.
  intros Hkeyed. apply set_eq. intros x. unfold other_player_ids.
  rewrite elem_of_list_to_set, list_elem_of_filter, list_elem_of_fmap,
    elem_of_difference, elem_of_dom, not_elem_of_singleton.
  split.
  - intros (Hne & c & -> & ([k' c'] & -> & Hin%elem_of_map_to_list)%list_elem_of_fmap).
    cbn in *. rewrite (Hkeyed _ _ Hin) in *. eauto.
  - intros ([c Hc] & Hne). split; [done|]. exists c.
    split; [by rewrite (Hkeyed _ _ Hc)|].
    apply list_elem_of_fmap. exists (x, c). by rewrite elem_of_map_to_list.
Qed.

(** One [_handle_player_update], for a device model without a virtual
    provider: the client's player now lists the others, and no other
    player changes. *)
Lemma handle_player_update_effect (client : SlimClient.t) (s : Provider) :
  _virtual_providers s = ∅ →
  ∃ s',
    _handle_player_update client s = (s', Ok tt) ∧
    _socket_clients s' = _socket_clients s ∧
    _virtual_providers s' = ∅ ∧
    lists_others (_socket_clients s) s' (SlimClient.player_id client) ∧
    ∀ k, k ≠ SlimClient.player_id client → players s' !! k = players s !! k.
Proof.
  intros Hv. unfold _handle_player_update, lists_others. munfold.
  rewrite Hv, lookup_empty.
  destruct (players s !! SlimClient.player_id client) as [p|] eqn:Hp; cbn;
    eexists; (split; [reflexivity|]); cbn;
    (split; [done|]); (split; [done|]).
  - rewrite lookup_alter_eq, Hp. split; [by eexists|].
    intros k Hk. by rewrite lookup_alter_ne.
  - rewrite lookup_alter_eq, lookup_insert_eq. split; [by eexists|].
    intros k Hk. by rewrite lookup_alter_ne, lookup_insert_ne.
Qed.

(** The loop of [_handle_connected] over the registered sessions. *)
Lemma refresh_loop (player_id : string) (m : gmap string SlimClient.t)
    (items : list SlimClient.t) :
  ∀ s,
    _socket_clients s = m → _virtual_providers s = ∅ →
    let body := λ item,
      if bool_decide (SlimClient.player_id item = player_id) then pass
      else _handle_player_update item in
    let s' := (for_each items body s).1 in
    (for_each items body s).2 = Ok tt ∧
    _socket_clients s' = m ∧
    (∀ k, lists_others m s k → lists_others m s' k) ∧
    (∀ item, item ∈ items → SlimClient.player_id item ≠ player_id →
       lists_others m s' (SlimClient.player_id item)).
Proof.
  induction items as [|item items IH]; intros s Hm Hv; cbn zeta.
  { cbn. repeat split; try done. intros item Hin. by apply elem_of_nil in Hin. }
  cbn [for_each].
  set (body := λ item : SlimClient.t, _).
  assert (Hstep : ∃ s1, body item s = (s1, Ok tt) ∧
            _socket_clients s1 = m ∧ _virtual_providers s1 = ∅ ∧
            (∀ k, lists_others m s k → lists_others m s1 k) ∧
            (SlimClient.player_id item ≠ player_id →
               lists_others m s1 (SlimClient.player_id item))).
  { subst body. cbn beta. case_bool_decide as Hskip.
    - exists s. by repeat split.
    - destruct (handle_player_update_effect item s Hv)
        as (s1 & Hrun & Hc1 & Hv1 & Hnew & Hrest).
      exists s1. rewrite Hm in Hnew, Hc1. repeat split; try done.
      intros k (p & Hp & Hl).
      destruct (decide (k = SlimClient.player_id item)) as [->|Hne]; [done|].
      exists p. by rewrite Hrest. }
  destruct Hstep as (s1 & Hstep & Hc1 & Hv1 & Hkeep1 & Hnew1).
  rewrite (bind_ok _ _ _ _ _ Hstep).
  destruct (IH s1 Hc1 Hv1) as (Hok & Hc' & Hkeep & Hnew). fold body in Hok, Hc', Hkeep, Hnew.
  repeat split; try done.
  - intros k Hk. by apply Hkeep, Hkeep1.
  - intros it [->|Hin]%elem_of_cons Hne; [by apply Hkeep, Hnew1 | by apply Hnew].
Qed.

(** The connect path keeps the invariant of C5: after
    [_handle_connected] (no virtual providers registered), the new session
    is registered and every registered player lists exactly the other
    registered ids. *)
Lemma connected_establishes_can_sync_with (env : Env) (client : SlimClient.t)
    (s : Provider) :
  clients_keyed s → _virtual_providers s = ∅ →
  ∃ s',
    _handle_connected env client s = (s', Ok tt) ∧
    _socket_clients s'
      = <[SlimClient.player_id client := client]> (_socket_clients s) ∧
    can_sync_with_ok s'.
Proof.
  intros Hkeyed Hv.
  set (pid := SlimClient.player_id client).
  set (m := <[pid := client]> (_socket_clients s)).
  assert (Hm : ∀ k c, m !! k = Some c → SlimClient.player_id c = k).
  { intros k c. subst m. destruct (decide (k = pid)) as [->|Hne].
    - rewrite lookup_insert_eq. by intros [= <-].
    - rewrite lookup_insert_ne by done. apply Hkeyed. }
  set (sA := match _socket_clients s !! pid with
             | Some existing =>
                 with_sent (λ l, l ++ [(SlimClient.player_id existing, op_disconnect)])
                   (with_clients (delete pid) s)
             | None => s
             end).
  set (s0 := with_clients (<[pid := client]>) sA).
  assert (Hc0 : _socket_clients s0 = m).
  { subst s0 sA m. destruct (_socket_clients s !! pid); cbn; [|done].
    by rewrite insert_delete_eq. }
  assert (Hv0 : _virtual_providers s0 = ∅).
  { subst s0 sA. by destruct (_socket_clients s !! pid). }
  destruct (handle_player_update_effect client s0 Hv0)
    as (s1 & Hrun1 & Hc1 & Hv1 & Hnew1 & _).
  rewrite Hc0 in Hnew1, Hc1. fold pid in Hnew1.
  destruct (refresh_loop pid m (map_to_list m).*2 s1 Hc1 Hv1)
    as (Hok & Hc2 & Hkeep & Hnew).
  cbn zeta in Hok, Hc2, Hkeep, Hnew.
  destruct (for_each (map_to_list m).*2 _ s1) as [s2 r2] eqn:Hloop.
  cbn in Hok, Hc2, Hkeep, Hnew. subst r2.
  eexists. split; [|split].
  - unfold _handle_connected. fold pid.
    rewrite (bind_ok get_self _ s s s eq_refl).
    assert (Hpop :
      match _socket_clients s !! pid with
      | Some existing =>
          modify (with_clients (delete pid)) ;; send existing op_disconnect
      | None => pass
      end s = (sA, Ok tt)).
    { subst sA. by destruct (_socket_clients s !! pid). }
    rewrite (bind_ok _ _ _ _ _ Hpop).
    rewrite (bind_ok (modify _) _ sA s0 tt eq_refl).
    rewrite (bind_ok _ _ _ _ _ Hrun1).
    rewrite (bind_ok get_self _ s1 s1 s1 eq_refl).
    rewrite Hc1, (bind_ok _ _ _ _ _ Hloop).
    reflexivity.
  - cbn. by rewrite Hc2.
  - intros k Hk. unfold registered_ids in *. cbn in *. rewrite Hc2 in *.
    assert (Hgood : lists_others m s2 k).
    { destruct (decide (k = pid)) as [->|Hne]; [by apply Hkeep|].
      apply elem_of_dom in Hk as [item Hitem].
      rewrite <- (Hm _ _ Hitem). apply Hnew.
      - apply list_elem_of_fmap. exists (k, item).
        by rewrite elem_of_map_to_list.
      - by rewrite (Hm _ _ Hitem). }
    destruct Hgood as (p & Hp & Hl). exists p. split; [done|].
    rewrite Hl. by apply other_player_ids_set.
Qed.

(** C5 fails after a disconnect: with [aa] and [bb] connected each lists
    the other; once [bb] has disconnected, [aa] is the only registered id
    but its player still lists [bb]. *)
Theorem disconnect_leaves_can_sync_with_stale :
  Player.can_sync_with <$> players both_connected !! "aa" = Some ["bb"] ∧
  Player.can_sync_with <$> players both_connected !! "bb" = Some ["aa"] ∧
  elements (registered_ids bb_disconnected) = ["aa"] ∧
  Player.can_sync_with <$> players bb_disconnected !! "aa" = Some ["bb"] ∧
  ¬ can_sync_with_ok bb_disconnected.
Proof.
  assert (Hids : elements (registered_ids bb_disconnected) = ["aa"])
    by (vm_compute; reflexivity).
  assert (Hlist : Player.can_sync_with <$> players bb_disconnected !! "aa"
                  = Some ["bb"]) by (vm_compute; reflexivity).
  split; [vm_compute; reflexivity|]. split; [vm_compute; reflexivity|].
  split; [exact Hids|]. split; [exact Hlist|].
  intros Hok. destruct (Hok "aa") as (p & Hp & Hset).
  { apply elem_of_elements. rewrite Hids. apply list_elem_of_here. }
  rewrite Hp in Hlist. cbn in Hlist. injection Hlist as Hlist.
  rewrite Hlist in Hset.
  assert (Hbb : "bb" ∈ (list_to_set ["bb"] : gset string)) by set_solver.
  rewrite Hset in Hbb. apply elem_of_difference in Hbb as [Hbb _].
  apply elem_of_elements in Hbb. rewrite Hids in Hbb.
  apply list_elem_of_singleton in Hbb. discriminate.
Qed.

(** ** Buffer-coordinated start *)

(** While some sync client is not in [BUFFER_READY] at every pass, the loop
    is still running after any number of passes. *)
Lemma wait_for_childs_stuck (player_id : string) (world : nat → Provider) :
  (∀ k, childs_ready player_id (world k) = (world k, Ok false)) →
  ∀ fuel k, wait_for_childs fuel 0 player_id world k = None.
Proof.
  intros Hnot. induction fuel as [|fuel IH]; intros k; [done|].
  cbn. by rewrite Hnot.
Qed.

(** C1 fails on the time limit: with follower [bb] still buffering at every
    pass, the handler for the leader's BUFFER_READY event is still inside
    its polling loop after any number of passes (40 and beyond); it never
    sends the unpause frames. *)
Theorem buffer_ready_polls_forever (fuel : nat) (now : string → Q) :
  _handle_buffer_ready fuel (λ _, group_buffering) now
    (mk_client "aa" SlimPlayerState.BUFFER_READY 7000 0) = None.
Proof.
  unfold _handle_buffer_ready.
  replace (players group_buffering !! _)
    with (Some (mk_player "aa" PlayerState.PLAYING None {["aa"; "bb"]}))
    by (vm_compute; reflexivity).
  cbn [truthy Player.synced_to mk_player Player.group_childs Player.player_id].
  rewrite bool_decide_false by (by vm_compute).
  rewrite wait_for_childs_stuck; [done|].
  intros _. vm_compute. reflexivity.
Qed.

(** The loop of [start_play] that records the backoffs. *)
Lemma backoff_loop (now : string → Q) (cs : list SlimClient.t) :
  ∀ s, ∃ s',
    for_each cs (λ client,
      set_backoff (SlimClient.player_id client)
        (now (SlimClient.player_id client) + 1)%Q) s = (s', Ok tt) ∧
    sent s' = sent s ∧ _socket_clients s' = _socket_clients s ∧
    players s' = players s ∧
    (∀ c, c ∈ cs →
       _do_not_resync_before s' !! SlimClient.player_id c
         = Some (now (SlimClient.player_id c) + 1)%Q) ∧
    (∀ k, k ∉ SlimClient.player_id <$> cs →
       _do_not_resync_before s' !! k = _do_not_resync_before s !! k).
Proof.
  induction cs as [|c0 cs IH]; intros s.
  { exists s. repeat split; try done. intros c Hc. by apply elem_of_nil in Hc. }
  set (s1 := with_backoff
               (<[SlimClient.player_id c0 := (now (SlimClient.player_id c0) + 1)%Q]>) s).
  destruct (IH s1) as (s' & Hrun & Hsent & Hcl & Hpl & Hin & Hout).
  exists s'. split; [exact Hrun|]. do 3 (split; [done|]). split.
  - intros c [->|Hc]%elem_of_cons; [|by apply Hin].
    destruct (decide (SlimClient.player_id c0 ∈ SlimClient.player_id <$> cs))
      as [(c' & Heq & Hc')%list_elem_of_fmap|Hnot].
    + rewrite Heq. by apply Hin.
    + rewrite (Hout _ Hnot). subst s1. cbn. by rewrite lookup_insert_eq.
  - intros k [Hne Hk]%not_elem_of_cons. rewrite (Hout _ Hk). subst s1. cbn.
    by rewrite lookup_insert_ne.
Qed.

(** What [start_play] does on a group whose sessions have clocks more than
    20 ms away from wrapping: each registered member gets a backoff of one
    second and one [strm 'u'] with its jiffies plus 20; nobody else gets
    anything. *)
Lemma start_play_run (now : string → Q) (s : Provider) (player_id : string)
    (p : Player.t) :
  players s !! player_id = Some p → clients_keyed s →
  (∀ c, c ∈ sync_clients s player_id p → 0 ≤ SlimClient.jiffies c + 20 < 2 ^ 32) →
  ∃ s',
    start_play now player_id s = (s', Ok tt) ∧
    ∀ k,
      match member_session s player_id p k with
      | Some c =>
          sent_to k s' = sent_to k s ++ [op_send_strm "u" (SlimClient.jiffies c + 20)] ∧
          _do_not_resync_before s' !! k = Some (now k + 1)%Q
      | None =>
          sent_to k s' = sent_to k s ∧
          _do_not_resync_before s' !! k = _do_not_resync_before s !! k
      end.
Proof.
  intros Hp Hkeyed Hbound. unfold start_play.
  rewrite (bind_ok _ _ _ _ _ (get_sync_clients_run _ _ _ Hp)).
  set (cs := sync_clients s player_id p) in *.
  assert (Hnd : NoDup (SlimClient.player_id <$> cs)).
  { apply sync_clients_nodup; [exact Hkeyed | apply NoDup_elements]. }
  destruct (backoff_loop now cs s) as (s1 & Hrun1 & Hsent1 & _ & _ & Hin1 & Hout1).
  rewrite (bind_ok _ _ _ _ _ Hrun1).
  destruct (send_loop (λ c, Some (op_send_strm "u" (SlimClient.jiffies c + 20))) cs Hnd s1)
    as (s' & Hrun & Hsame & Hin & Hout).
  exists s'. split.
  { apply task_group_ok. rewrite <- Hrun. apply for_each_ext_in.
    intros c s2 Hc. unfold send_unpause_at.
    by rewrite bool_decide_true by (by apply Hbound). }
  assert (Hb : _do_not_resync_before s' = _do_not_resync_before s1)
    by (by destruct Hsame as (_ & _ & _ & ? & _)).
  assert (Hs1 : ∀ k, sent_to k s1 = sent_to k s)
    by (intros k; unfold sent_to; by rewrite Hsent1).
  intros k. rewrite Hb. destruct (member_session s player_id p k) as [c|] eqn:Hk.
  - pose proof (member_session_keyed _ _ _ _ _ Hkeyed Hk) as <-.
    assert (Hc : c ∈ cs) by (apply sync_clients_elem; eauto).
    by rewrite (Hin c Hc), Hs1, (Hin1 c Hc).
  - assert (Hnot : k ∉ SlimClient.player_id <$> cs).
    { intros (c & -> & (k' & Hc)%sync_clients_elem)%list_elem_of_fmap.
      rewrite (member_session_keyed _ _ _ _ _ Hkeyed Hc) in Hk. congruence. }
    by rewrite (Hout _ Hnot), Hs1, (Hout1 _ Hnot).
Qed.

(** With a member whose clock is within 20 ms of wrapping, [start_play]
    fails: the frame cannot hold the timestamp. *)
Lemma start_play_overflow (now : string → Q) (s : Provider) (player_id : string)
    (p : Player.t) (c : SlimClient.t) :
  players s !! player_id = Some p →
  c ∈ sync_clients s player_id p →
  ¬ (0 ≤ SlimClient.jiffies c + 20 < 2 ^ 32) →
  ∃ errors, (start_play now player_id s).2 = Raise (ExceptionGroup errors).
Proof.
  intros Hp Hc Hbad. unfold start_play.
  rewrite (bind_ok _ _ _ _ _ (get_sync_clients_run _ _ _ Hp)).
  destruct (backoff_loop now (sync_clients s player_id p) s) as (s1 & Hrun1 & _).
  rewrite (bind_ok _ _ _ _ _ Hrun1).
  apply task_group_raises. exists c. split; [done|].
  intros s2. unfold send_unpause_at. by rewrite bool_decide_false.
Qed.

(** The start of the group, once every sync client is in [BUFFER_READY]
    at the first pass: every registered member of the leader's group is
    sent [strm 'u'] with its own jiffies plus 20, and gets a backoff of one
    second.  The timestamps must fit the frame's 32-bit field. *)
Lemma buffer_ready_fan_out (fuel : nat) (world : nat → Provider)
    (now : string → Q) (client : SlimClient.t) (p : Player.t) :
  players (world O) !! SlimClient.player_id client = Some p →
  Player.player_id p = SlimClient.player_id client →
  truthy (Player.synced_to p) = false →
  Player.group_childs p ≠ ∅ →
  clients_keyed (world O) →
  childs_ready (SlimClient.player_id client) (world O) = (world O, Ok true) →
  (∀ c, c ∈ sync_clients (world O) (SlimClient.player_id client) p →
     0 ≤ SlimClient.jiffies c + 20 < 2 ^ 32) →
  ∃ s',
    _handle_buffer_ready (S fuel) world now client = Some (s', Ok tt) ∧
    ∀ k c, k ∈ {[SlimClient.player_id client]} ∪ Player.group_childs p →
      _socket_clients (world O) !! k = Some c →
      sent_to k s' = sent_to k (world O) ++ [op_send_strm "u" (SlimClient.jiffies c + 20)] ∧
      _do_not_resync_before s' !! k = Some (now k + 1)%Q.
Proof.
  intros Hp Hid Hs Hg Hkeyed Hready Hbound. unfold _handle_buffer_ready.
  rewrite Hp, Hs, bool_decide_false by done. cbn [wait_for_childs].
  rewrite Hid. cbn [Z.ltb Z.compare]. rewrite Hready.
  destruct (start_play_run now (world O) _ p Hp Hkeyed Hbound) as (s' & Hrun & Hall).
  exists s'. split; [by rewrite Hrun|].
  intros k c Hk Hc. specialize (Hall k). unfold member_session in Hall.
  by rewrite bool_decide_true, Hc in Hall.
Qed.

(** Once every member is in [BUFFER_READY], each of them is sent
    [strm 'u'] with its own jiffies plus 20, and gets a backoff of one
    second. *)
Example buffer_ready_starts_the_group :
  ∃ s, _handle_buffer_ready 1 (λ _, group_buffered) (λ _, 100%Q)
         (mk_client "aa" SlimPlayerState.BUFFER_READY 7000 0) = Some (s, Ok tt) ∧
       sent_to "aa" s = [op_send_strm "u" 7020] ∧
       sent_to "bb" s = [op_send_strm "u" 5020] ∧
       _do_not_resync_before s !! "aa" = Some (100 + 1)%Q ∧
       _do_not_resync_before s !! "bb" = Some (100 + 1)%Q.
Proof. eexists. split; [vm_compute; reflexivity|]. vm_compute. done. Qed.

(** ** Single-player play *)

(** The session has buffered: it is in [BUFFER_READY] (with its clock at
    [jiffies]) when its handler runs. *)
Lemma buffer_ready_of_single (player_id : string) (client : SlimClient.t)
    (w : Provider) (p : Player.t) :
  players w !! SlimClient.player_id client = Some p →
  truthy (Player.synced_to p) = false →
  Player.group_childs p = ∅ →
  ∀ fuel world now, world O = w →
    ∃ s2, _handle_buffer_ready fuel world now client = Some (s2, Ok tt) ∧
          sent s2 = sent w ++ [(SlimClient.player_id client, op_play)].
Proof.
  intros Hp Hs Hg fuel world now Hw. unfold _handle_buffer_ready.
  rewrite Hw, Hp, Hs, Hg. rewrite bool_decide_true by done.
  unfold client_play, send. rewrite bind_modify.
  destruct (signal_state_log client SlimPlayerState.PLAYING
              (with_sent (λ l, l ++ [(SlimClient.player_id client, op_play)]) w))
    as (s2 & Hrun & Hsent).
  exists s2. by rewrite Hrun, Hsent.
Qed.

(** C7 as stated fails: after [play_url] with autostart, the BUFFER_READY
    event of the ungrouped player makes the handler call the session's
    [play], a further operation on that session.  (What is shown is the
    call of the session's method; the frame that the call writes is the
    library's.) *)
Lemma buffer_ready_after_autostart_sends_play :
  let pid := "aa:bb:cc:dd:ee:01" in
  let client := mk_client pid SlimPlayerState.BUFFER_READY 7100 0 in
  let s1 := (cmd_play_url env_j1 pid "http://x/y.flac" None single_player).1 in
  let buffered := with_clients (<[pid := client]>) s1 in
  sent_to pid s1
    = [op_play_url "http://x/y.flac" "audio/flac" None true false 0 true] ∧
  ∃ s2, _handle_buffer_ready 0 (λ _, buffered) (λ _, 0%Q) client = Some (s2, Ok tt) ∧
        sent_to pid s2
          = [op_play_url "http://x/y.flac" "audio/flac" None true false 0 true;
             op_play].
Proof.
  cbn zeta. split; [vm_compute; reflexivity|].
  eexists. split; [vm_compute; reflexivity|]. vm_compute. reflexivity.
Qed.

(** C7, amended: for a registered player with no leader and no followers,
    [cmd_play_url] of an http url hands its session one [play_url] with
    autostart set (after a stop, when the session was not stopped), and
    nothing to any other session; the session is left buffering, and the
    player keeps its links.  When the session of a player with these links
    then reports BUFFER_READY, the handler calls [play] on that session
    once.  A registered virtual provider is assumed to leave the links of
    a player alone. *)
Theorem single_player_play_then_buffer_ready (env : Env) (player_id url : string)
    (queue_item : option QueueItem) (s : Provider) (p : Player.t)
    (c : SlimClient.t) :
  players s !! player_id = Some p →
  truthy (Player.synced_to p) = false →
  Player.group_childs p = ∅ →
  _socket_clients s !! player_id = Some c →
  SlimClient.player_id c = player_id →
  String.prefix "http" url = true →
  callbacks_keep_links s →
  ∃ s1,
    cmd_play_url env player_id url queue_item s = (s1, Ok tt) ∧
    sent s1 = sent s
      ++ (if SlimPlayerState.eqb (SlimClient.state c) SlimPlayerState.STOPPED
          then [] else [(player_id, op_stop)])
      ++ [(player_id,
           op_play_url url (mime_type_of url)
             ((λ qi, (queue_item_id qi, qi_name qi)) <$> queue_item)
             true false 0 true)] ∧
    SlimClient.state <$> _socket_clients s1 !! player_id
      = Some SlimPlayerState.BUFFERING ∧
    membership s1 player_id = membership s player_id ∧
    ∀ fuel world now client,
      membership (world O) player_id = membership s1 player_id →
      SlimClient.player_id client = player_id →
      ∃ s2, _handle_buffer_ready fuel world now client = Some (s2, Ok tt) ∧
            sent s2 = sent (world O) ++ [(player_id, op_play)].
Proof.
  intros Hp Hs Hg Hc Hid Hurl Hcb.
  assert (Hstop : ∃ s0, cmd_stop player_id s = (s0, Ok tt) ∧
            refreshed s s0 ∧
            _socket_clients s0 !! player_id
              = Some (SlimClient.set_state SlimPlayerState.STOPPED c) ∧
            sent s0 = sent s
              ++ (if SlimPlayerState.eqb (SlimClient.state c) SlimPlayerState.STOPPED
                  then [] else [(player_id, op_stop)])).
  { destruct (cmd_stop_single _ _ _ _ Hp Hg Hc Hcb) as (s0 & Hrun & Hact).
    exists s0. split; [done|]. revert Hact.
    unfold stop_act, act_of, stop_op, SlimPlayerState.eqb. case_bool_decide as Hst; cbn.
    - intros ->. split; [apply refreshed_refl|].
      by rewrite Hc, set_state_same, app_nil_r.
    - intros (Href & Hsent & Hcl & _). rewrite Hid in Hsent, Hcl.
      by rewrite Hcl, lookup_alter_eq, Hc. }
  destruct Hstop as (s0 & Hstop & Href0 & Hc0 & Hsent0).
  set (c0 := SlimClient.set_state SlimPlayerState.STOPPED c) in *.
  destruct (refreshed_player _ _ _ _ Href0 Hp) as (p0 & Hp0 & _ & Hs0 & Hg0).
  destruct (play_url_step env c0 url queue_item true false true s0 Hurl)
    as (s1 & Hplay & Href1 & Hsent1 & Hcl1 & _).
  { by eapply refreshed_callbacks. }
  assert (Hid0 : SlimClient.player_id c0 = player_id) by done.
  rewrite Hid0 in Hsent1, Hcl1.
  assert (Href : refreshed s s1) by by eapply refreshed_trans.
  destruct (refreshed_player _ _ _ _ Href Hp) as (p1 & Hp1 & _ & Hs1 & Hg1).
  assert (Hm1 : membership s1 player_id = membership s player_id).
  { unfold membership. rewrite Hp1, Hp. cbn. by rewrite Hs1, Hg1. }
  exists s1. split; [|split; [|split; [|split; [done|]]]].
  - unfold cmd_play_url. rewrite (bind_ok _ _ _ _ _ Hstop).
    unfold players_get at 1. unfold mbind at 1, M_bind at 1.
    rewrite Hp0, Hs0, Hs.
    rewrite (bind_ok _ _ _ _ _ (get_sync_clients_run _ _ _ Hp0)).
    assert (Hsc : sync_clients s0 player_id p0 = [c0]).
    { unfold sync_clients. rewrite Hg0, Hg, elements_self_only. cbn.
      by rewrite Hc0. }
    rewrite Hsc. cbn [length Nat.eqb].
    apply task_group_ok. cbn [for_each]. by rewrite (bind_ok _ _ _ _ _ Hplay).
  - rewrite Hsent1, Hsent0. cbn. by rewrite <- app_assoc.
  - by rewrite Hcl1, lookup_alter_eq, Hc0.
  - intros fuel world now client Hw Hcid.
    rewrite Hm1 in Hw. unfold membership in Hw. rewrite Hp in Hw.
    destruct (players (world O) !! player_id) as [pw|] eqn:Hpw; [|done].
    cbn in Hw. injection Hw as Hsw Hgw.
    rewrite <- Hcid in Hpw |- *.
    apply (buffer_ready_of_single (SlimClient.player_id client) client (world O) pw);
      [done| |congruence|done].
    by rewrite Hsw.
Qed.

Lemma single_player_play_then_buffer_ready_witness :
  let pid := "aa:bb:cc:dd:ee:01" in
  ∃ s1,
    cmd_play_url env_j1 pid "http://x/y.flac" None single_player = (s1, Ok tt) ∧
    sent s1 = sent single_player ++ []
      ++ [(pid, op_play_url "http://x/y.flac" (mime_type_of "http://x/y.flac")
                  None true false 0 true)] ∧
    SlimClient.state <$> _socket_clients s1 !! pid = Some SlimPlayerState.BUFFERING ∧
    membership s1 pid = membership single_player pid ∧
    ∀ fuel world now client,
      membership (world O) pid = membership s1 pid →
      SlimClient.player_id client = pid →
      ∃ s2, _handle_buffer_ready fuel world now client = Some (s2, Ok tt) ∧
            sent s2 = sent (world O) ++ [(pid, op_play)].
Proof.
  apply (single_player_play_then_buffer_ready env_j1 "aa:bb:cc:dd:ee:01"
           "http://x/y.flac" None single_player
           (mk_player "aa:bb:cc:dd:ee:01" PlayerState.IDLE None ∅)
           (mk_client "aa:bb:cc:dd:ee:01" SlimPlayerState.STOPPED 7000 0));
    first [reflexivity | by apply no_callbacks].
Defined.

(** ** Drift controller *)

Lemma Qltb_lt (a b : Q) : Qltb a b = true ↔ (a < b)%Q.
Proof.
  unfold Qltb. rewrite negb_true_iff, <- not_true_iff_false, Qle_bool_iff.
  split; [apply Qnot_le_lt | apply Qlt_not_le].
Qed.

Lemma Qltb_ge (a b : Q) : Qltb a b = false ↔ (b <= a)%Q.
Proof. unfold Qltb. by rewrite negb_false_iff, Qle_bool_iff. Qed.

(** [int] of a non-negative float is its floor. *)
Lemma py_int_floor (q : Q) :
  (0 <= q)%Q → (inject_Z (py_int q) <= q)%Q ∧ (q < inject_Z (py_int q) + 1)%Q.
Proof.
  destruct q as [n d]. unfold Qle, Qlt, py_int, Qplus, inject_Z.
  cbn [Qnum Qden]. intros Hn.
  assert (0 ≤ n) by lia.
  rewrite Z.quot_div_nonneg by lia.
  pose proof (Z.mul_div_le n (Z.pos d)).
  pose proof (Z.mul_succ_div_gt n (Z.pos d)).
  split; cbn [Pos.mul]; lia.
Qed.

Lemma deque_append_length {A} (n : nat) (x : A) (l : list A) :
  (0 < n)%nat → (length (deque_append n x l) ≤ n)%nat.
Proof. intros Hn. unfold deque_append. rewrite length_drop. lia. Qed.

Lemma invalidate_clears (now : Q) (job : string) (ring : list SyncPlayPoint)
    (lp : SyncPlayPoint) :
  last ring = Some lp →
  (10 < now - timestamp lp)%Q ∨ sync_job_id lp ≠ job →
  invalidate now job ring = [].
Proof.
  intros Hlast Hwhy. unfold invalidate. rewrite Hlast.
  destruct (negb (String.eqb (sync_job_id lp) job)) eqn:Hjob; [done|].
  destruct Hwhy as [Hold|Hne].
  - apply Qltb_lt in Hold. by rewrite Hold.
  - apply negb_false_iff, String.eqb_eq in Hjob. done.
Qed.

Section DriftController.
Variables (env : Env) (tm : Times) (s : Provider).
Variables (client master : SlimClient.t) (p : Player.t) (leader : string).
Variable job : StreamJob.

Hypothesis Hplayer : players s !! SlimClient.player_id client = Some p.
Hypothesis Hleader : Player.synced_to p = Some leader.
Hypothesis Hleader_id : leader ≠ "".
Hypothesis Hmaster : _socket_clients s !! leader = Some master.
Hypothesis Hmaster_playing : SlimClient.state master = SlimPlayerState.PLAYING.
Hypothesis Hclient_playing : SlimClient.state client = SlimPlayerState.PLAYING.
Hypothesis Hno_backoff :
  backing_off (t_backoff tm)
    (_do_not_resync_before s !! SlimClient.player_id client) = false.
Hypothesis Hjob :
  multi_client_jobs env !! get_active_queue env (SlimClient.player_id client)
    = Some job.

(** Past its guards, the handler stores the new ring and decides on it. *)
Lemma handle_client_sync_step :
  let pid := SlimClient.player_id client in
  let ring := ring_after env tm s job master client in
  let avg_diff := fmean ring in
  let delta := Qabs avg_diff in
  let s1 := with_playpoints (<[pid := ring]>)
              (with_playpoints (<[pid := ring_before s client]>) s) in
  _handle_client_sync env tm client s =
    if (length ring <? MIN_REQ_PLAYPOINTS)%nat then (s1, Ok tt)
    else if Qltb delta MIN_DEVIATION_ADJUST then (s1, Ok tt)
    else if Qltb 0 avg_diff then
      (with_tasks (λ l, l ++ [task_skip_over pid delta])
         (with_backoff (<[pid := (t_set tm + 2)%Q]>)
            (with_playpoints (<[pid := []]>) s1)), Ok tt)
    else
      (with_tasks (λ l, l ++ [task_pause_for pid delta])
         (with_backoff (<[pid := (t_set tm + delta / 1000 + 2)%Q]>)
            (with_playpoints (<[pid := []]>) s1)), Ok tt).
Proof.
  cbn zeta. unfold _handle_client_sync. munfold.
  rewrite Hplayer, Hleader. cbn.
  rewrite (proj2 (String.eqb_neq _ _) Hleader_id). cbn.
  rewrite Hmaster, Hmaster_playing, Hclient_playing. cbn.
  rewrite Hno_backoff, Hjob. cbn.
  fold (ring_before s client). fold (new_playpoint env tm job master client).
  fold (ring_after env tm s job master client).
  unfold SlimPlayerState.eqb. rewrite bool_decide_true by done. cbn [negb].
  destruct (Nat.leb _ _); [done|].
  destruct (Qltb _ MIN_DEVIATION_ADJUST); [done|].
  by destruct (Qltb 0 _).
Qed.


(** C4, amended: when the newest playpoint in the ring is more than 10
    seconds old, or belongs to another job than the current one, the ring is
    cleared and the handler goes on: the playpoint of this heartbeat is
    appended, so the ring then holds exactly that one playpoint, and no
    correction is made on this heartbeat. *)
Theorem stale_ring_restarts_with_new_playpoint (lp : SyncPlayPoint) :
  last (ring_before s client) = Some lp →
  (10 < t_age tm - timestamp lp)%Q ∨ sync_job_id lp ≠ job_id job →
  ∃ s',
    _handle_client_sync env tm client s = (s', Ok tt) ∧
    _sync_playpoints s' !! SlimClient.player_id client
      = Some [new_playpoint env tm job master client] ∧
    no_correction s s'.
Proof.
  intros Hlast Hwhy. rewrite handle_client_sync_step. cbn zeta.
  unfold ring_after. rewrite (invalidate_clears _ _ _ _ Hlast Hwhy).
  cbn. eexists. split; [reflexivity|]. cbn.
  by rewrite lookup_insert_eq.
Qed.

(** C3, amended: past the guards of the handler (leader registered and
    playing, follower playing, no backoff running, a stream job present),
    with the ring taken after the heartbeat's playpoint is in:
    a ring of fewer than 4 playpoints, or a mean diff with |mean| < 10, is
    stored and no correction is made; a full ring (4 playpoints) with
    |mean| >= 10 is cleared, and for mean > 0 the backoff becomes now + 2 s
    and [_skip_over] is scheduled with |mean|, whose [strm 'a'] frame
    carries |mean| truncated to whole milliseconds, while for mean < 0 the
    backoff becomes now + (|mean|/1000 + 2) s and [_pause_for] is scheduled
    with |mean|, whose [strm 'p'] frame carries |mean| truncated likewise. *)
Theorem drift_correction (c : SlimClient.t) :
  _socket_clients s !! SlimClient.player_id client = Some c →
  SlimClient.player_id c = SlimClient.player_id client →
  let pid := SlimClient.player_id client in
  let points := ring_after env tm s job master client in
  let mean := fmean points in
  ∃ s',
    _handle_client_sync env tm client s = (s', Ok tt) ∧
    (length points ≤ 4)%nat ∧
    ((length points < 4)%nat ∨ (Qabs mean < 10)%Q →
       _sync_playpoints s' !! pid = Some points ∧ no_correction s s') ∧
    (length points = 4%nat → (10 <= Qabs mean)%Q → (0 < mean)%Q →
       _sync_playpoints s' !! pid = Some [] ∧
       _do_not_resync_before s' !! pid = Some (t_set tm + 2)%Q ∧
       tasks s' = tasks s ++ [task_skip_over pid (Qabs mean)] ∧
       ∃ gain,
         sent (_skip_over pid (Qabs mean) s').1
           = sent s ++ [(pid, op_send_strm "a" gain)] ∧
         (inject_Z gain <= Qabs mean)%Q ∧ (Qabs mean < inject_Z gain + 1)%Q) ∧
    (length points = 4%nat → (10 <= Qabs mean)%Q → (mean < 0)%Q →
       _sync_playpoints s' !! pid = Some [] ∧
       (∃ b, _do_not_resync_before s' !! pid = Some b ∧
             (b == t_set tm + (Qabs mean / 1000 + 2))%Q) ∧
       tasks s' = tasks s ++ [task_pause_for pid (Qabs mean)] ∧
       ∃ gain,
         sent (_pause_for pid (Qabs mean) s').1
           = sent s ++ [(pid, op_send_strm "p" gain)] ∧
         (inject_Z gain <= Qabs mean)%Q ∧ (Qabs mean < inject_Z gain + 1)%Q).
Proof.
  intros Hc Hcid pid points mean. rewrite handle_client_sync_step. cbn zeta.
  fold points mean. subst pid.
  assert (Hlen : (length points ≤ 4)%nat).
  { apply (deque_append_length MIN_REQ_PLAYPOINTS). unfold MIN_REQ_PLAYPOINTS. lia. }
  pose proof (py_int_floor (Qabs mean) (Qabs_nonneg mean)) as [Hlo Hhi].
  unfold MIN_REQ_PLAYPOINTS, MIN_DEVIATION_ADJUST.
  destruct (length points <? 4)%nat eqn:Hl.
  { apply Nat.ltb_lt in Hl. eexists. split; [reflexivity|]. cbn.
    rewrite lookup_insert_eq. split; [done|]. split; [done|].
    split; intros; lia. }
  apply Nat.ltb_ge in Hl.
  destruct (Qltb (Qabs mean) 10) eqn:Hd.
  { apply Qltb_lt in Hd. eexists. split; [reflexivity|]. cbn.
    rewrite lookup_insert_eq. split; [done|]. split; [done|].
    split; intros _ Hge _; destruct (Qlt_not_le _ _ Hd Hge). }
  apply Qltb_ge in Hd.
  assert (Hband : (length points < 4)%nat ∨ (Qabs mean < 10)%Q → False).
  { intros [?|Hlt]; [lia|]. exact (Qlt_not_le _ _ Hlt Hd). }
  destruct (Qltb 0 mean) eqn:Hm.
  - apply Qltb_lt in Hm. eexists. split; [reflexivity|]. cbn.
    rewrite !lookup_insert_eq. split; [done|].
    split; [by intros ?%Hband|]. split.
    + intros _ _ _. repeat split. exists (py_int (Qabs mean)).
      unfold _skip_over. munfold. cbn [_socket_clients with_tasks with_backoff with_playpoints].
      rewrite Hc. cbn. rewrite Hcid. by repeat split.
    + intros _ _ Hneg. destruct (Qlt_irrefl 0). by apply Qlt_trans with mean.
  - apply Qltb_ge in Hm. eexists. split; [reflexivity|]. cbn.
    rewrite !lookup_insert_eq. split; [done|].
    split; [by intros ?%Hband|]. split.
    + intros _ _ Hpos. destruct (Qlt_not_le _ _ Hpos Hm).
    + intros _ _ _. split; [done|]. split.
      { eexists. split; [reflexivity|]. ring. }
      split; [done|]. exists (py_int (Qabs mean)).
      unfold _pause_for. munfold. cbn [_socket_clients with_tasks with_backoff with_playpoints].
      rewrite Hc. cbn. rewrite Hcid. by repeat split.
Qed.

End DriftController.

Lemma stale_ring_restarts_with_new_playpoint_witness :
  ∃ s',
    _handle_client_sync env_j1 at_100 client_bb group_stale = (s', Ok tt) ∧
    _sync_playpoints s' !! "bb" = Some [new_playpoint env_j1 at_100 job_j1 client_aa client_bb] ∧
    no_correction group_stale s'.
Proof.
  apply (stale_ring_restarts_with_new_playpoint env_j1 at_100 group_stale
           client_bb client_aa (mk_player "bb" PlayerState.PLAYING (Some "aa") ∅)
           "aa" job_j1) with (lp := playpoint 50 "j1" 10);
    try reflexivity; try discriminate.
  left. reflexivity.
Defined.

(** C4 as stated fails: after an invalidation (the last playpoint is 50
    seconds old; or it belongs to job [j0] while [j1] is playing) the ring
    is not empty: it holds the playpoint of this heartbeat. *)
Lemma invalidated_ring_holds_the_new_playpoint :
  (last (ring_before group_stale client_bb) = Some (playpoint 50 "j1" 10) ∧
   ∃ s', _handle_client_sync env_j1 at_100 client_bb group_stale = (s', Ok tt) ∧
         _sync_playpoints s' !! "bb" = Some [playpoint 100 "j1" 11]) ∧
  (last (ring_before group_restarted client_bb) = Some (playpoint 99 "j0" 10) ∧
   ∃ s', _handle_client_sync env_j1 at_100 client_bb group_restarted = (s', Ok tt) ∧
         _sync_playpoints s' !! "bb" = Some [playpoint 100 "j1" 11]).
Proof.
  split; (split; [reflexivity|]); eexists;
    (split; [vm_compute; reflexivity|]); vm_compute; reflexivity.
Qed.

Lemma drift_correction_witness :
  ∃ s',
    _handle_client_sync env_j1 at_100 client_bb group_drifting = (s', Ok tt) ∧
    _sync_playpoints s' !! "bb" = Some [] ∧
    _do_not_resync_before s' !! "bb" = Some (100 + 2)%Q ∧
    tasks s' = [task_skip_over "bb" (41 # 4)] ∧
    sent (_skip_over "bb" (41 # 4) s').1 = [("bb", op_send_strm "a" 10)].
Proof.
  destruct (drift_correction env_j1 at_100 group_drifting client_bb client_aa
              (mk_player "bb" PlayerState.PLAYING (Some "aa") ∅) "aa" job_j1)
    with (c := client_bb)
    as (s' & Hrun & _ & _ & Hlag & _);
    try reflexivity; try discriminate.
  exists s'. split; [exact Hrun|].
  destruct Hlag as (Hring & Hback & Htasks & gain & Hsent & Hlo & Hhi);
    try reflexivity; try discriminate.
  split; [exact Hring|]. split; [exact Hback|].
  assert (Hmean : Qabs (fmean (ring_after env_j1 at_100 group_drifting job_j1
                                   client_aa client_bb)) = 41 # 4)
    by (vm_compute; reflexivity).
  rewrite Hmean in Hlo, Hhi, Htasks, Hsent.
  split; [exact Htasks|].
  assert (gain = 10) as ->; [|exact Hsent].
  revert Hlo Hhi. unfold Qle, Qlt, Qplus, inject_Z. cbn [Qnum Qden]. lia.
Defined.

(** C3 as stated fails on the size of the correction: with diffs 10, 10,
    10 and 11 the mean is 10.25 ms, the scheduled skip is of 10.25 ms, and
    the [strm 'a'] frame carries 10. *)
Lemma skip_ahead_frame_is_truncated :
  let s' := (_handle_client_sync env_j1 at_100 client_bb group_drifting).1 in
  (fmean (ring_after env_j1 at_100 group_drifting job_j1 client_aa client_bb)
     == 41 # 4)%Q ∧
  tasks s' = [task_skip_over "bb" (41 # 4)] ∧
  sent (for_each (tasks s') run_task s').1 = [("bb", op_send_strm "a" 10)] ∧
  ¬ (inject_Z 10 == 41 # 4)%Q.
Proof.
  cbn zeta. split; [reflexivity|]. split; [vm_compute; reflexivity|].
  split; [vm_compute; reflexivity|]. discriminate.
Qed.

(** The band: four diffs of 9 or of -9 cause no correction; four diffs of
    10 cause a skip of 10 ms with a backoff of 2 s, four diffs of -10 a
    pause of 10 ms with a backoff of 2.01 s; three playpoints cause
    nothing, whatever their diffs. *)
Example deviation_band :
  let follower e := mk_client "bb" SlimPlayerState.PLAYING 5000 e in
  let three d := with_ring [playpoint 97 "j1" d; playpoint 98 "j1" d; playpoint 99 "j1" d] group_playing in
  let two d := with_ring [playpoint 98 "j1" d; playpoint 99 "j1" d] group_playing in
  let run e s := (_handle_client_sync env_j1 at_100 (follower e) s).1 in
  tasks (run 1002 (three 9)) = [] ∧
  tasks (run 1020 (three (-9))) = [] ∧
  tasks (run 1001 (three 10)) = [task_skip_over "bb" (40 # 4)] ∧
  _do_not_resync_before (run 1001 (three 10)) !! "bb" = Some (100 + 2)%Q ∧
  tasks (run 1021 (three (-10))) = [task_pause_for "bb" (40 # 4)] ∧
  _do_not_resync_before (run 1021 (three (-10))) !! "bb"
    = Some (100 + (40 # 4) / 1000 + 2)%Q ∧
  tasks (run 911 (two 100)) = [] ∧
  length <$> _sync_playpoints (run 911 (two 100)) !! "bb" = Some 3%nat.
Proof. cbn zeta. repeat split; vm_compute; reflexivity. Qed.

Lemma sync_unsync_round_trip_witness :
  ∃ s1 s2,
    cmd_sync env_j1 "cc" "aa" group_playing = (s1, Ok tt) ∧
    membership s1 "cc" = Some (Some "aa", ∅) ∧
    membership s1 "aa" = Some (None, {["aa"; "cc"]} ∪ Player.group_childs leader_aa) ∧
    cmd_unsync "cc" s1 = (s2, Ok tt) ∧
    membership s2 "cc" = Some (None, ∅) ∧
    membership s2 "aa" = Some (None, Player.group_childs leader_aa) ∧
    ∀ k p, players group_playing !! k = Some p →
      membership s2 k = membership group_playing k.
Proof.
  apply (sync_unsync_round_trip env_j1 "cc" "aa" group_playing
           (mk_player "cc" PlayerState.IDLE None ∅) leader_aa);
    try first [reflexivity | discriminate | by apply no_callbacks].
  right. cbn. split; [set_solver|]. split; [set_solver|].
  intros Heq. assert (Hbb : "bb" ∈ ({["aa"]} : gset string)); [|set_solver].
  rewrite <- Heq. set_solver.
Defined.

(** * Further properties *)

(** ** After a fan-out *)

Lemma sent_to_with_clients k f s : sent_to k (with_clients f s) = sent_to k s.
Proof. reflexivity. Qed.

(** When the operation that a command hands a session leaves the session in
    a state in which the command skips it, every session of the group is
    skipped after the fan-out. *)
Lemma members_after (f : SlimClient.t → option SessionOp)
    (st : SlimPlayerState.t) (s s' : Provider) (player_id : string)
    (p p' : Player.t) :
  (∀ k, outcome s s' k (reached (act_of f st) s player_id p k)) →
  Player.group_childs p' = Player.group_childs p →
  (∀ c, is_Some (f c) → f (SlimClient.set_state st c) = None) →
  ∀ c', c' ∈ sync_clients s' player_id p' → f c' = None.
Proof.
  intros Hall Hg Hquiet c' (k & Hk)%sync_clients_elem.
  rewrite (member_session_group _ _ _ _ _ Hg) in Hk.
  destruct (outcome_act_of _ _ _ _ _ _ _ (Hall k)) as (_ & Hcl & _).
  unfold member_session in Hk, Hcl. case_bool_decide; [|done].
  rewrite Hcl in Hk. destruct (_socket_clients s !! k) as [c|]; [|done].
  injection Hk as <-. destruct (f c) as [op|] eqn:Hf; [|done].
  apply Hquiet. by rewrite Hf.
Qed.

(** A fan-out over sessions that are all skipped does nothing. *)
Lemma filtered_out {A} (P : A → Prop) `{∀ x, Decision (P x)} (xs : list A)
    (body : A → M unit) s :
  (∀ x, x ∈ xs → ¬ P x) → task_group (filter P xs) body s = (s, Ok tt).
Proof.
  intros Hnot. apply task_group_ok. rewrite for_each_filter.
  apply for_each_pass. intros x Hx s1. by rewrite decide_False by by apply Hnot.
Qed.

Lemma omap_lookup_fmap {A} (g : A → A) (m m' : gmap string A) (l : list string) :
  (∀ k, k ∈ l → m' !! k = g <$> m !! k) →
  omap (λ k, m' !! k) l = g <$> omap (λ k, m !! k) l.
Proof.
  induction l as [|k l IH]; intros Hl; [done|]. cbn.
  rewrite (Hl k (list_elem_of_here _ _)).
  rewrite IH by (intros k' Hk'; apply Hl; by apply list_elem_of_further).
  by destruct (m !! k).
Qed.

Lemma sync_clients_fmap (g : SlimClient.t → SlimClient.t) (s s' : Provider)
    (player_id : string) (p : Player.t) :
  (∀ k, member_session s' player_id p k = g <$> member_session s player_id p k) →
  sync_clients s' player_id p = g <$> sync_clients s player_id p.
Proof.
  intros Hmem. apply omap_lookup_fmap. intros k Hk%elem_of_elements.
  specialize (Hmem k). unfold member_session in Hmem.
  by rewrite bool_decide_true in Hmem.
Qed.

(** ** Play and pause *)

Lemma play_op_quiet (c : SlimClient.t) :
  is_Some (play_op c) → play_op (SlimClient.set_state SlimPlayerState.PLAYING c) = None.
Proof. done. Qed.

Lemma pause_op_quiet (c : SlimClient.t) :
  is_Some (pause_op c) → pause_op (SlimClient.set_state SlimPlayerState.PAUSED c) = None.
Proof. done. Qed.

Lemma stop_op_quiet (c : SlimClient.t) :
  is_Some (stop_op c) → stop_op (SlimClient.set_state SlimPlayerState.STOPPED c) = None.
Proof. done. Qed.

(** X3: [cmd_play] and [cmd_pause] on a registered player never fail.  A
    session of the player's group is handed [play] exactly when it is
    paused, buffering or buffer-ready, and [pause] exactly when it is
    playing, buffering or buffer-ready; every other session is handed
    nothing and stays as it is.  A paused session that is handed [play] is
    playing afterwards, and a playing session that is handed [pause] is
    paused afterwards.  Besides the sessions and the log, the command only
    refreshes players, whose links stay.  When no session of the group is
    buffering or buffer-ready, the same command given again finds nothing
    to do.  Sessions are registered under their own ids, and a registered
    virtual provider is assumed to leave the links of a player alone. *)
Theorem play_and_pause_are_selective (player_id : string) (s : Provider)
    (p : Player.t) :
  players s !! player_id = Some p →
  clients_keyed s → callbacks_keep_links s →
  let settled :=
    ∀ c, c ∈ sync_clients s player_id p →
      SlimClient.state c ≠ SlimPlayerState.BUFFERING ∧
      SlimClient.state c ≠ SlimPlayerState.BUFFER_READY in
  (∃ s', cmd_play player_id s = (s', Ok tt) ∧ refreshed s s' ∧
     (∀ k,
        sent_to k s' = sent_to k s ++ ops_for play_op (member_session s player_id p k) ∧
        match member_session s player_id p k with
        | Some c =>
            (SlimClient.state c = SlimPlayerState.PAUSED →
             _socket_clients s' !! k
               = Some (SlimClient.set_state SlimPlayerState.PLAYING c)) ∧
            (play_op c = None → _socket_clients s' !! k = Some c)
        | None => _socket_clients s' !! k = _socket_clients s !! k
        end) ∧
     (settled → cmd_play player_id s' = (s', Ok tt))) ∧
  (∃ s', cmd_pause player_id s = (s', Ok tt) ∧ refreshed s s' ∧
     (∀ k,
        sent_to k s' = sent_to k s ++ ops_for pause_op (member_session s player_id p k) ∧
        match member_session s player_id p k with
        | Some c =>
            (SlimClient.state c = SlimPlayerState.PLAYING →
             _socket_clients s' !! k
               = Some (SlimClient.set_state SlimPlayerState.PAUSED c)) ∧
            (pause_op c = None → _socket_clients s' !! k = Some c)
        | None => _socket_clients s' !! k = _socket_clients s !! k
        end) ∧
     (settled → cmd_pause player_id s' = (s', Ok tt))).
Proof.
  intros Hp Hkeyed Hcb settled. split.
  - destruct (cmd_play_effect _ _ _ Hp Hkeyed Hcb) as (s' & Hrun & Href & _ & Hall).
    exists s'. split; [done|]. split; [done|]. split.
    + intros k. destruct (outcome_act_of _ _ _ _ _ _ _ (Hall k)) as (Hsent & Hcl & _).
      split; [done|]. rewrite Hcl.
      destruct (member_session s player_id p k) as [c|]; [|done].
      split; [|by intros ->]. unfold play_op. by intros ->.
    + intros _.
      destruct (refreshed_player _ _ _ _ Href Hp) as (p' & Hp' & _ & _ & Hg).
      unfold cmd_play.
      rewrite (bind_ok _ _ _ _ _ (get_sync_clients_run _ _ _ Hp')).
      apply filtered_out. intros c Hc Hin.
      pose proof (members_after play_op _ _ _ _ _ _ Hall Hg play_op_quiet c Hc) as Hno.
      unfold play_op in Hno. destruct (SlimClient.state c); try done; set_solver.
  - destruct (cmd_pause_effect _ _ _ Hp Hkeyed Hcb) as (s' & Hrun & Href & _ & Hall).
    exists s'. split; [done|]. split; [done|]. split.
    + intros k. destruct (outcome_act_of _ _ _ _ _ _ _ (Hall k)) as (Hsent & Hcl & _).
      split; [done|]. rewrite Hcl.
      destruct (member_session s player_id p k) as [c|]; [|done].
      split; [|by intros ->]. unfold pause_op. by intros ->.
    + intros _.
      destruct (refreshed_player _ _ _ _ Href Hp) as (p' & Hp' & _ & _ & Hg).
      unfold cmd_pause.
      rewrite (bind_ok _ _ _ _ _ (get_sync_clients_run _ _ _ Hp')).
      apply filtered_out. intros c Hc Hin.
      pose proof (members_after pause_op _ _ _ _ _ _ Hall Hg pause_op_quiet c Hc) as Hno.
      unfold pause_op in Hno. destruct (SlimClient.state c); try done; set_solver.
Qed.

(** ** Stop *)

(** X1: [cmd_stop] on a registered player never fails.  A session of the
    player's group that is not stopped is handed one [stop] and is then
    [STOPPED]; a stopped session is handed nothing; sessions outside the
    group are neither handed anything nor changed.  The stopped sessions
    signal their update: the player of such a session is refreshed from it
    (it is idle then, unless a virtual provider has its say), the players
    of the other ids stay as they are, every player keeps its links, and
    nobody but the player manager is called.  Sessions are registered
    under their own ids, and a registered virtual provider is assumed to
    leave the links of a player alone. *)
Theorem stop_reaches_the_running_sessions (player_id : string) (s : Provider)
    (p : Player.t) :
  players s !! player_id = Some p →
  clients_keyed s → callbacks_keep_links s →
  ∃ s',
    cmd_stop player_id s = (s', Ok tt) ∧
    refreshed s s' ∧
    ∀ k,
      sent_to k s' = sent_to k s ++ ops_for stop_op (member_session s player_id p k) ∧
      match member_session s player_id p k with
      | Some c =>
          _socket_clients s' !! k
            = Some (SlimClient.set_state SlimPlayerState.STOPPED c)
      | None => _socket_clients s' !! k = _socket_clients s !! k
      end ∧
      (ops_for stop_op (member_session s player_id p k) = [] →
         players s' !! k = players s !! k) ∧
      (∀ c, member_session s player_id p k = Some c →
         SlimClient.state c ≠ SlimPlayerState.STOPPED →
         _virtual_providers s !! SlimClient.device_model c = None →
         Player.state <$> players s' !! k = Some PlayerState.IDLE).
Proof.
  intros Hp Hkeyed Hcb.
  destruct (cmd_stop_effect _ _ _ Hp Hkeyed Hcb) as (s' & Hrun & Href & _ & Hall).
  exists s'. split; [done|]. split; [done|]. intros k.
  destruct (outcome_act_of _ _ _ _ _ _ _ (Hall k)) as (Hsent & Hcl & Hpl & Hst).
  split; [done|]. split; [|split; [done|]].
  - rewrite Hcl. destruct (member_session s player_id p k) as [c|]; [|done].
    unfold stop_op, SlimPlayerState.eqb. case_bool_decide; [|done].
    by rewrite set_state_same.
  - intros c Hc Hrunning Hv. apply (Hst c Hc); [|done].
    unfold stop_op, SlimPlayerState.eqb. by rewrite bool_decide_false.
Qed.

(** X2: Idempotent stop: a second [cmd_stop] right after the first sends
    nothing and changes nothing.  (The first one makes the stopped sessions
    signal their update; a registered virtual provider is assumed to leave
    the links of a player alone.) *)
Theorem stop_twice_is_stop_once (player_id : string) (s : Provider)
    (p : Player.t) :
  players s !! player_id = Some p →
  clients_keyed s →
  callbacks_keep_links s →
  ∃ s', cmd_stop player_id s = (s', Ok tt) ∧ cmd_stop player_id s' = (s', Ok tt).
Proof.
  intros Hp Hkeyed Hcb.
  destruct (cmd_stop_effect _ _ _ Hp Hkeyed Hcb) as (s' & Hrun & Href & _ & Hall).
  exists s'. split; [done|].
  destruct (refreshed_player _ _ _ _ Href Hp) as (p' & Hp' & _ & _ & Hg).
  unfold cmd_stop.
  rewrite (bind_ok _ _ _ _ _ (get_sync_clients_run _ _ _ Hp')).
  apply for_each_pass. intros c Hc s1.
  pose proof (members_after stop_op _ _ _ _ _ _ Hall Hg stop_op_quiet c Hc) as Hno.
  unfold stop_op in Hno. by destruct (SlimPlayerState.eqb _ _).
Qed.

(** ** Play commands on a group *)

(** The [play_url] that a play command hands the session [c]. *)
Lemma play_url_fan_out (env : Env) (url_of : string → string)
    (queue_item : option QueueItem) (send_flush crossfade autostart : bool)
    (s : Provider) (player_id : string) (p : Player.t) :
  clients_keyed s → callbacks_keep_links s →
  (∀ k c, member_session s player_id p k = Some c →
     String.prefix "http" (url_of k) = true) →
  ∃ s',
    for_each (sync_clients s player_id p) (λ client,
      _handle_play_url env client (url_of (SlimClient.player_id client))
        queue_item send_flush crossfade autostart) s = (s', Ok tt) ∧
    refreshed s s' ∧ clients_keyed s' ∧
    ∀ k,
      sent_to k s' = sent_to k s ++
        ops_for (λ _, Some
          (op_play_url (url_of k) (mime_type_of (url_of k))
             ((λ qi, (queue_item_id qi, qi_name qi)) <$> queue_item)
             send_flush crossfade
             (if crossfade then crossfade_duration env k else 0) autostart))
          (member_session s player_id p k) ∧
      _socket_clients s' !! k
        = match member_session s player_id p k with
          | Some c => Some (SlimClient.set_state SlimPlayerState.BUFFERING c)
          | None => _socket_clients s !! k
          end.
Proof.
  intros Hkeyed Hcb Hurl.
  set (f := λ c : SlimClient.t, Some
         (op_play_url (url_of (SlimClient.player_id c))
            (mime_type_of (url_of (SlimClient.player_id c)))
            ((λ qi, (queue_item_id qi, qi_name qi)) <$> queue_item)
            send_flush crossfade
            (if crossfade
             then crossfade_duration env (SlimClient.player_id c) else 0)
            autostart)).
  destruct (group_fan_out (act_of f SlimPlayerState.BUFFERING)
              (λ client,
                 _handle_play_url env client (url_of (SlimClient.player_id client))
                   queue_item send_flush crossfade autostart)
              s player_id p Hkeyed Hcb) as (s' & Hrun & Href & Hkeyed' & Hall).
  { intros c s1 (k & Hk)%sync_clients_elem Hcb1.
    apply play_url_step; [|done].
    rewrite (member_session_keyed _ _ _ _ _ Hkeyed Hk). by eapply Hurl. }
  exists s'. do 3 (split; [done|]). intros k.
  destruct (outcome_act_of _ _ _ _ _ _ _ (Hall k)) as (Hsent & Hcl & _).
  rewrite Hsent, Hcl.
  destruct (member_session s player_id p k) as [c|] eqn:Hk; [|done].
  subst f. cbn. by rewrite (member_session_keyed _ _ _ _ _ Hkeyed Hk).
Qed.

(** The two play commands, from the stop on. *)
Lemma stop_then_fan_out (env : Env) (url_of : string → string)
    (queue_item : option QueueItem) (player_id : string) (s : Provider)
    (p : Player.t) :
  players s !! player_id = Some p →
  truthy (Player.synced_to p) = false →
  clients_keyed s → callbacks_keep_links s →
  (∀ k c, member_session s player_id p k = Some c →
     String.prefix "http" (url_of k) = true) →
  ∃ s',
    (cmd_stop player_id ;;
     player ← players_get player_id;
     match player with
     | None => raise AttributeError
     | Some player =>
         if truthy (Player.synced_to player) then raise synced_error
         else
           sync_clients ← _get_sync_clients player_id;
           task_group sync_clients (λ client,
             _handle_play_url env client (url_of (SlimClient.player_id client))
               queue_item true false (length sync_clients =? 1)%nat)
     end) s = (s', Ok tt) ∧
    refreshed s s' ∧
    ∀ k,
      sent_to k s' = sent_to k s
        ++ ops_for stop_op (member_session s player_id p k)
        ++ ops_for (λ _, Some (play_url_op (url_of k) queue_item
                                 (length (sync_clients s player_id p) =? 1)%nat))
             (member_session s player_id p k) ∧
      _socket_clients s' !! k
        = match member_session s player_id p k with
          | Some c => Some (SlimClient.set_state SlimPlayerState.BUFFERING c)
          | None => _socket_clients s !! k
          end.
Proof.
  intros Hp Hs Hkeyed Hcb Hurl.
  destruct (cmd_stop_effect _ _ _ Hp Hkeyed Hcb)
    as (s0 & Hstop & Href0 & Hkeyed0 & Hall).
  destruct (refreshed_player _ _ _ _ Href0 Hp) as (p0 & Hp0 & _ & Hs0 & Hg0).
  assert (Hmem : ∀ k, member_session s0 player_id p0 k
            = SlimClient.set_state SlimPlayerState.STOPPED
                <$> member_session s player_id p k).
  { intros k. rewrite (member_session_group _ _ _ _ _ Hg0). apply stopped_member, Hall. }
  assert (Hlen : length (sync_clients s0 player_id p0)
                 = length (sync_clients s player_id p)).
  { rewrite (sync_clients_group _ _ _ _ Hg0).
    rewrite (sync_clients_fmap (SlimClient.set_state SlimPlayerState.STOPPED) s s0).
    - apply length_fmap.
    - intros k. rewrite <- (member_session_group _ _ _ _ _ Hg0). apply Hmem. }
  destruct (play_url_fan_out env url_of queue_item true false
              (length (sync_clients s0 player_id p0) =? 1)%nat
              s0 player_id p0 Hkeyed0) as (s' & Hrun & Href & _ & Hsent).
  { by eapply refreshed_callbacks. }
  { intros k c0 Hk. rewrite Hmem in Hk.
    destruct (member_session s player_id p k) as [c|] eqn:Hk0; [|done].
    by eapply Hurl. }
  exists s'. rewrite (bind_ok _ _ _ _ _ Hstop).
  unfold players_get at 1. unfold mbind at 1, M_bind at 1.
  rewrite Hp0, Hs0, Hs.
  rewrite (bind_ok _ _ _ _ _ (get_sync_clients_run _ _ _ Hp0)).
  split; [by apply task_group_ok|]. split; [by eapply refreshed_trans|].
  intros k. destruct (Hsent k) as (Hsent1 & Hcl1).
  destruct (outcome_act_of _ _ _ _ _ _ _ (Hall k)) as (Hsent0 & Hcl0 & _).
  rewrite Hsent1, Hcl1, Hsent0, Hcl0, Hmem, Hlen, <- app_assoc.
  by destruct (member_session s player_id p k).
Qed.

(** X4: [cmd_play_url] of an http url and [cmd_handle_stream_job] of a job
    that resolves an http url for every session, on a registered player
    that follows nobody, never fail: every session of the player's group is
    handed a stop if it is not stopped and then one [play_url] with flush
    (in the stream-job case, with the url the job resolves for that
    session's id) and is left buffering; autostart is set exactly when the
    group has a single registered session; sessions outside the group are
    handed nothing and stay as they are.  Besides the sessions and the log,
    the commands only refresh players, whose links stay.  With a url that
    does not start with http, [cmd_play_url] on a group with a session
    fails.  Sessions are registered under their own ids, and a registered
    virtual provider is assumed to leave the links of a player alone. *)
Theorem play_commands_fan_out (env : Env) (player_id url : string)
    (queue_item : option QueueItem) (stream_job : StreamJob) (s : Provider)
    (p : Player.t) :
  players s !! player_id = Some p →
  truthy (Player.synced_to p) = false →
  clients_keyed s → callbacks_keep_links s →
  let autostart := (length (sync_clients s player_id p) =? 1)%nat in
  (String.prefix "http" url = true →
   ∃ s',
     cmd_play_url env player_id url queue_item s = (s', Ok tt) ∧
     refreshed s s' ∧
     ∀ k,
       sent_to k s' = sent_to k s
         ++ ops_for stop_op (member_session s player_id p k)
         ++ ops_for (λ _, Some (play_url_op url queue_item autostart))
              (member_session s player_id p k) ∧
       _socket_clients s' !! k
         = match member_session s player_id p k with
           | Some c => Some (SlimClient.set_state SlimPlayerState.BUFFERING c)
           | None => _socket_clients s !! k
           end) ∧
  ((∀ k c, member_session s player_id p k = Some c →
      String.prefix "http" (resolve_stream_url stream_job k) = true) →
   ∃ s',
     cmd_handle_stream_job env player_id stream_job s = (s', Ok tt) ∧
     refreshed s s' ∧
     ∀ k,
       sent_to k s' = sent_to k s
         ++ ops_for stop_op (member_session s player_id p k)
         ++ ops_for (λ _, Some (play_url_op (resolve_stream_url stream_job k) None
                                  autostart))
              (member_session s player_id p k) ∧
       _socket_clients s' !! k
         = match member_session s player_id p k with
           | Some c => Some (SlimClient.set_state SlimPlayerState.BUFFERING c)
           | None => _socket_clients s !! k
           end) ∧
  (String.prefix "http" url = false → sync_clients s player_id p ≠ [] →
   ∃ errors,
     (cmd_play_url env player_id url queue_item s).2 = Raise (ExceptionGroup errors)).
Proof.
  intros Hp Hs Hkeyed Hcb autostart. split; [|split].
  - intros Hurl.
    apply (stop_then_fan_out env (λ _, url) queue_item _ _ _ Hp Hs Hkeyed Hcb).
    by intros k c _.
  - intros Hurl.
    apply (stop_then_fan_out env (resolve_stream_url stream_job) None _ _ _
             Hp Hs Hkeyed Hcb Hurl).
  - intros Hurl Hsome.
    destruct (cmd_stop_effect _ _ _ Hp Hkeyed Hcb)
      as (s0 & Hstop & Href0 & Hkeyed0 & Hall).
    destruct (refreshed_player _ _ _ _ Href0 Hp) as (p0 & Hp0 & _ & Hs0 & Hg0).
    unfold cmd_play_url. rewrite (bind_ok _ _ _ _ _ Hstop).
    unfold players_get at 1. unfold mbind at 1, M_bind at 1.
    rewrite Hp0, Hs0, Hs.
    rewrite (bind_ok _ _ _ _ _ (get_sync_clients_run _ _ _ Hp0)).
    apply task_group_raises.
    assert (Hcs : sync_clients s0 player_id p0
                  = SlimClient.set_state SlimPlayerState.STOPPED
                      <$> sync_clients s player_id p).
    { rewrite (sync_clients_group _ _ _ _ Hg0). apply sync_clients_fmap.
      intros k. apply stopped_member, Hall. }
    rewrite Hcs. destruct (sync_clients s player_id p) as [|c cs]; [done|].
    eexists. split; [apply list_elem_of_here|].
    intros s1. by rewrite play_url_refused.
Qed.

(** ** The sync graph *)

(** X6: Syncing again changes nothing in the player table: [cmd_sync] of the
    same two registered players a second time leaves the table as the first
    call left it. *)
Theorem sync_again_keeps_the_table (env : Env) (a b : string) (s : Provider)
    (pa pb : Player.t) :
  players s !! a = Some pa → players s !! b = Some pb →
  Player.player_id pa = a → Player.player_id pb = b →
  ∃ s1 s2,
    cmd_sync env a b s = (s1, Ok tt) ∧
    cmd_sync env a b s1 = (s2, Ok tt) ∧
    players s2 = players s1.
Proof.
  intros Ha Hb Hida Hidb.
  destruct (cmd_sync_table env a b s pa pb Ha Hb Hida Hidb)
    as (s1 & Hrun1 & Ht1 & _).
  assert (∃ pa1 pb1, players s1 !! a = Some pa1 ∧ players s1 !! b = Some pb1 ∧
            Player.player_id pa1 = a ∧ Player.player_id pb1 = b)
    as (pa1 & pb1 & Ha1 & Hb1 & Hida1 & Hidb1).
  { rewrite Ht1. destruct (decide (a = b)) as [->|Hab].
    - rewrite !lookup_alter_eq, Hb. cbn.
      do 2 eexists. by repeat (split; [reflexivity|]).
    - rewrite lookup_alter_eq, !lookup_alter_ne, Ha, !lookup_alter_eq, Hb by done.
      cbn.
      do 2 eexists. by repeat (split; [reflexivity|]). }
  destruct (cmd_sync_table env a b s1 pa1 pb1 Ha1 Hb1 Hida1 Hidb1)
    as (s2 & Hrun2 & Ht2 & _).
  exists s1, s2. split; [done|]. split; [done|].
  rewrite Ht2. apply map_eq. intros k.
  destruct (decide (k = a)) as [->|Hka]; [|destruct (decide (k = b)) as [->|Hkb]].
  - rewrite lookup_alter_eq. destruct (decide (a = b)) as [->|Hab].
    + rewrite !lookup_alter_eq. rewrite Ht1, !lookup_alter_eq, Hb. cbn.
      f_equal. unfold Player.set_synced_to, Player.set_group_childs. cbn.
      f_equal. set_solver.
    + rewrite !lookup_alter_ne by done.
      rewrite Ht1, lookup_alter_eq, !lookup_alter_ne, Ha by done. done.
  - rewrite lookup_alter_ne, !lookup_alter_eq by done.
    rewrite Ht1, lookup_alter_ne, !lookup_alter_eq, Hb by done. cbn.
    f_equal. unfold Player.set_group_childs. cbn. f_equal. set_solver.
  - by rewrite !lookup_alter_ne by done.
Qed.

(** X7: [cmd_sync] keeps the sync graph well formed, when the child is a
    registered player without followers that follows nobody (or already
    follows this leader) and the leader is another registered player that
    follows nobody. *)
Theorem sync_keeps_the_graph (env : Env) (a b : string) (s : Provider)
    (pa pb : Player.t) :
  sync_graph_ok s →
  a ≠ b →
  players s !! a = Some pa → players s !! b = Some pb →
  Player.synced_to pa = None ∨ Player.synced_to pa = Some b →
  Player.group_childs pa = ∅ →
  Player.synced_to pb = None →
  ∃ s', cmd_sync env a b s = (s', Ok tt) ∧ sync_graph_ok s'.
Proof.
  intros Hinv Hab Ha Hb Hsa Hga Hsb.
  destruct (Hinv a pa Ha) as (Hida & _), (Hinv b pb Hb) as (Hidb & _ & Hleadb).
  destruct (cmd_sync_table env a b s pa pb Ha Hb Hida Hidb)
    as (s' & Hrun & Ht & _).
  exists s'. split; [done|].
  set (pa' := Player.set_synced_to (Some b) pa).
  set (pb' := Player.set_group_childs
                ({[a]} ∪ ({[b]} ∪ Player.group_childs pb)) pb).
  assert (Hla : players s' !! a = Some pa').
  { by rewrite Ht, lookup_alter_eq, !lookup_alter_ne, Ha. }
  assert (Hlb : players s' !! b = Some pb').
  { by rewrite Ht, lookup_alter_ne, !lookup_alter_eq, Hb. }
  assert (Hlo : ∀ k, k ≠ a → k ≠ b → players s' !! k = players s !! k).
  { intros k ? ?. by rewrite Ht, !lookup_alter_ne. }
  intros k p Hk. destruct (decide (k = a)) as [->|Hka].
  { rewrite Hla in Hk. injection Hk as <-. split; [done|]. split.
    - intros l [= <-]. split; [done|]. split; [done|].
      exists pb'. rewrite Hlb. cbn. repeat split; [done|set_solver..].
    - intros c Hc. cbn in Hc. rewrite Hga in Hc. set_solver. }
  destruct (decide (k = b)) as [->|Hkb].
  { rewrite Hlb in Hk. injection Hk as <-. split; [done|]. split.
    - intros l Hl. cbn in Hl. congruence.
    - intros c Hc Hcb. cbn in Hc. destruct (decide (c = a)) as [->|Hca].
      + exists pa'. by rewrite Hla.
      + destruct (Hleadb c) as (pc & Hpc & Hspc); [set_solver|done|].
        exists pc. by rewrite Hlo. }
  rewrite Hlo in Hk by done.
  destruct (Hinv k p Hk) as (Hid & Hfol & Hlead). split; [done|]. split.
  - intros l Hl.
    destruct (Hfol l Hl) as (Hlk & Hg & pl & Hpl & Hspl & Hkin & Hlin).
    split; [done|]. split; [done|].
    destruct (decide (l = a)) as [->|Hne1].
    { rewrite Ha in Hpl. injection Hpl as <-. set_solver. }
    destruct (decide (l = b)) as [->|Hne2].
    { rewrite Hb in Hpl. injection Hpl as <-. exists pb'. rewrite Hlb. cbn.
      repeat split; [done|set_solver..]. }
    exists pl. by rewrite Hlo.
  - intros c Hc Hck. destruct (Hlead c Hc Hck) as (pc & Hpc & Hspc).
    destruct (decide (c = a)) as [->|Hne1].
    { rewrite Ha in Hpc. injection Hpc as <-.
      destruct Hsa as [Hsa|Hsa]; rewrite Hsa in Hspc; congruence. }
    destruct (decide (c = b)) as [->|Hne2].
    { rewrite Hb in Hpc. injection Hpc as <-. congruence. }
    exists pc. by rewrite Hlo.
Qed.

(** X8: [cmd_unsync] of a follower in a well-formed sync graph succeeds and
    keeps the graph well formed; the player then follows nobody, and its
    former leader has lost it as a follower: the leader's follower set is
    the old one without the player, or empty when only the leader itself
    would be left in it.  (The stop that goes to the player's session
    refreshes players; a registered virtual provider is assumed to leave
    their links alone.) *)
Theorem unsync_keeps_the_graph (a b : string) (s : Provider) (pa : Player.t) :
  sync_graph_ok s →
  players s !! a = Some pa →
  Player.synced_to pa = Some b →
  callbacks_keep_links s →
  ∃ s' pb pb',
    cmd_unsync a s = (s', Ok tt) ∧
    sync_graph_ok s' ∧
    membership s' a = Some (None, ∅) ∧
    players s !! b = Some pb ∧ players s' !! b = Some pb' ∧
    Player.synced_to pb' = None ∧
    Player.group_childs pb'
      = if bool_decide (Player.group_childs pb ∖ {[a]} = {[b]})
        then ∅ else Player.group_childs pb ∖ {[a]}.
Proof.
  intros Hinv_s Ha_s Hsa_s Hcb.
  destruct (Hinv_s a pa Ha_s) as (Hida_s & Hfola_s & _).
  destruct (Hfola_s b Hsa_s) as (Hba & _ & pb_s & Hb_s & Hsb_s & _ & _).
  destruct (Hinv_s b pb_s Hb_s) as (Hidb_s & _ & _).
  destruct (cmd_unsync_table a b s pa pb_s Ha_s Hsa_s Hb_s Hida_s Hidb_s Hcb)
    as (s0 & s' & _ & Href & Hrun & Ht).
  assert (Hinv : sync_graph_ok s0) by (eapply same_links_graph; [apply Href|done]).
  destruct (refreshed_player _ _ _ _ Href Ha_s) as (pa0 & Ha & _ & Hsa0 & Hga0).
  destruct (refreshed_player _ _ _ _ Href Hb_s) as (pb0 & Hb0 & _ & Hsb0 & Hgb0).
  assert (Hsa : Player.synced_to pa0 = Some b) by congruence.
  destruct (Hinv a pa0 Ha) as (Hida & Hfola & _).
  destruct (Hfola b Hsa) as (_ & Hga & pb & Hb & Hsb & Hain & Hbin).
  assert (pb = pb0) as -> by congruence.
  destruct (Hinv b pb0 Hb) as (Hidb & _ & Hleadb).
  set (pa' := Player.set_synced_to None pa0).
  set (rest := Player.group_childs pb0 ∖ {[a]}).
  set (pb' := Player.set_group_childs
                (if bool_decide (rest = {[b]}) then ∅ else rest) pb0).
  assert (Hla : players s' !! a = Some pa').
  { rewrite Ht, !lookup_alter_ne, lookup_alter_eq, Ha by done. done. }
  assert (Hlb : players s' !! b = Some pb').
  { rewrite Ht, !lookup_alter_eq, lookup_alter_ne, Hb by done. cbn.
    f_equal. subst pb' rest. case_bool_decide as Hone; [|done].
    unfold Player.set_group_childs. cbn. f_equal. rewrite Hone. set_solver. }
  assert (Hlo : ∀ k, k ≠ a → k ≠ b → players s' !! k = players s0 !! k).
  { intros k ? ?. rewrite Ht, !lookup_alter_ne by done. done. }
  assert (Hsub : ∀ c, c ∈ Player.group_childs pb' → c ∈ rest).
  { intros c. subst pb'. cbn. case_bool_decide; set_solver. }
  exists s', pb_s, pb'. split; [done|]. split; [|split; [|split; [done|split; [done|split]]]].
  2:{ unfold membership. rewrite Hla. cbn. by rewrite Hga. }
  2:{ subst pb'. cbn. congruence. }
  2:{ subst pb' rest. cbn. by rewrite Hgb0. }
  intros k p Hk. destruct (decide (k = a)) as [->|Hka].
  { rewrite Hla in Hk. injection Hk as <-. split; [done|]. split.
    - intros l Hl. cbn in Hl. congruence.
    - intros c Hc. cbn in Hc. rewrite Hga in Hc. set_solver. }
  destruct (decide (k = b)) as [->|Hkb].
  { rewrite Hlb in Hk. injection Hk as <-. split; [done|]. split.
    - intros l Hl. cbn in Hl. congruence.
    - intros c Hc%Hsub Hcb'. subst rest.
      destruct (Hleadb c) as (pc & Hpc & Hspc); [set_solver|done|].
      exists pc. rewrite Hlo; [done|set_solver|done]. }
  rewrite Hlo in Hk by done.
  destruct (Hinv k p Hk) as (Hid & Hfol & Hlead). split; [done|]. split.
  - intros l Hl.
    destruct (Hfol l Hl) as (Hlk & Hg & pl & Hpl & Hspl & Hkin & Hlin).
    split; [done|]. split; [done|].
    destruct (decide (l = a)) as [->|Hne1].
    { rewrite Ha in Hpl. injection Hpl as <-. set_solver. }
    destruct (decide (l = b)) as [->|Hne2].
    { rewrite Hb in Hpl. injection Hpl as <-. exists pb'. rewrite Hlb.
      split; [done|]. split; [done|]. subst pb' rest. cbn.
      case_bool_decide as Hone; [|set_solver].
      assert (k ∈ ({[b]} : gset string)) by (rewrite <- Hone; set_solver).
      set_solver. }
    exists pl. by rewrite Hlo.
  - intros c Hc Hck. destruct (Hlead c Hc Hck) as (pc & Hpc & Hspc).
    destruct (decide (c = a)) as [->|Hne1].
    { rewrite Ha in Hpc. injection Hpc as <-. congruence. }
    destruct (decide (c = b)) as [->|Hne2].
    { rewrite Hb in Hpc. injection Hpc as <-. congruence. }
    exists pc. by rewrite Hlo.
Qed.

(** ** Output underrun *)

(** X9: An output underrun of a follower in a well-formed sync graph is
    answered by a [cmd_sync] to its leader: nothing is sent to any session,
    the player table stays as it is, and the queue controller is asked to
    resume the leader's queue (without fade-in) when the leader is playing;
    otherwise only the two players' updates are signalled. *)
Theorem underrun_of_a_follower_resyncs (env : Env) (client : SlimClient.t)
    (s : Provider) (p : Player.t) (leader : string) :
  sync_graph_ok s →
  players s !! SlimClient.player_id client = Some p →
  Player.synced_to p = Some leader →
  leader ≠ "" →
  ∃ s' pl,
    players s !! leader = Some pl ∧
    _handle_output_underrun env client s = (s', Ok tt) ∧
    players s' = players s ∧
    _socket_clients s' = _socket_clients s ∧
    sent s' = sent s ∧
    calls s' = calls s ++
      (if PlayerState.eqb (Player.state pl) PlayerState.PLAYING
       then [queues_resume (get_active_queue env leader) false]
       else [players_update (SlimClient.player_id client); players_update leader]).
Proof.
  intros Hinv Hp Hs Hne.
  destruct (Hinv _ p Hp) as (Hid & Hfol & _).
  destruct (Hfol leader Hs) as (Hlk & Hg & pl & Hpl & Hspl & Hkin & Hlin).
  destruct (Hinv _ pl Hpl) as (Hidl & _).
  destruct (cmd_sync_table env _ leader s p pl Hp Hpl Hid Hidl)
    as (s' & Hrun & Ht & Hc & Hsent & Hcalls).
  exists s', pl. split; [done|]. split.
  { unfold _handle_output_underrun. munfold. rewrite Hp, Hs. cbn.
    rewrite (proj2 (String.eqb_neq _ _) Hne). cbn. by rewrite Hid. }
  split; [|done].
  rewrite Ht. apply map_eq. intros k.
  destruct (decide (k = SlimClient.player_id client)) as [->|Hka].
  - rewrite lookup_alter_eq, !lookup_alter_ne, Hp by done. cbn. f_equal.
    destruct p; cbn in *; by subst.
  - rewrite lookup_alter_ne by done.
    destruct (decide (k = leader)) as [->|Hkb]; [|by rewrite !lookup_alter_ne].
    rewrite !lookup_alter_eq, Hpl. cbn. f_equal.
    destruct pl; cbn in *. unfold Player.set_group_childs. cbn. f_equal.
    set_solver.
Qed.

(** ** Drift controller: guards and rings *)

Lemma handle_client_sync_guarded (env : Env) (tm : Times)
    (client : SlimClient.t) (s : Provider) (p : Player.t) :
  players s !! SlimClient.player_id client = Some p →
  truthy (Player.synced_to p) = false
  ∨ (∀ l m, Player.synced_to p = Some l → _socket_clients s !! l = Some m →
       SlimClient.state m ≠ SlimPlayerState.PLAYING)
  ∨ SlimClient.state client ≠ SlimPlayerState.PLAYING
  ∨ backing_off (t_backoff tm)
      (_do_not_resync_before s !! SlimClient.player_id client) = true →
  _handle_client_sync env tm client s = (s, Ok tt).
Proof.
  intros Hp Hguard. unfold _handle_client_sync. munfold. rewrite Hp.
  destruct (truthy (Player.synced_to p)) eqn:Ht; [|done]. cbn.
  destruct (Player.synced_to p) as [l|] eqn:Hl; [|done]. cbn.
  destruct (_socket_clients s !! l) as [m|] eqn:Hm; [|done].
  unfold SlimPlayerState.eqb.
  case_bool_decide as Hmp; [|done]. cbn.
  case_bool_decide as Hcp; [|done]. cbn.
  destruct (backing_off _ _) eqn:Hb; [done|].
  destruct Hguard as [?|[Hg|[?|?]]]; try done.
  by destruct (Hg l m).
Qed.

(** X15: The drift controller leaves the provider exactly as it is when the
    player follows nobody, when the leader's session is missing or not
    playing, when the follower is not playing, or while the follower's
    backoff is running. *)
Theorem drift_guards_change_nothing (env : Env) (tm : Times)
    (client : SlimClient.t) (s : Provider) (p : Player.t) :
  players s !! SlimClient.player_id client = Some p →
  truthy (Player.synced_to p) = false
  ∨ (∀ l m, Player.synced_to p = Some l → _socket_clients s !! l = Some m →
       SlimClient.state m ≠ SlimPlayerState.PLAYING)
  ∨ SlimClient.state client ≠ SlimPlayerState.PLAYING
  ∨ backing_off (t_backoff tm)
      (_do_not_resync_before s !! SlimClient.player_id client) = true →
  _handle_client_sync env tm client s = (s, Ok tt).
Proof. apply handle_client_sync_guarded. Qed.

Lemma rings_at_rest_insert (s : Provider) (k : string)
    (ring : list SyncPlayPoint) :
  rings_at_rest s → ring_at_rest ring →
  rings_at_rest (with_playpoints (<[k := ring]>) s).
Proof.
  intros Hs Hr k' r. cbn. destruct (decide (k' = k)) as [->|Hne].
  - rewrite lookup_insert_eq. by intros [= <-].
  - rewrite lookup_insert_ne by done. apply Hs.
Qed.

Lemma ring_at_rest_nil : ring_at_rest [].
Proof. split; cbn; [lia|done]. Qed.

(** X16: The rings at rest are an invariant of the drift controller: whatever
    the heartbeat, afterwards every stored ring holds at most 4 playpoints,
    and a ring of 4 has a mean diff inside the band of 10 ms (a ring found
    outside the band has been cleared). *)
Theorem drift_controller_keeps_rings_at_rest (env : Env) (tm : Times)
    (client : SlimClient.t) (s : Provider) :
  rings_at_rest s →
  rings_at_rest (_handle_client_sync env tm client s).1.
Proof.
  intros Hs. unfold _handle_client_sync. munfold.
  destruct (players s !! SlimClient.player_id client) as [p|]; [|done].
  destruct (negb (truthy (Player.synced_to p))); [done|].
  destruct (option_bind _ _ _ (Player.synced_to p)) as [m|]; [|done].
  destruct (negb (SlimPlayerState.eqb (SlimClient.state m) _)); [done|].
  destruct (negb (SlimPlayerState.eqb (SlimClient.state client) _)); [done|].
  destruct (backing_off _ _); [done|]. cbn.
  set (before := default [] (_sync_playpoints s !! SlimClient.player_id client)).
  assert (Hbefore : ring_at_rest before).
  { subst before. destruct (_sync_playpoints s !! _) as [r|] eqn:Hr; cbn.
    - by eapply Hs. - apply ring_at_rest_nil. }
  pose proof (rings_at_rest_insert s (SlimClient.player_id client) before Hs Hbefore)
    as Hs1.
  destruct (multi_client_jobs env !! _) as [job|]; [|done]. cbn.
  set (points := deque_append MIN_REQ_PLAYPOINTS _ _).
  assert (Hlen : (length points ≤ 4)%nat).
  { apply (deque_append_length MIN_REQ_PLAYPOINTS). unfold MIN_REQ_PLAYPOINTS. lia. }
  destruct (length points <=? 3)%nat eqn:Hshort.
  { apply Nat.leb_le in Hshort. apply rings_at_rest_insert; [done|].
    split; [done|]. lia. }
  destruct (Qltb _ MIN_DEVIATION_ADJUST) eqn:Hband.
  { apply rings_at_rest_insert; [done|]. split; [done|].
    intros _. apply Qltb_lt. exact Hband. }
  assert (Hcleared : rings_at_rest
            (with_playpoints (<[SlimClient.player_id client := []]>)
               (with_playpoints (<[SlimClient.player_id client := points]>)
                  (with_playpoints (<[SlimClient.player_id client := before]>) s)))).
  { intros k r. cbn. rewrite !insert_insert_eq.
    apply (rings_at_rest_insert s _ [] Hs ring_at_rest_nil). }
  by destruct (Qltb 0 (fmean points)).
Qed.

(** ** Heartbeat *)

(** X17: A heartbeat never samples drift unless it comes from a playing
    follower: from a stopped client it changes nothing at all; from any
    other client that is not playing, or whose player follows nobody, it
    only records the elapsed time and its time stamp for that player and
    leaves the provider as it is. *)
Theorem heartbeat_samples_only_playing_followers (env : Env) (tm : Times)
    (now elapsed_seconds : Q) (client : SlimClient.t) (s : Provider)
    (elapsed : ElapsedTimes) (p : Player.t) :
  players s !! SlimClient.player_id client = Some p →
  SlimClient.state client ≠ SlimPlayerState.PLAYING
  ∨ truthy (Player.synced_to p) = false →
  _handle_player_heartbeat env tm now elapsed_seconds client (s, elapsed)
    = ((s, if SlimPlayerState.eqb (SlimClient.state client) SlimPlayerState.STOPPED
           then elapsed
           else <[SlimClient.player_id client := (elapsed_seconds, now)]> elapsed),
       Ok tt).
Proof.
  intros Hp Hwhy. unfold _handle_player_heartbeat.
  destruct (SlimPlayerState.eqb _ _); [done|]. cbn. rewrite Hp.
  destruct (truthy (Player.synced_to p)) eqn:Ht; [|done].
  rewrite (handle_client_sync_guarded env tm client s p Hp); [done|].
  destruct Hwhy as [?|?]; [by right; right; left | congruence].
Qed.

(** ** Decoder-ready handoff *)

(** X19: [_handle_decoder_ready] does nothing when the client has no metadata,
    when its player follows somebody, when the client is stopped, when the
    player's active source is not the player itself, or when the queue is
    empty.  Otherwise, the next url being an http url, every session of the
    player's group is handed one [play_url] of the next url without flush
    and with autostart, with the player's crossfade duration when a
    crossfade is asked for, and is left buffering; no session outside the
    group is handed anything.  Besides the sessions and the log, the
    handler only refreshes players, whose links stay.  Sessions are
    registered under their own ids, and a registered virtual provider is
    assumed to leave the links of a player alone. *)
Theorem decoder_ready_hands_over (env : Env) (current_metadata : bool)
    (active_source : string) (next : option (string * QueueItem * bool))
    (client : SlimClient.t) (s : Provider) (p : Player.t) :
  players s !! SlimClient.player_id client = Some p →
  clients_keyed s → callbacks_keep_links s →
  (current_metadata = false ∨ truthy (Player.synced_to p) = true
   ∨ SlimClient.state client = SlimPlayerState.STOPPED
   ∨ active_source ≠ Player.player_id p ∨ next = None →
   _handle_decoder_ready env current_metadata active_source next client s
     = (s, Ok tt)) ∧
  (current_metadata = true → truthy (Player.synced_to p) = false →
   SlimClient.state client ≠ SlimPlayerState.STOPPED →
   active_source = Player.player_id p →
   ∀ next_url next_item crossfade,
     next = Some (next_url, next_item, crossfade) →
     String.prefix "http" next_url = true →
     ∃ s',
       _handle_decoder_ready env current_metadata active_source next client s
         = (s', Ok tt) ∧
       refreshed s s' ∧
       ∀ k,
         sent_to k s' = sent_to k s ++
           ops_for (λ _, Some
             (op_play_url next_url (mime_type_of next_url)
                (Some (queue_item_id next_item, qi_name next_item))
                false crossfade
                (if crossfade then crossfade_duration env k else 0) true))
             (member_session s (SlimClient.player_id client) p k) ∧
         _socket_clients s' !! k
           = match member_session s (SlimClient.player_id client) p k with
             | Some c => Some (SlimClient.set_state SlimPlayerState.BUFFERING c)
             | None => _socket_clients s !! k
             end).
Proof.
  intros Hp Hkeyed Hcb. split.
  - intros Hwhy. unfold _handle_decoder_ready. munfold.
    destruct current_metadata; [|done]. cbn. rewrite Hp.
    destruct (truthy (Player.synced_to p)); [done|].
    unfold SlimPlayerState.eqb. case_bool_decide; [done|].
    destruct (String.eqb_spec active_source (Player.player_id p)); [|done]. cbn.
    destruct next as [[[? ?] ?]|]; [|done].
    destruct Hwhy as [?|[?|[?|[?|?]]]]; done.
  - intros -> Hs Hst -> next_url next_item crossfade -> Hurl.
    destruct (play_url_fan_out env (λ _, next_url) (Some next_item) false crossfade
                true s (SlimClient.player_id client) p Hkeyed Hcb)
      as (s' & Hrun & Href & _ & Hsent); [by intros k c _|].
    exists s'. split; [|by split].
    unfold _handle_decoder_ready. cbn [negb].
    unfold players_get at 1. unfold mbind at 1, M_bind at 1. rewrite Hp, Hs.
    unfold SlimPlayerState.eqb. rewrite bool_decide_false by done.
    rewrite String.eqb_refl. cbn [negb].
    rewrite (bind_ok _ _ _ _ _ (get_sync_clients_run _ _ _ Hp)).
    by apply task_group_ok.
Qed.

(** ** Buffer-coordinated start, at any pass *)

Lemma wait_for_childs_until (player_id : string) (world : nat → Provider)
    (k : nat) :
  (∀ j, (j < k)%nat → childs_ready player_id (world j) = (world j, Ok false)) →
  childs_ready player_id (world k) = (world k, Ok true) →
  ∀ n j fuel, (j + n = k)%nat → (n < fuel)%nat →
    wait_for_childs fuel 0 player_id world j = Some (world k, Ok tt).
Proof.
  intros Hnot Hready. induction n as [|n IH]; intros j fuel Hj Hfuel.
  - destruct fuel as [|fuel]; [lia|]. cbn. replace j with k by lia.
    by rewrite Hready.
  - destruct fuel as [|fuel]; [lia|]. cbn. rewrite Hnot by lia.
    apply IH; lia.
Qed.

(** X18: When a leader's BUFFER_READY event finds its group not ready for the
    first [k] passes of the polling loop and ready at pass [k], the start
    is made on the provider as that pass finds it.  If the clock of every
    registered member of the group is more than 20 ms away from wrapping
    (jiffies + 20 fits the 32-bit field of the frame), each of them is sent
    [strm 'u'] with its own jiffies plus 20 and gets a backoff of one
    second.  If the clock of some member is not, the handler fails. *)
Theorem buffer_ready_starts_at_the_first_ready_pass (fuel k : nat)
    (world : nat → Provider) (now : string → Q) (client : SlimClient.t)
    (p pk : Player.t) :
  players (world O) !! SlimClient.player_id client = Some p →
  Player.player_id p = SlimClient.player_id client →
  truthy (Player.synced_to p) = false →
  Player.group_childs p ≠ ∅ →
  (∀ j, (j < k)%nat →
     childs_ready (SlimClient.player_id client) (world j) = (world j, Ok false)) →
  childs_ready (SlimClient.player_id client) (world k) = (world k, Ok true) →
  players (world k) !! SlimClient.player_id client = Some pk →
  clients_keyed (world k) →
  (k < fuel)%nat →
  ((∀ j c, member_session (world k) (SlimClient.player_id client) pk j = Some c →
      0 ≤ SlimClient.jiffies c + 20 < 2 ^ 32) →
   ∃ s',
     _handle_buffer_ready fuel world now client = Some (s', Ok tt) ∧
     ∀ j c, j ∈ {[SlimClient.player_id client]} ∪ Player.group_childs pk →
       _socket_clients (world k) !! j = Some c →
       sent_to j s' = sent_to j (world k) ++ [op_send_strm "u" (SlimClient.jiffies c + 20)] ∧
       _do_not_resync_before s' !! j = Some (now j + 1)%Q) ∧
  (∀ j c, member_session (world k) (SlimClient.player_id client) pk j = Some c →
     ¬ (0 ≤ SlimClient.jiffies c + 20 < 2 ^ 32) →
     ∃ s' errors,
       _handle_buffer_ready fuel world now client
         = Some (s', Raise (ExceptionGroup errors))).
Proof.
  intros Hp Hid Hs Hg Hnot Hready Hpk Hkeyed Hfuel.
  assert (Hrun : _handle_buffer_ready fuel world now client
                 = Some (start_play now (SlimClient.player_id client) (world k))).
  { unfold _handle_buffer_ready.
    rewrite Hp, Hs, bool_decide_false, Hid by done.
    rewrite (wait_for_childs_until _ world k Hnot Hready k O fuel) by lia.
    by destruct (start_play _ _ _) as [s' [[]|e]]. }
  rewrite Hrun. split.
  - intros Hbound.
    destruct (start_play_run now (world k) _ pk Hpk Hkeyed) as (s' & -> & Hall).
    { intros c (j & Hj)%sync_clients_elem. by eapply Hbound. }
    exists s'. split; [done|]. intros j c Hj Hc. specialize (Hall j).
    unfold member_session in Hall. by rewrite bool_decide_true, Hc in Hall.
  - intros j c Hj Hbad.
    destruct (start_play_overflow now (world k) _ pk c Hpk) as (errors & Herr);
      [apply sync_clients_elem; eauto|done|].
    destruct (start_play _ _ _) as [s' r]. cbn in Herr. subst r. eauto.
Qed.

(** ** Registry events and the sync graph *)

(** One [_handle_player_update], for a device model without a virtual
    provider, keeps the links, the sessions and the log of sent
    operations. *)
Lemma handle_player_update_links (client : SlimClient.t) (s : Provider) :
  _virtual_providers s = ∅ →
  ∃ s',
    _handle_player_update client s = (s', Ok tt) ∧
    same_links s s' ∧
    _virtual_providers s' = ∅ ∧
    _socket_clients s' = _socket_clients s ∧
    sent s' = sent s.
Proof.
  intros Hv. unfold _handle_player_update. munfold. rewrite Hv, lookup_empty.
  destruct (players s !! SlimClient.player_id client) as [p|] eqn:Hp; cbn;
    eexists; (split; [reflexivity|]); cbn; (split; [|done]); intros k; cbn;
    destruct (decide (k = SlimClient.player_id client)) as [->|Hne].
  - rewrite Hp, lookup_alter_eq, Hp. cbn. by eexists.
  - rewrite lookup_alter_ne by done. apply same_links_refl.
  - rewrite Hp, lookup_alter_eq, lookup_insert_eq. cbn. by intros p' [= <-].
  - rewrite lookup_alter_ne, lookup_insert_ne by done. apply same_links_refl.
Qed.

(** X10: The registry events keep the sync graph: with no virtual provider
    registered, a connect, a player update and a disconnect each leave a
    well-formed sync graph well formed, every player keeping its leader and
    its followers. *)
Theorem registry_events_keep_the_graph (env : Env) (client : SlimClient.t)
    (s : Provider) :
  _virtual_providers s = ∅ →
  (∃ s', _handle_player_update client s = (s', Ok tt) ∧ same_links s s' ∧
         (sync_graph_ok s → sync_graph_ok s')) ∧
  (∃ s', _handle_connected env client s = (s', Ok tt) ∧ same_links s s' ∧
         (sync_graph_ok s → sync_graph_ok s')) ∧
  (∃ s', _handle_disconnected client s = (s', Ok tt) ∧ same_links s s' ∧
         (sync_graph_ok s → sync_graph_ok s')).
Proof.
  intros Hv. split; [|split].
  - destruct (handle_player_update_links client s Hv) as (s' & Hrun & Hl & _).
    exists s'. split; [done|]. split; [done|]. by apply same_links_graph.
  - set (pid := SlimClient.player_id client).
    set (sA := match _socket_clients s !! pid with
               | Some existing =>
                   with_sent (λ l, l ++ [(SlimClient.player_id existing, op_disconnect)])
                     (with_clients (delete pid) s)
               | None => s
               end).
    set (s0 := with_clients (<[pid := client]>) sA).
    assert (Hpl0 : players s0 = players s ∧ _virtual_providers s0 = ∅).
    { subst s0 sA. by destruct (_socket_clients s !! pid). }
    destruct Hpl0 as [Hpl0 Hv0].
    assert (Hl0 : same_links s s0).
    { intros k. rewrite Hpl0. apply same_links_refl. }
    destruct (handle_player_update_links client s0 Hv0)
      as (s1 & Hrun1 & Hl1 & Hv1 & _).
    destruct (for_each_inv (λ st, same_links s1 st ∧ _virtual_providers st = ∅)
                (map_to_list (_socket_clients s1)).*2
                (λ item, if bool_decide (SlimClient.player_id item = pid) then pass
                         else _handle_player_update item)) with (s := s1)
      as [[Hl2 Hv2] Hok].
    { intros item st [Hst Hvst]. case_bool_decide; [done|].
      destruct (handle_player_update_links item st Hvst) as (st' & -> & ? & ? & _).
      cbn. split; [|done]. split; [|done]. by eapply same_links_trans. }
    { split; [apply same_links_refl|done]. }
    destruct (for_each _ _ s1) as [s2 r2] eqn:Hloop. cbn in Hl2, Hv2, Hok. subst r2.
    eexists. split.
    { unfold _handle_connected. fold pid.
      rewrite (bind_ok get_self _ s s s eq_refl).
      assert (Hpop :
        match _socket_clients s !! pid with
        | Some existing =>
            modify (with_clients (delete pid)) ;; send existing op_disconnect
        | None => pass
        end s = (sA, Ok tt)).
      { subst sA. by destruct (_socket_clients s !! pid). }
      rewrite (bind_ok _ _ _ _ _ Hpop).
      rewrite (bind_ok (modify _) _ sA s0 tt eq_refl).
      rewrite (bind_ok _ _ _ _ _ Hrun1).
      rewrite (bind_ok get_self _ s1 s1 s1 eq_refl).
      rewrite (bind_ok _ _ _ _ _ Hloop).
      reflexivity. }
    assert (Hl : same_links s s2).
    { eapply same_links_trans; [|exact Hl2].
      eapply same_links_trans; [exact Hl0|exact Hl1]. }
    split; [exact Hl|]. by apply same_links_graph.
  - assert (Hrun : ∃ s', _handle_disconnected client s = (s', Ok tt) ∧
              same_links s s').
    { unfold _handle_disconnected. munfold.
      destruct (closing s); [exists s; split; [done|apply same_links_refl]|].
      destruct (_socket_clients s !! SlimClient.player_id client) as [c|]; cbn;
        destruct (players s !! SlimClient.player_id client) as [p|] eqn:Hp; cbn;
        eexists; (split; [reflexivity|]); intros k; cbn;
        try apply same_links_refl;
        (destruct (decide (k = SlimClient.player_id client)) as [->|Hne];
         [rewrite Hp, lookup_alter_eq, Hp; cbn; by eexists
         |rewrite lookup_alter_ne by done; apply same_links_refl]). }
    destruct Hrun as (s' & Hrun & Hl). exists s'. split; [done|].
    split; [done|]. by apply same_links_graph.
Qed.

(** ** Connect, disconnect and the persisted state *)

Lemma connect_evicts_and_restores_aux (env : Env) (client : SlimClient.t)
    (s : Provider) :
  let pid := SlimClient.player_id client in
  ∃ s',
    _handle_connected env client s = (s', Ok tt) ∧
    _socket_clients s' = <[pid := client]> (_socket_clients s) ∧
    sent s' = sent s
      ++ match _socket_clients s !! pid with
         | Some existing => [(SlimClient.player_id existing, op_disconnect)]
         | None => []
         end
      ++ match cache env !! cache_key pid with
         | Some (pw, vol) => [(pid, op_power pw); (pid, op_volume_set vol)]
         | None => [(pid, op_power false); (pid, op_volume_set 20)]
         end.
Proof.
  intros pid.
  set (sA := match _socket_clients s !! pid with
             | Some existing =>
                 with_sent (λ l, l ++ [(SlimClient.player_id existing, op_disconnect)])
                   (with_clients (delete pid) s)
             | None => s
             end).
  set (s0 := with_clients (<[pid := client]>) sA).
  assert (Hc0 : _socket_clients s0 = <[pid := client]> (_socket_clients s)).
  { subst s0 sA. destruct (_socket_clients s !! pid); cbn; [|done].
    by rewrite insert_delete_eq. }
  assert (Hs0 : sent s0 = sent s ++
            match _socket_clients s !! pid with
            | Some existing => [(SlimClient.player_id existing, op_disconnect)]
            | None => []
            end).
  { subst s0 sA. destruct (_socket_clients s !! pid); cbn; [done|].
    by rewrite app_nil_r. }
  destruct (handle_player_update_log client s0) as (s1 & Hrun1 & Hs1 & Hc1 & _).
  destruct (for_each_inv (λ st, sent st = sent s1 ∧ _socket_clients st = _socket_clients s1)
              (map_to_list (_socket_clients s1)).*2
              (λ item, if bool_decide (SlimClient.player_id item = pid) then pass
                       else _handle_player_update item)) with (s := s1)
    as [[Hs2 Hc2] Hok]; [|done|].
  { intros item st [Hst Hcst]. case_bool_decide; [done|].
    destruct (handle_player_update_log item st) as (st' & -> & ? & ? & _).
    cbn. split; [|done]. split; congruence. }
  destruct (for_each _ _ s1) as [s2 r2] eqn:Hloop. cbn in Hs2, Hc2, Hok. subst r2.
  eexists. split; [|split].
  - unfold _handle_connected. fold pid.
    rewrite (bind_ok get_self _ s s s eq_refl).
    assert (Hpop :
      match _socket_clients s !! pid with
      | Some existing =>
          modify (with_clients (delete pid)) ;; send existing op_disconnect
      | None => pass
      end s = (sA, Ok tt)).
    { subst sA. by destruct (_socket_clients s !! pid). }
    rewrite (bind_ok _ _ _ _ _ Hpop).
    rewrite (bind_ok (modify _) _ sA s0 tt eq_refl).
    rewrite (bind_ok _ _ _ _ _ Hrun1).
    rewrite (bind_ok get_self _ s1 s1 s1 eq_refl).
    rewrite (bind_ok _ _ _ _ _ Hloop).
    reflexivity.
  - cbn. congruence.
  - cbn. rewrite Hs2, Hs1, Hs0, <- !app_assoc. do 2 f_equal.
    by destruct (cache env !! cache_key pid) as [[pw vol]|].
Qed.

(** X12: A connect registers the new session under its id, after sending a
    disconnect to a session that was registered under that id, and then
    restores power and volume on the new session: the pair the cache holds
    for the player, or power off and volume 20 when it holds none.  Nothing
    else is sent. *)
Theorem connect_evicts_and_restores (env : Env) (client : SlimClient.t)
    (s : Provider) :
  let pid := SlimClient.player_id client in
  ∃ s',
    _handle_connected env client s = (s', Ok tt) ∧
    _socket_clients s' = <[pid := client]> (_socket_clients s) ∧
    sent s' = sent s
      ++ match _socket_clients s !! pid with
         | Some existing => [(SlimClient.player_id existing, op_disconnect)]
         | None => []
         end
      ++ match cache env !! cache_key pid with
         | Some (pw, vol) => [(pid, op_power pw); (pid, op_volume_set vol)]
         | None => [(pid, op_power false); (pid, op_volume_set 20)]
         end.
Proof. apply connect_evicts_and_restores_aux. Qed.

Lemma cache_after_snoc (writes : list ExtCall) (e : ExtCall)
    (cache : gmap string (bool * Z)) :
  cache_after (writes ++ [e]) cache = write_cache (cache_after writes cache) e.
Proof. unfold cache_after. by rewrite foldl_app. Qed.

(** X13: Power and volume survive a reconnect: when a registered session
    disconnects (while the server is not closing), the session is no
    longer registered, and a connect under the same id that finds the cache
    as the recorded writes leave it sets the new session to the power and
    the volume the old session had. *)
Theorem disconnect_then_connect_restores (env : Env) (old new c : SlimClient.t)
    (s : Provider) :
  closing s = false →
  _socket_clients s !! SlimClient.player_id old = Some c →
  SlimClient.player_id new = SlimClient.player_id old →
  ∃ s1 s2,
    _handle_disconnected old s = (s1, Ok tt) ∧
    _socket_clients s1 = delete (SlimClient.player_id old) (_socket_clients s) ∧
    sent s1 = sent s ∧
    _handle_connected (with_cache (cache_after (calls s1) (cache env)) env) new s1
      = (s2, Ok tt) ∧
    sent s2 = sent s
      ++ [(SlimClient.player_id old, op_power (SlimClient.powered c));
          (SlimClient.player_id old, op_volume_set (SlimClient.volume_level c))].
Proof.
  intros Hclosing Hc Hid.
  set (pid := SlimClient.player_id old).
  set (write := cache_set (cache_key pid) (SlimClient.powered c)
                  (SlimClient.volume_level c)).
  assert (Hdis : ∃ s1, _handle_disconnected old s = (s1, Ok tt) ∧
            _socket_clients s1 = delete pid (_socket_clients s) ∧
            sent s1 = sent s ∧
            (calls s1 = calls s ++ [write] ∨
             calls s1 = (calls s ++ [write]) ++ [players_update pid])).
  { unfold _handle_disconnected. munfold. rewrite Hclosing, Hc. fold pid. cbn.
    destruct (players s !! pid); cbn; eexists; (split; [reflexivity|]); cbn;
      repeat split; eauto. }
  destruct Hdis as (s1 & Hdis & Hc1 & Hs1 & Hcalls).
  set (env' := with_cache (cache_after (calls s1) (cache env)) env).
  destruct (connect_evicts_and_restores_aux env' new s1) as (s2 & Hcon & _ & Hs2).
  exists s1, s2. split; [done|]. split; [done|]. split; [done|].
  split; [done|]. rewrite Hs2, Hid. fold pid. rewrite Hc1, lookup_delete_eq, Hs1.
  cbn. f_equal.
  assert (Hcache : cache_after (calls s1) (cache env) !! cache_key pid
                   = Some (SlimClient.powered c, SlimClient.volume_level c)).
  { destruct Hcalls as [->| ->]; rewrite !cache_after_snoc; cbn;
      by rewrite lookup_insert_eq. }
  by rewrite Hcache.
Qed.

(** ** Shutdown *)

Lemma values_ids (m : gmap string SlimClient.t) :
  (∀ k c, m !! k = Some c → SlimClient.player_id c = k) →
  SlimClient.player_id <$> (map_to_list m).*2 = (map_to_list m).*1.
Proof.
  intros Hkeyed. rewrite <- list_fmap_compose. apply list_fmap_ext.
  intros i [k c] Hi. cbn. apply Hkeyed.
  apply elem_of_map_to_list, list_elem_of_lookup. eauto.
Qed.

(** X20: [unload] sends every registered session one disconnect and leaves no
    session registered; the players and everything else stay as they
    are. *)
Theorem unload_disconnects_every_session (s : Provider) :
  clients_keyed s →
  ∃ s',
    unload s = (s', Ok tt) ∧
    _socket_clients s' = ∅ ∧
    same_but_sessions s s' ∧
    ∀ k, sent_to k s' = sent_to k s
      ++ if _socket_clients s !! k then [op_disconnect] else [].
Proof.
  intros Hkeyed.
  destruct (send_loop (λ _, Some op_disconnect) (map_to_list (_socket_clients s)).*2)
    with (s := s) as (s1 & Hrun & Hsame & Hin & Hout).
  { rewrite values_ids by done. apply NoDup_fst_map_to_list. }
  eexists. split; [|split; [|split]].
  - unfold unload. rewrite (bind_ok get_self _ s s s eq_refl).
    assert (Hloop : for_each (map_to_list (_socket_clients s)).*2
                      (λ client, send client op_disconnect) s = (s1, Ok tt))
      by (rewrite <- Hrun; by apply for_each_ext).
    rewrite (bind_ok _ _ _ _ _ Hloop). reflexivity.
  - done.
  - destruct Hsame as (?&?&?&?&?&?&?&?). by repeat split.
  - intros k. rewrite sent_to_with_clients.
    destruct (_socket_clients s !! k) as [c|] eqn:Hc.
    + rewrite <- (Hkeyed _ _ Hc). apply Hin.
      apply list_elem_of_fmap. exists (k, c). by rewrite elem_of_map_to_list.
    + rewrite app_nil_r. apply Hout. rewrite values_ids by done.
      intros ([k' c] & -> & Hin')%list_elem_of_fmap.
      apply elem_of_map_to_list in Hin'. cbn in Hc. congruence.
Qed.

(** ** The mime type of a url *)

Lemma contains_app (sep : ascii) (a b : string) :
  contains sep (a +:+ b) = contains sep a || contains sep b.
Proof. induction a as [|c a IH]; simpl; [done|]. by rewrite IH, orb_assoc. Qed.

Lemma split_last_tail (sep : ascii) (base rest : string) :
  contains sep rest = false →
  split_last sep (base +:+ String sep rest) = rest.
Proof.
  intros Hrest. induction base as [|c base IH]; simpl.
  - by rewrite Hrest, Ascii.eqb_refl.
  - rewrite contains_app. simpl. rewrite Ascii.eqb_refl, orb_true_r. exact IH.
Qed.

Lemma split_first_whole (sep : ascii) (s : string) :
  contains sep s = false → split_first sep s = s.
Proof.
  induction s as [|c s IH]; simpl; [done|].
  intros [Hc Hs]%orb_false_iff. rewrite Hc. by rewrite IH.
Qed.

Lemma split_first_head (sep : ascii) (a b : string) :
  contains sep a = false → split_first sep (a +:+ String sep b) = a.
Proof.
  induction a as [|c a IH]; simpl.
  - by rewrite Ascii.eqb_refl.
  - intros [Hc Ha]%orb_false_iff. rewrite Hc. by rewrite IH.
Qed.

(** X5: The mime type sent with a url is ["audio/"] followed by the extension:
    the text after the last dot, as far as the question mark of a query.
    This holds for a url that ends in its extension, and for one followed
    by a query without a dot. *)
Theorem mime_type_is_the_extension (base ext query : string) :
  contains "." ext = false →
  contains "?" ext = false →
  contains "." query = false →
  mime_type_of (base +:+ "." +:+ ext) = "audio/" +:+ ext ∧
  mime_type_of (base +:+ "." +:+ ext +:+ "?" +:+ query) = "audio/" +:+ ext.
Proof.
  intros Hdot Hq Hquery. unfold mime_type_of. split.
  - change (base +:+ "." +:+ ext) with (base +:+ String "." ext).
    by rewrite split_last_tail, split_first_whole.
  - change (base +:+ "." +:+ ext +:+ "?" +:+ query)
      with (base +:+ String "." (ext +:+ String "?" query)).
    rewrite split_last_tail, split_first_head; [done..|].
    rewrite contains_app. simpl. by rewrite Hdot, Hquery.
Qed.

(** ** The default output codec *)

(** X21: The default output codec of a player is FLAC whenever its session
    supports [flc]; without [flc] it is MP3 only when the session supports
    [mp3] and not [pcm]; in every other case, and for a player without a
    session, it is PCM. *)
Theorem default_codec_prefers_flac (supported_codecs : list string) :
  default_codec None = PCM ∧
  ("flc" ∈ supported_codecs → default_codec (Some supported_codecs) = FLAC) ∧
  ("flc" ∉ supported_codecs → "pcm" ∉ supported_codecs →
   "mp3" ∈ supported_codecs → default_codec (Some supported_codecs) = MP3) ∧
  ("flc" ∉ supported_codecs →
   "pcm" ∈ supported_codecs ∨ "mp3" ∉ supported_codecs →
   default_codec (Some supported_codecs) = PCM).
Proof.
  unfold default_codec. cbn [first_supported]. repeat split.
  - intros ?. by rewrite bool_decide_true.
  - intros ? ? ?. rewrite 2!bool_decide_false by done. by rewrite bool_decide_true.
  - intros ? [?|?].
    + rewrite bool_decide_false by done. by rewrite bool_decide_true.
    + rewrite bool_decide_false by done. case_bool_decide; [done|].
      by rewrite bool_decide_false.
Qed.

(** A session that decodes mp3 and ogg only gets MP3; one that also
    decodes pcm gets PCM. *)
Lemma default_codec_prefers_flac_witness :
  default_codec (Some ["ogg"; "mp3"]) = MP3 ∧
  default_codec (Some ["mp3"; "pcm"]) = PCM.
Proof.
  split.
  - apply (default_codec_prefers_flac ["ogg"; "mp3"]);
      [set_solver | set_solver | set_solver].
  - apply (default_codec_prefers_flac ["mp3"; "pcm"]);
      [set_solver | left; set_solver].
Defined.

(** ** The scenarios are well formed *)

Lemma two_idle_graph_ok : sync_graph_ok two_idle.
Proof.
  intros k p Hk. cbn in Hk.
  apply lookup_insert_Some in Hk as [[<- <-]|[_ Hk]];
    [|apply lookup_insert_Some in Hk as [[<- <-]|[_ Hk]]; [|done]];
    (split; [done|]); split; cbn; try done; intros c Hc; set_solver.
Qed.

Lemma group_playing_graph_ok : sync_graph_ok group_playing.
Proof.
  intros k p Hk. cbn in Hk.
  apply lookup_insert_Some in Hk as [[<- <-]|[_ Hk]];
    [|apply lookup_insert_Some in Hk as [[<- <-]|[_ Hk]];
      [|apply lookup_insert_Some in Hk as [[<- <-]|[_ Hk]]; [|done]]];
    (split; [done|]); split; cbn; try done.
  - intros c Hc Hne.
    assert (c = "bb") as -> by set_solver.
    exists (mk_player "bb" PlayerState.PLAYING (Some "aa") ∅). by split.
  - intros l [= <-]. split; [done|]. split; [done|].
    exists (mk_player "aa" PlayerState.PLAYING None {["aa"; "bb"]}).
    split; [reflexivity|]. cbn. split; [done|]. set_solver.
Qed.

Lemma group_drifting_at_rest : rings_at_rest group_drifting.
Proof.
  intros k ring Hk. cbn in Hk. apply lookup_singleton_Some in Hk as [_ <-].
  split; cbn; [lia|discriminate].
Qed.

(** ** The statements at the scenarios *)

Lemma play_and_pause_are_selective_witness :
  let settled :=
    ∀ c, c ∈ sync_clients group_playing "aa" leader_aa →
      SlimClient.state c ≠ SlimPlayerState.BUFFERING ∧
      SlimClient.state c ≠ SlimPlayerState.BUFFER_READY in
  (∃ s', cmd_play "aa" group_playing = (s', Ok tt) ∧ refreshed group_playing s' ∧
     (∀ k,
        sent_to k s' = sent_to k group_playing
          ++ ops_for play_op (member_session group_playing "aa" leader_aa k) ∧
        match member_session group_playing "aa" leader_aa k with
        | Some c =>
            (SlimClient.state c = SlimPlayerState.PAUSED →
             _socket_clients s' !! k
               = Some (SlimClient.set_state SlimPlayerState.PLAYING c)) ∧
            (play_op c = None → _socket_clients s' !! k = Some c)
        | None => _socket_clients s' !! k = _socket_clients group_playing !! k
        end) ∧
     (settled → cmd_play "aa" s' = (s', Ok tt))) ∧
  (∃ s', cmd_pause "aa" group_playing = (s', Ok tt) ∧ refreshed group_playing s' ∧
     (∀ k,
        sent_to k s' = sent_to k group_playing
          ++ ops_for pause_op (member_session group_playing "aa" leader_aa k) ∧
        match member_session group_playing "aa" leader_aa k with
        | Some c =>
            (SlimClient.state c = SlimPlayerState.PLAYING →
             _socket_clients s' !! k
               = Some (SlimClient.set_state SlimPlayerState.PAUSED c)) ∧
            (pause_op c = None → _socket_clients s' !! k = Some c)
        | None => _socket_clients s' !! k = _socket_clients group_playing !! k
        end) ∧
     (settled → cmd_pause "aa" s' = (s', Ok tt))).
Proof.
  apply (play_and_pause_are_selective "aa" group_playing leader_aa);
    [reflexivity | apply provider_of_keyed | by apply no_callbacks].
Defined.

Lemma stop_reaches_the_running_sessions_witness :
  ∃ s',
    cmd_stop "aa" group_playing = (s', Ok tt) ∧
    refreshed group_playing s' ∧
    ∀ k,
      sent_to k s' = sent_to k group_playing
        ++ ops_for stop_op (member_session group_playing "aa" leader_aa k) ∧
      match member_session group_playing "aa" leader_aa k with
      | Some c =>
          _socket_clients s' !! k
            = Some (SlimClient.set_state SlimPlayerState.STOPPED c)
      | None => _socket_clients s' !! k = _socket_clients group_playing !! k
      end ∧
      (ops_for stop_op (member_session group_playing "aa" leader_aa k) = [] →
         players s' !! k = players group_playing !! k) ∧
      (∀ c, member_session group_playing "aa" leader_aa k = Some c →
         SlimClient.state c ≠ SlimPlayerState.STOPPED →
         _virtual_providers group_playing !! SlimClient.device_model c = None →
         Player.state <$> players s' !! k = Some PlayerState.IDLE).
Proof.
  apply (stop_reaches_the_running_sessions "aa" group_playing leader_aa);
    [reflexivity | apply provider_of_keyed | by apply no_callbacks].
Defined.

Lemma stop_twice_is_stop_once_witness :
  ∃ s', cmd_stop "aa" group_playing = (s', Ok tt) ∧ cmd_stop "aa" s' = (s', Ok tt).
Proof.
  apply (stop_twice_is_stop_once "aa" group_playing leader_aa);
    [reflexivity | apply provider_of_keyed | by apply no_callbacks].
Defined.

Lemma play_commands_fan_out_witness :
  let autostart := (length (sync_clients group_playing "aa" leader_aa) =? 1)%nat in
  (String.prefix "http" "http://x/y.flac" = true →
   ∃ s',
     cmd_play_url env_j1 "aa" "http://x/y.flac" None group_playing = (s', Ok tt) ∧
     refreshed group_playing s' ∧
     ∀ k,
       sent_to k s' = sent_to k group_playing
         ++ ops_for stop_op (member_session group_playing "aa" leader_aa k)
         ++ ops_for (λ _, Some (play_url_op "http://x/y.flac" None autostart))
              (member_session group_playing "aa" leader_aa k) ∧
       _socket_clients s' !! k
         = match member_session group_playing "aa" leader_aa k with
           | Some c => Some (SlimClient.set_state SlimPlayerState.BUFFERING c)
           | None => _socket_clients group_playing !! k
           end) ∧
  ((∀ k c, member_session group_playing "aa" leader_aa k = Some c →
      String.prefix "http" (resolve_stream_url job_j1 k) = true) →
   ∃ s',
     cmd_handle_stream_job env_j1 "aa" job_j1 group_playing = (s', Ok tt) ∧
     refreshed group_playing s' ∧
     ∀ k,
       sent_to k s' = sent_to k group_playing
         ++ ops_for stop_op (member_session group_playing "aa" leader_aa k)
         ++ ops_for (λ _, Some (play_url_op (resolve_stream_url job_j1 k) None
                                  autostart))
              (member_session group_playing "aa" leader_aa k) ∧
       _socket_clients s' !! k
         = match member_session group_playing "aa" leader_aa k with
           | Some c => Some (SlimClient.set_state SlimPlayerState.BUFFERING c)
           | None => _socket_clients group_playing !! k
           end) ∧
  (String.prefix "http" "http://x/y.flac" = false →
   sync_clients group_playing "aa" leader_aa ≠ [] →
   ∃ errors,
     (cmd_play_url env_j1 "aa" "http://x/y.flac" None group_playing).2
       = Raise (ExceptionGroup errors)).
Proof.
  apply (play_commands_fan_out env_j1 "aa" "http://x/y.flac" None job_j1
           group_playing leader_aa);
    [reflexivity | reflexivity | apply provider_of_keyed | by apply no_callbacks].
Defined.

Lemma sync_again_keeps_the_table_witness :
  ∃ s1 s2,
    cmd_sync env_j1 "aa" "bb" two_idle = (s1, Ok tt) ∧
    cmd_sync env_j1 "aa" "bb" s1 = (s2, Ok tt) ∧
    players s2 = players s1.
Proof.
  apply (sync_again_keeps_the_table env_j1 "aa" "bb" two_idle idle_aa idle_bb);
    reflexivity.
Defined.

Lemma sync_keeps_the_graph_witness :
  ∃ s', cmd_sync env_j1 "aa" "bb" two_idle = (s', Ok tt) ∧ sync_graph_ok s'.
Proof.
  apply (sync_keeps_the_graph env_j1 "aa" "bb" two_idle idle_aa idle_bb);
    [apply two_idle_graph_ok | discriminate | reflexivity | reflexivity
    | left; reflexivity | reflexivity | reflexivity].
Defined.

Lemma unsync_keeps_the_graph_witness :
  ∃ s' pb pb',
    cmd_unsync "bb" group_playing = (s', Ok tt) ∧
    sync_graph_ok s' ∧
    membership s' "bb" = Some (None, ∅) ∧
    players group_playing !! "aa" = Some pb ∧ players s' !! "aa" = Some pb' ∧
    Player.synced_to pb' = None ∧
    Player.group_childs pb'
      = if bool_decide (Player.group_childs pb ∖ {["bb"]} = {["aa"]})
        then ∅ else Player.group_childs pb ∖ {["bb"]}.
Proof.
  apply (unsync_keeps_the_graph "bb" "aa" group_playing follower_bb);
    [apply group_playing_graph_ok | reflexivity | reflexivity
    | by apply no_callbacks].
Defined.

Lemma underrun_of_a_follower_resyncs_witness :
  ∃ s' pl,
    players group_playing !! "aa" = Some pl ∧
    _handle_output_underrun env_j1 client_bb group_playing = (s', Ok tt) ∧
    players s' = players group_playing ∧
    _socket_clients s' = _socket_clients group_playing ∧
    sent s' = sent group_playing ∧
    calls s' = calls group_playing ++
      (if PlayerState.eqb (Player.state pl) PlayerState.PLAYING
       then [queues_resume (get_active_queue env_j1 "aa") false]
       else [players_update (SlimClient.player_id client_bb); players_update "aa"]).
Proof.
  apply (underrun_of_a_follower_resyncs env_j1 client_bb group_playing
           follower_bb "aa");
    [apply group_playing_graph_ok | reflexivity | reflexivity | discriminate].
Defined.

Lemma drift_guards_change_nothing_witness :
  _handle_client_sync env_j1 at_100 client_bb_paused group_playing
    = (group_playing, Ok tt).
Proof.
  apply (drift_guards_change_nothing env_j1 at_100 client_bb_paused
           group_playing follower_bb); [reflexivity|].
  right. right. left. discriminate.
Defined.

Lemma drift_controller_keeps_rings_at_rest_witness :
  rings_at_rest (_handle_client_sync env_j1 at_100 client_bb group_drifting).1.
Proof.
  apply (drift_controller_keeps_rings_at_rest env_j1 at_100 client_bb
           group_drifting).
  apply group_drifting_at_rest.
Defined.

Lemma heartbeat_samples_only_playing_followers_witness :
  _handle_player_heartbeat env_j1 at_100 100 1 client_aa (group_playing, ∅)
    = ((group_playing,
        if SlimPlayerState.eqb (SlimClient.state client_aa) SlimPlayerState.STOPPED
        then ∅
        else <[SlimClient.player_id client_aa := (1%Q, 100%Q)]> ∅),
       Ok tt).
Proof.
  apply (heartbeat_samples_only_playing_followers env_j1 at_100 100 1 client_aa
           group_playing ∅ leader_aa); [reflexivity|].
  right. reflexivity.
Defined.

Lemma decoder_ready_hands_over_witness :
  let next := Some ("http://x/z.flac", item_z, false) in
  (true = false ∨ truthy (Player.synced_to leader_aa) = true
   ∨ SlimClient.state client_aa = SlimPlayerState.STOPPED
   ∨ "aa" ≠ Player.player_id leader_aa ∨ next = None →
   _handle_decoder_ready env_j1 true "aa" next client_aa group_playing
     = (group_playing, Ok tt)) ∧
  (true = true → truthy (Player.synced_to leader_aa) = false →
   SlimClient.state client_aa ≠ SlimPlayerState.STOPPED →
   "aa" = Player.player_id leader_aa →
   ∀ next_url next_item crossfade,
     next = Some (next_url, next_item, crossfade) →
     String.prefix "http" next_url = true →
     ∃ s',
       _handle_decoder_ready env_j1 true "aa" next client_aa group_playing
         = (s', Ok tt) ∧
       refreshed group_playing s' ∧
       ∀ k,
         sent_to k s' = sent_to k group_playing ++
           ops_for (λ _, Some
             (op_play_url next_url (mime_type_of next_url)
                (Some (queue_item_id next_item, qi_name next_item))
                false crossfade
                (if crossfade then crossfade_duration env_j1 k else 0) true))
             (member_session group_playing (SlimClient.player_id client_aa)
                leader_aa k) ∧
         _socket_clients s' !! k
           = match member_session group_playing (SlimClient.player_id client_aa)
                     leader_aa k with
             | Some c => Some (SlimClient.set_state SlimPlayerState.BUFFERING c)
             | None => _socket_clients group_playing !! k
             end).
Proof.
  apply (decoder_ready_hands_over env_j1 true "aa"
           (Some ("http://x/z.flac", item_z, false)) client_aa group_playing
           leader_aa);
    [reflexivity | apply provider_of_keyed | by apply no_callbacks].
Defined.

Lemma buffer_ready_starts_at_the_first_ready_pass_witness :
  let client := mk_client "aa" SlimPlayerState.BUFFER_READY 7000 0 in
  ∃ s',
    _handle_buffer_ready 3 ready_at_pass_2 (λ _, 100%Q) client = Some (s', Ok tt) ∧
    ∀ j c, j ∈ {[SlimClient.player_id client]} ∪ Player.group_childs leader_aa →
      _socket_clients (ready_at_pass_2 2) !! j = Some c →
      sent_to j s' = sent_to j (ready_at_pass_2 2)
        ++ [op_send_strm "u" (SlimClient.jiffies c + 20)] ∧
      _do_not_resync_before s' !! j = Some (100 + 1)%Q.
Proof.
  apply (buffer_ready_starts_at_the_first_ready_pass 3 2 ready_at_pass_2
           (λ _, 100%Q) (mk_client "aa" SlimPlayerState.BUFFER_READY 7000 0)
           leader_aa leader_aa).
  - reflexivity.
  - reflexivity.
  - reflexivity.
  - intros H. apply (f_equal elements) in H. vm_compute in H. discriminate.
  - intros j Hj. destruct j as [|[|j]]; [vm_compute; reflexivity ..|lia].
  - vm_compute. reflexivity.
  - reflexivity.
  - exact (provider_of_keyed _ _).
  - lia.
  - intros j c. unfold member_session. case_bool_decide as Hj; [|done].
    apply elem_of_elements in Hj.
    replace (elements _) with ["aa"; "bb"] in Hj by (vm_compute; reflexivity).
    apply elem_of_cons in Hj as [->|Hj];
      [|apply list_elem_of_singleton in Hj as ->];
      intros [= <-]; vm_compute; by split.
Defined.

Lemma registry_events_keep_the_graph_witness :
  (∃ s', _handle_player_update client_bb group_playing = (s', Ok tt) ∧
         same_links group_playing s' ∧
         (sync_graph_ok group_playing → sync_graph_ok s')) ∧
  (∃ s', _handle_connected env_j1 client_bb group_playing = (s', Ok tt) ∧
         same_links group_playing s' ∧
         (sync_graph_ok group_playing → sync_graph_ok s')) ∧
  (∃ s', _handle_disconnected client_bb group_playing = (s', Ok tt) ∧
         same_links group_playing s' ∧
         (sync_graph_ok group_playing → sync_graph_ok s')).
Proof.
  apply (registry_events_keep_the_graph env_j1 client_bb group_playing).
  reflexivity.
Defined.

Lemma disconnect_then_connect_restores_witness :
  ∃ s1 s2,
    _handle_disconnected client_bb group_playing = (s1, Ok tt) ∧
    _socket_clients s1
      = delete (SlimClient.player_id client_bb) (_socket_clients group_playing) ∧
    sent s1 = sent group_playing ∧
    _handle_connected
      (with_cache (cache_after (calls s1) (cache env_j1)) env_j1) client_bb s1
      = (s2, Ok tt) ∧
    sent s2 = sent group_playing
      ++ [(SlimClient.player_id client_bb, op_power (SlimClient.powered client_bb));
          (SlimClient.player_id client_bb,
           op_volume_set (SlimClient.volume_level client_bb))].
Proof.
  apply (disconnect_then_connect_restores env_j1 client_bb client_bb client_bb
           group_playing); reflexivity.
Defined.

Lemma unload_disconnects_every_session_witness :
  ∃ s',
    unload group_playing = (s', Ok tt) ∧
    _socket_clients s' = ∅ ∧
    same_but_sessions group_playing s' ∧
    ∀ k, sent_to k s' = sent_to k group_playing
      ++ if _socket_clients group_playing !! k then [op_disconnect] else [].
Proof.
  apply (unload_disconnects_every_session group_playing).
  apply provider_of_keyed.
Defined.

Lemma mime_type_is_the_extension_witness :
  mime_type_of ("http://x/y" +:+ "." +:+ "flac") = "audio/" +:+ "flac" ∧
  mime_type_of ("http://x/y" +:+ "." +:+ "flac" +:+ "?" +:+ "a=b")
    = "audio/" +:+ "flac".
Proof.
  apply (mime_type_is_the_extension "http://x/y" "flac" "a=b"); reflexivity.
Defined.

Lemma connected_establishes_can_sync_with_witness :
  ∃ s',
    _handle_connected env_j1 client_bb group_playing = (s', Ok tt) ∧
    _socket_clients s'
      = <[SlimClient.player_id client_bb := client_bb]>
          (_socket_clients group_playing) ∧
    can_sync_with_ok s'.
Proof.
  apply (connected_establishes_can_sync_with env_j1 client_bb group_playing);
    [apply provider_of_keyed | reflexivity].
Defined.

(** ** Device commands and virtual providers *)

(** X14: Power and volume set by command survive a reconnect too: after
    [cmd_volume_set] or [cmd_power] on a registered player, a connect under
    the same id that finds the cache as the recorded writes leave it ends
    by setting the new session to the session's power with the new volume,
    respectively to the new power with the session's volume.  For a player
    without a session the three device commands do nothing. *)
Theorem device_state_survives_a_reconnect (env : Env) (player_id : string)
    (volume_level : Z) (powered muted : bool) (new c : SlimClient.t)
    (s : Provider) :
  SlimClient.player_id new = player_id →
  (_socket_clients s !! player_id = Some c →
   (∃ s1 s2 before,
      cmd_volume_set player_id volume_level s = (s1, Ok tt) ∧
      _handle_connected
        (with_cache (cache_after (calls s1) (cache env)) env) new s1 = (s2, Ok tt) ∧
      sent s2 = before
        ++ [(player_id, op_power (SlimClient.powered c));
            (player_id, op_volume_set volume_level)]) ∧
   (∃ s1 s2 before,
      cmd_power player_id powered s = (s1, Ok tt) ∧
      _handle_connected
        (with_cache (cache_after (calls s1) (cache env)) env) new s1 = (s2, Ok tt) ∧
      sent s2 = before
        ++ [(player_id, op_power powered);
            (player_id, op_volume_set (SlimClient.volume_level c))])) ∧
  (_socket_clients s !! player_id = None →
   cmd_volume_set player_id volume_level s = (s, Ok tt) ∧
   cmd_power player_id powered s = (s, Ok tt) ∧
   cmd_volume_mute player_id muted s = (s, Ok tt)).
Proof.
  intros Hid. split.
  - intros Hc. split.
    + assert (Hrun : ∃ s1, cmd_volume_set player_id volume_level s = (s1, Ok tt) ∧
                calls s1 = calls s ++
                  [cache_set (cache_key player_id) (SlimClient.powered c) volume_level]).
      { unfold cmd_volume_set. munfold. rewrite Hc. cbn. by eexists. }
      destruct Hrun as (s1 & Hrun & Hcalls).
      destruct (connect_evicts_and_restores_aux
                  (with_cache (cache_after (calls s1) (cache env)) env) new s1)
        as (s2 & Hcon & _ & Hsent).
      exists s1, s2. eexists. split; [done|]. split; [done|].
      rewrite Hsent, Hid. cbn [cache with_cache].
      rewrite Hcalls, cache_after_snoc. cbn. rewrite lookup_insert_eq.
      by rewrite app_assoc.
    + assert (Hrun : ∃ s1, cmd_power player_id powered s = (s1, Ok tt) ∧
                calls s1 = calls s ++
                  [cache_set (cache_key player_id) powered (SlimClient.volume_level c)]).
      { unfold cmd_power. munfold. rewrite Hc. cbn. by eexists. }
      destruct Hrun as (s1 & Hrun & Hcalls).
      destruct (connect_evicts_and_restores_aux
                  (with_cache (cache_after (calls s1) (cache env)) env) new s1)
        as (s2 & Hcon & _ & Hsent).
      exists s1, s2. eexists. split; [done|]. split; [done|].
      rewrite Hsent, Hid. cbn [cache with_cache].
      rewrite Hcalls, cache_after_snoc. cbn. rewrite lookup_insert_eq.
      by rewrite app_assoc.
  - intros Hc. unfold cmd_volume_set, cmd_power, cmd_volume_mute. munfold.
    by rewrite Hc.
Qed.

Lemma device_state_survives_a_reconnect_witness :
  (_socket_clients group_playing !! "bb" = Some client_bb →
   (∃ s1 s2 before,
      cmd_volume_set "bb" 35 group_playing = (s1, Ok tt) ∧
      _handle_connected
        (with_cache (cache_after (calls s1) (cache env_j1)) env_j1) client_bb s1
        = (s2, Ok tt) ∧
      sent s2 = before
        ++ [("bb", op_power (SlimClient.powered client_bb));
            ("bb", op_volume_set 35)]) ∧
   (∃ s1 s2 before,
      cmd_power "bb" false group_playing = (s1, Ok tt) ∧
      _handle_connected
        (with_cache (cache_after (calls s1) (cache env_j1)) env_j1) client_bb s1
        = (s2, Ok tt) ∧
      sent s2 = before
        ++ [("bb", op_power false);
            ("bb", op_volume_set (SlimClient.volume_level client_bb))])) ∧
  (_socket_clients group_playing !! "bb" = None →
   cmd_volume_set "bb" 35 group_playing = (group_playing, Ok tt) ∧
   cmd_power "bb" false group_playing = (group_playing, Ok tt) ∧
   cmd_volume_mute "bb" true group_playing = (group_playing, Ok tt)).
Proof.
  apply (device_state_survives_a_reconnect env_j1 "bb" 35 false true client_bb
           client_bb group_playing).
  reflexivity.
Defined.

(** X22: Registering a virtual provider for a model that has none and
    unregistering it again leaves the provider as it was, and unregistering
    a model that has none changes nothing. *)
Theorem virtual_provider_round_trip (player_model : string)
    (register_callback update_callback : Callback) (s : Provider) :
  _virtual_providers s !! player_model = None →
  (register_virtual_provider player_model register_callback update_callback ;;
   unregister_virtual_provider player_model) s = (s, Ok tt) ∧
  unregister_virtual_provider player_model s = (s, Ok tt).
Proof.
  intros Hnone. unfold register_virtual_provider, unregister_virtual_provider.
  munfold. destruct s. cbn in *. unfold with_virtual_providers. cbn.
  by rewrite delete_insert_eq, !delete_id.
Qed.

Lemma virtual_provider_round_trip_witness :
  (register_virtual_provider "airplay" id id ;;
   unregister_virtual_provider "airplay") group_playing = (group_playing, Ok tt) ∧
  unregister_virtual_provider "airplay" group_playing = (group_playing, Ok tt).
Proof.
  apply (virtual_provider_round_trip "airplay" id id group_playing).
  reflexivity.
Defined.
